(** * Pong: a shallow embedding of [main.py] and its checked properties

    The program is a single-file pygame Pong game.  Its state is made of
    [pygame.Rect] values (integer rectangles), [pygame.Vector2] values and
    Python floats.  The embedding keeps that split:

    - rectangle coordinates, scores and the serve countdown are integers
      ([Z]), as in the program;
    - Python floats and [Vector2] components are real numbers ([R]): the
      model is the exact-arithmetic reading of the float code.  Rounding,
      [inf] and [nan] are outside it, and [Vector2.rotate] is the plain
      rotation matrix.  The one loop whose termination depends on
      rounding, in [_predict_target], is embedded a second time over
      binary64 floats (module [Binary64]);
    - [random.uniform] and [random.choice] are explicit draws handed to the
      function that consumes them;
    - exceptions ([ZeroDivisionError], [ValueError]) and the one [while]
      loop (bounded by fuel) are results of type [result]. *)

From Stdlib Require Import Reals Lra Lia ZArith List Zfloor.
From Stdlib Require Floats Uint63.
Import ListNotations.

Open Scope Z_scope.
Open Scope R_scope.

(** ** Results of calls that may raise or loop *)

Inductive exn : Set :=
| ZeroDivisionError
| ValueError.

Inductive result (A : Type) : Type :=
| Ok (a : A)
| Raise (e : exn)
| OutOfFuel.

Arguments Ok {A} a.
Arguments Raise {A} e.
Arguments OutOfFuel {A}.

Definition bind {A B : Type} (m : result A) (k : A -> result B) : result B :=
  match m with
  | Ok a => k a
  | Raise e => Raise e
  | OutOfFuel => OutOfFuel
  end.

Notation "x <- m ;; k" := (bind m (fun x => k))
  (at level 61, m at next level, right associativity).

(** ** Python numerics *)

(** [int(f)] on a float: truncation toward zero. *)
Definition int (r : R) : Z :=
  if Rle_dec 0 r then Zfloor r else Zceil r.

(** [a / b] on floats: raises when the divisor is zero. *)
Definition truediv (a b : R) : result R :=
  if Req_dec_T b 0 then Raise ZeroDivisionError else Ok (a / b).

(** ** pygame.Rect: integer rectangles

    A rectangle is its top-left corner and its size.  The centre is
    [x + w // 2], [y + h // 2]; the virtual attributes ([left], [bottom],
    [center], ...) are read and written through [x] and [y], the size
    never changes.  Coordinates are unbounded integers here; pygame keeps
    them in C [int]s and refuses values outside that range. *)

Module Rect.

Record t : Set := mk { x : Z; y : Z; w : Z; h : Z }.

Definition left (r : t) : Z := x r.
Definition top (r : t) : Z := y r.
Definition right (r : t) : Z := (x r + w r)%Z.
Definition bottom (r : t) : Z := (y r + h r)%Z.
Definition height (r : t) : Z := h r.
Definition centerx (r : t) : Z := (x r + w r / 2)%Z.
Definition centery (r : t) : Z := (y r + h r / 2)%Z.

Definition set_x (v : Z) (r : t) : t := mk v (y r) (w r) (h r).
Definition set_y (v : Z) (r : t) : t := mk (x r) v (w r) (h r).
Definition set_left (v : Z) (r : t) : t := set_x v r.
Definition set_top (v : Z) (r : t) : t := set_y v r.
Definition set_right (v : Z) (r : t) : t := set_x (v - w r)%Z r.
Definition set_bottom (v : Z) (r : t) : t := set_y (v - h r)%Z r.
Definition set_center (cx cy : Z) (r : t) : t :=
  mk (cx - w r / 2)%Z (cy - h r / 2)%Z (w r) (h r).

(** [colliderect]: empty rectangles never collide; otherwise the open
    interiors must overlap on both axes. *)
Definition colliderect (a b : t) : bool :=
  if ((w a =? 0) || (h a =? 0) || (w b =? 0) || (h b =? 0))%Z%bool
  then false
  else ((Z.min (x a) (x a + w a) <? Z.max (x b) (x b + w b))
        && (Z.min (y a) (y a + h a) <? Z.max (y b) (y b + h b))
        && (Z.min (x b) (x b + w b) <? Z.max (x a) (x a + w a))
        && (Z.min (y b) (y b + h b) <? Z.max (y a) (y a + h a)))%Z%bool.

End Rect.

(** ** pygame.Vector2 *)

Module Vector2.

Record t : Type := mk { x : R; y : R }.

Definition set_x (v : R) (u : t) : t := mk v (y u).
Definition set_y (v : R) (u : t) : t := mk (x u) v.

Definition radians (deg : R) : R := deg * PI / 180.

(** [v.rotate(angle)], the angle in degrees, counter-clockwise. *)
Definition rotate (deg : R) (u : t) : t :=
  let a := radians deg in
  mk (cos a * x u - sin a * y u) (sin a * x u + cos a * y u).

Definition length (u : t) : R := sqrt (x u * x u + y u * y u).

(** [v.normalize()] raises [ValueError] on the zero vector. *)
Definition normalize (u : t) : result t :=
  if Req_dec_T (length u) 0 then Raise ValueError
  else Ok (mk (x u / length u) (y u / length u)).

(** [v * s] *)
Definition scale (u : t) (s : R) : t := mk (x u * s) (y u * s).

End Vector2.

(** ** Module-level configuration *)

Definition WIDTH : Z := 800.
Definition HEIGHT : Z := 600.
Definition FPS : Z := 60.

Definition PADDLE_WIDTH : Z := 12.
Definition PADDLE_HEIGHT : Z := 100.
Definition PADDLE_MARGIN : Z := 30.
Definition PADDLE_SPEED : R := 6.

Definition BALL_SIZE : Z := 14.
Definition BALL_SPEED_START : R := 5.
Definition BALL_SPEED_INCREMENT : R := 0.25.
Definition BALL_SPEED_MAX : R := 12.

Definition SCORE_TO_WIN : Z := 11.
Definition COUNTDOWN_TIME : Z := 1200.

(** ** Bounds *)

Module Bounds.

Record t : Set := mk { width : Z; height : Z }.

Definition center (b : t) : Vector2.t :=
  Vector2.mk (IZR (width b) / 2) (IZR (height b) / 2).

End Bounds.

(** ** Paddle *)

Module Paddle.

Record t : Type := mk { rect : Rect.t; speed : R; velocity : R }.

Definition init (x y width height : Z) (speed : R) : t :=
  mk (Rect.mk x y width height) speed 0.

Definition set_rect (r : Rect.t) (p : t) : t := mk r (speed p) (velocity p).
Definition set_velocity (v : R) (p : t) : t := mk (rect p) (speed p) v.

(** [Paddle.update]: move vertically by the truncated step, then clamp
    the top edge and after it the bottom edge. *)
Definition update (dt : R) (bounds : Bounds.t) (p : t) : t :=
  let dy := velocity p * dt in
  let r1 := Rect.set_y (Rect.y (rect p) + int dy)%Z (rect p) in
  let r2 := if (Rect.top r1 <? 0)%Z then Rect.set_top 0 r1 else r1 in
  let r3 := if (Rect.bottom r2 >? Bounds.height bounds)%Z
            then Rect.set_bottom (Bounds.height bounds) r2 else r2 in
  set_rect r3 p.

Definition center_y (p : t) : Z := Rect.centery (rect p).

End Paddle.

(** Float comparisons as booleans. *)
Definition Rltb (a b : R) : bool := if Rlt_dec a b then true else false.
Definition Rleb (a b : R) : bool := if Rle_dec a b then true else false.

(** ** AIPaddle *)

Module AIPaddle.

Record t : Type := mk {
  base : Paddle.t;
  reaction_delay : R;
  error_margin : Z;
  track_smooth : R;
  time_since_react : R;
  target_y : R
}.

Definition init (x y width height : Z) (speed : R) : t :=
  let p := Paddle.init x y width height speed in
  mk p 0.10 18 0.18 0 (IZR (Rect.centery (Paddle.rect p))).

(** The mirroring loop of [_predict_target]: while [predicted_y] is
    outside [[0, h]], negate it when negative and after that fold it at
    [h] when above.  One unit of fuel pays for one pass of the body. *)
Fixpoint mirror (fuel : nat) (h predicted_y : R) {struct fuel} : result R :=
  if (Rltb predicted_y 0 || Rltb h predicted_y)%bool then
    match fuel with
    | O => OutOfFuel
    | S fuel' =>
        let y1 := if Rltb predicted_y 0 then - predicted_y else predicted_y in
        let y2 := if Rltb h y1 then 2 * h - y1 else y1 in
        mirror fuel' h y2
    end
  else Ok predicted_y.

(** [_predict_target]; [jitter] is the draw of
    [random.uniform(-error_margin, error_margin)]. *)
Definition predict_target (fuel : nat) (jitter : R) (self : t)
    (ball_rect : Rect.t) (ball_vel : Vector2.t) (bounds : Bounds.t)
    : result R :=
  if Rleb (Vector2.x ball_vel) 0 then
    Ok (IZR (Bounds.height bounds) / 2)
  else
    time_to_reach <-
      truediv (IZR (Rect.left (Paddle.rect (base self)) - Rect.centerx ball_rect))
              (Vector2.x ball_vel) ;;
    if Rleb time_to_reach 0 then
      Ok (IZR (Rect.centery ball_rect))
    else
      let predicted_y :=
        IZR (Rect.centery ball_rect) + Vector2.y ball_vel * time_to_reach in
      let h := IZR (Bounds.height bounds) in
      reflected <- mirror fuel h predicted_y ;;
      Ok (reflected + jitter).

(** [update_ai] *)
Definition update_ai (fuel : nat) (jitter : R) (dt : R)
    (ball_rect : Rect.t) (ball_vel : Vector2.t) (bounds : Bounds.t)
    (self : t) : result t :=
  let since := time_since_react self + dt in
  st <- (if Rleb (reaction_delay self) since then
           target <- predict_target fuel jitter self ball_rect ball_vel bounds ;;
           Ok (0, target)
         else Ok (since, target_y self)) ;;
  let '(since', target) := st in
  let desired := target - IZR (Rect.centery (Paddle.rect (base self))) in
  let move := desired * track_smooth self in
  let max_step := Paddle.speed (base self) in
  let move := Rmax (- max_step) (Rmin max_step move) in
  let p := Paddle.update dt bounds (Paddle.set_velocity move (base self)) in
  Ok (mk p (reaction_delay self) (error_margin self) (track_smooth self)
         since' target).

End AIPaddle.

(** ** Ball *)

Module Ball.

Record t : Type := mk {
  rect : Rect.t;
  velocity : Vector2.t;
  speed : R;
  serve_cooldown : Z
}.

Definition init (x y size : Z) (speed : R) : t :=
  mk (Rect.set_center x y (Rect.mk 0 0 size size)) (Vector2.mk speed 0) speed 0.

(** The random draws of one [reset]: both entries of [angle_choices] and
    the index that [random.choice] picks. *)
Record serve_draw : Type := mk_draw {
  first_angle : R;
  second_angle : R;
  pick_second : bool
}.

(** The ranges that [random.uniform] draws the two angles from. *)
Definition valid_draw (d : serve_draw) : Prop :=
  -25 <= first_angle d <= 25 /\ 155 <= second_angle d <= 205.

(** [random.choice(angle_choices)] *)
Definition chosen_angle (d : serve_draw) : R :=
  if pick_second d then second_angle d else first_angle d.

(** [reset(center, to_left)] *)
Definition reset (center : Vector2.t) (to_left : option bool)
    (d : serve_draw) (b : t) : result t :=
  let rect' :=
    Rect.set_center (int (Vector2.x center)) (int (Vector2.y center)) (rect b) in
  let angle := chosen_angle d in
  let direction := Vector2.rotate angle (Vector2.mk 1 0) in
  let direction :=
    match to_left with
    | Some true => Vector2.set_x (- Rabs (Vector2.x direction)) direction
    | Some false => Vector2.set_x (Rabs (Vector2.x direction)) direction
    | None => direction
    end in
  unit_dir <- Vector2.normalize direction ;;
  Ok (mk rect' (Vector2.scale unit_dir (speed b)) (speed b) COUNTDOWN_TIME).

(** Lines 194-199 of [_bounce_off_paddle]: the bounce angle, in degrees,
    from the hit position relative to the paddle centre. *)
Definition hit_angle (ball_rect paddle_rect : Rect.t) : result R :=
  let offset := (Rect.centery ball_rect - Rect.centery paddle_rect)%Z in
  norm <- truediv (IZR offset) (IZR (Rect.height paddle_rect) / 2) ;;
  let norm := Rmax (-1) (Rmin 1 norm) in
  Ok (norm * 60).

(** [_bounce_off_paddle] *)
Definition bounce_off_paddle (paddle : Paddle.t) (b : t) : result t :=
  let rect' :=
    if Rltb (Vector2.x (velocity b)) 0
    then Rect.set_left (Rect.right (Paddle.rect paddle)) (rect b)
    else Rect.set_right (Rect.left (Paddle.rect paddle)) (rect b) in
  angle <- hit_angle rect' (Paddle.rect paddle) ;;
  let direction := if Rltb 0 (Vector2.x (velocity b)) then 1 else -1 in
  let new_dir := Vector2.rotate angle (Vector2.mk direction 0) in
  let speed' := Rmin BALL_SPEED_MAX (speed b + BALL_SPEED_INCREMENT) in
  unit_dir <- Vector2.normalize new_dir ;;
  Ok (mk rect' (Vector2.scale unit_dir speed') speed' (serve_cooldown b)).

(** [update(dt_ms, bounds, paddles)]: the new ball and the scoring side
    ([None], [Some 0] when left scores, [Some 1] when right scores). *)
Definition update (dt_ms : R) (bounds : Bounds.t)
    (paddles : Paddle.t * Paddle.t) (b : t) : result (t * option nat) :=
  if (serve_cooldown b >? 0)%Z then
    Ok (mk (rect b) (velocity b) (speed b) (serve_cooldown b - int dt_ms)%Z, None)
  else
    let dt := dt_ms / (1000 / IZR FPS) in
    let move := Vector2.scale (velocity b) dt in
    let r := Rect.set_x (Rect.x (rect b) + int (Vector2.x move))%Z (rect b) in
    let r := Rect.set_y (Rect.y r + int (Vector2.y move))%Z r in
    let flipped := Vector2.set_y (Vector2.y (velocity b) * -1) (velocity b) in
    let '(r, v) :=
      if (Rect.top r <=? 0)%Z then (Rect.set_top 0 r, flipped)
      else if (Rect.bottom r >=? Bounds.height bounds)%Z
           then (Rect.set_bottom (Bounds.height bounds) r, flipped)
           else (r, velocity b) in
    let '(left_paddle, right_paddle) := paddles in
    let scored :=
      if (Rect.right r <? 0)%Z then Some 1%nat
      else if (Rect.left r >? Bounds.width bounds)%Z then Some 0%nat
           else None in
    match scored with
    | Some side =>
        Ok (mk r v (Rmin BALL_SPEED_MAX (speed b + BALL_SPEED_INCREMENT))
               (serve_cooldown b), Some side)
    | None =>
        let b1 := mk r v (speed b) (serve_cooldown b) in
        if (Rect.colliderect r (Paddle.rect left_paddle) && Rltb (Vector2.x v) 0)%bool then
          b2 <- bounce_off_paddle left_paddle b1 ;; Ok (b2, None)
        else if (Rect.colliderect r (Paddle.rect right_paddle) && Rltb 0 (Vector2.x v))%bool then
          b2 <- bounce_off_paddle right_paddle b1 ;; Ok (b2, None)
        else Ok (b1, None)
    end.

(** Consecutive [update] calls with the elapsed times of [dts]; the
    scoring results are dropped. *)
Fixpoint updates (dts : list R) (bounds : Bounds.t)
    (paddles : Paddle.t * Paddle.t) (b : t) : result t :=
  match dts with
  | [] => Ok b
  | dt_ms :: rest =>
      st <- update dt_ms bounds paddles b ;;
      updates rest bounds paddles (fst st)
  end.

End Ball.

(** ** Game *)

Module Game.

Record t : Type := mk {
  bounds : Bounds.t;
  left_paddle : Paddle.t;
  right_paddle : AIPaddle.t;
  ball : Ball.t;
  score : list Z;
  winner : option nat
}.

(** The two entries of [pygame.key.get_pressed()] that are read. *)
Record keys : Set := mk_keys { K_w : bool; K_s : bool }.

(** [Game.__init__], without the window, the clock and the fonts. *)
Definition init (d : Ball.serve_draw) : result t :=
  let bounds := Bounds.mk WIDTH HEIGHT in
  let lp :=
    Paddle.init PADDLE_MARGIN (HEIGHT / 2 - PADDLE_HEIGHT / 2)%Z
                PADDLE_WIDTH PADDLE_HEIGHT PADDLE_SPEED in
  let rp :=
    AIPaddle.init (WIDTH - PADDLE_MARGIN - PADDLE_WIDTH)%Z
                  (HEIGHT / 2 - PADDLE_HEIGHT / 2)%Z
                  PADDLE_WIDTH PADDLE_HEIGHT (PADDLE_SPEED * 0.95) in
  let b := Ball.init (WIDTH / 2)%Z (HEIGHT / 2)%Z BALL_SIZE BALL_SPEED_START in
  b <- Ball.reset (Bounds.center bounds) None d b ;;
  Ok (mk bounds lp rp b [0%Z; 0%Z] None).

(** [handle_input]: the velocity of the left paddle from the held keys. *)
Definition handle_input (k : keys) (lp : Paddle.t) : Paddle.t :=
  let vel := 0 in
  let vel := if K_w k then vel - Paddle.speed lp else vel in
  let vel := if K_s k then vel + Paddle.speed lp else vel in
  Paddle.set_velocity vel lp.

Definition dt_px (dt_ms : R) : R := (dt_ms / (1000 / IZR FPS)) * 1.

(** [score[side] += 1]; [side] is 0 or 1 and [score] has two entries. *)
Fixpoint add_point (side : nat) (score : list Z) : list Z :=
  match score, side with
  | [], _ => []
  | v :: rest, O => (v + 1)%Z :: rest
  | v :: rest, S side' => v :: add_point side' rest
  end.

(** [Game.update(dt_ms)]; [jitter] and [d] are the random draws that the
    AI prediction and a re-serve consume when they run. *)
Definition update (fuel : nat) (k : keys) (jitter : R)
    (d : Ball.serve_draw) (dt_ms : R) (g : t) : result t :=
  match winner g with
  | Some _ => Ok g
  | None =>
      let lp := handle_input k (left_paddle g) in
      let lp := Paddle.update (dt_px dt_ms) (bounds g) lp in
      rp <- AIPaddle.update_ai fuel jitter (dt_px dt_ms)
              (Ball.rect (ball g)) (Ball.velocity (ball g)) (bounds g)
              (right_paddle g) ;;
      st <- Ball.update dt_ms (bounds g) (lp, AIPaddle.base rp) (ball g) ;;
      let '(b, scored) := st in
      match scored with
      | None => Ok (mk (bounds g) lp rp b (score g) (winner g))
      | Some side =>
          let score' := add_point side (score g) in
          let winner' :=
            if (nth side score' 0%Z >=? SCORE_TO_WIN)%Z
            then Some side else winner g in
          b <- Ball.reset (Bounds.center (bounds g))
                 (Some (Nat.eqb side 1)) d b ;;
          Ok (mk (bounds g) lp rp b score' winner')
      end
  end.

(** The [K_r] branch of [Game.run]; the caller checks for a winner. *)
Definition restart (d : Ball.serve_draw) (g : t) : result t :=
  let b := ball g in
  let b := Ball.mk (Ball.rect b) (Ball.velocity b) BALL_SPEED_START
                   (Ball.serve_cooldown b) in
  b <- Ball.reset (Bounds.center (bounds g)) None d b ;;
  Ok (mk (bounds g) (left_paddle g) (right_paddle g) b [0%Z; 0%Z] None).

(** One state change of the main loop: the [update] call of a frame, or
    a [K_r] key event while a winner is recorded. *)
Inductive label : Set := Tick | Restart.

Inductive step : label -> t -> t -> Prop :=
| step_tick fuel k jitter d dt_ms g g' :
    Ball.valid_draw d ->
    Rabs jitter <= IZR (AIPaddle.error_margin (right_paddle g)) ->
    0 <= dt_ms ->
    update fuel k jitter d dt_ms g = Ok g' ->
    step Tick g g'
| step_restart d g g' :
    winner g <> None ->
    Ball.valid_draw d ->
    restart d g = Ok g' ->
    step Restart g g'.

Inductive reachable : t -> Prop :=
| reachable_init d g :
    Ball.valid_draw d -> init d = Ok g -> reachable g
| reachable_step l g g' :
    reachable g -> step l g g' -> reachable g'.

End Game.


(** ** The bounce angle in the words of the specification *)

Definition clamp (lo hi v : R) : R := Rmax lo (Rmin hi v).

(** Normalized hit offset:
    [(ball_center_y - paddle_center_y) / (paddle_height / 2)], clamped to
    [[-1, 1]]. *)
Definition normalized_hit_offset
    (ball_center_y paddle_center_y paddle_height : Z) : R :=
  clamp (-1) 1
    (IZR (ball_center_y - paddle_center_y) / (IZR paddle_height / 2)).

(** The offset mapped linearly to [[-60, 60]] degrees. *)
Definition spec_bounce_angle
    (ball_center_y paddle_center_y paddle_height : Z) : R :=
  60 * normalized_hit_offset ball_center_y paddle_center_y paddle_height.

(** ** Wall reflections in the words of the specification *)

(** [r] is an image of [y] under reflections in the walls [0] and [h]:
    an even number of bounces translates [y] by a multiple of [2 * h], an
    odd number also flips it. *)
Definition reflects (h y r : R) : Prop :=
  exists k : Z, r = y + 2 * IZR k * h \/ r = 2 * IZR k * h - y.

(** ** The invariant of the game states *)

(** The field and the paddle heights are those of the configuration, the
    ball speed lies between its start value and its maximum, and the
    velocity has the speed as its length. *)
Definition game_invariant (g : Game.t) : Prop :=
  Game.bounds g = Bounds.mk WIDTH HEIGHT /\
  Rect.height (Paddle.rect (Game.left_paddle g)) = PADDLE_HEIGHT /\
  Rect.height (Paddle.rect (AIPaddle.base (Game.right_paddle g))) = PADDLE_HEIGHT /\
  BALL_SPEED_START <= Ball.speed (Game.ball g) <= BALL_SPEED_MAX /\
  Vector2.length (Ball.velocity (Game.ball g)) = Ball.speed (Game.ball g).

(** The speed after a score or a paddle hit. *)
Definition sped_up (speed : R) : R :=
  Rmin BALL_SPEED_MAX (speed + BALL_SPEED_INCREMENT).

(** ** Concrete states used to exercise the properties *)

(** The draw that serves along the positive x axis. *)
Definition first_draw : Ball.serve_draw := Ball.mk_draw 0 180 false.

(** The state that [Game.init] builds from [first_draw]. *)
Definition first_game : Game.t :=
  Game.mk (Bounds.mk 800 600)
    (Paddle.init 30 250 12 100 PADDLE_SPEED)
    (AIPaddle.init 758 250 12 100 (PADDLE_SPEED * 0.95))
    (Ball.mk (Rect.mk 393 293 14 14) (Vector2.mk 5 0) 5 1200)
    [0%Z; 0%Z] None.

(** A game whose active ball has just left the field on the right
    ([x = bounds.width + 1]) while moving right. *)
Definition right_exit_game : Game.t :=
  Game.mk (Bounds.mk 800 600)
    (Paddle.init 30 250 12 100 PADDLE_SPEED)
    (AIPaddle.init 758 250 12 100 (PADDLE_SPEED * 0.95))
    (Ball.mk (Rect.mk 801 293 14 14) (Vector2.mk 5 0) 5 0)
    [0%Z; 0%Z] None.

Definition no_keys : Game.keys := Game.mk_keys false false.

(** ** Game.draw_hud: the serve countdown that is shown *)

(** The number in the "Serve in N" text, when that text is drawn. *)
Definition hud_serve_seconds (g : Game.t) : option Z :=
  match Game.winner g with
  | None =>
      if (Ball.serve_cooldown (Game.ball g) >? 0)%Z
      then Some (Z.max 0 (int (IZR (Ball.serve_cooldown (Game.ball g)) / 400) + 1))
      else None
  | Some _ => None
  end.

(** ** Game.run: one pass of the main loop, without the rendering *)

Module GameLoop.

Inductive key : Set := K_ESCAPE | K_r | K_other.

Inductive event : Set :=
| QUIT
| KEYDOWN (k : key)
| OTHER.

(** [Exited] stands for [pygame.quit(); sys.exit(0)]. *)
Inductive status : Type :=
| Running (g : Game.t)
| Exited.

(** The body of [for event in pygame.event.get()]; [d] is the draw that a
    restart would consume. *)
Definition handle_event (ev : event) (d : Ball.serve_draw) (g : Game.t)
    : result status :=
  match ev with
  | QUIT => Ok Exited
  | KEYDOWN K_ESCAPE => Ok Exited
  | KEYDOWN K_r =>
      match Game.winner g with
      | Some _ => g' <- Game.restart d g ;; Ok (Running g')
      | None => Ok (Running g)
      end
  | KEYDOWN K_other => Ok (Running g)
  | OTHER => Ok (Running g)
  end.

Fixpoint handle_events (evs : list (event * Ball.serve_draw)) (g : Game.t)
    : result status :=
  match evs with
  | [] => Ok (Running g)
  | (ev, d) :: rest =>
      st <- handle_event ev d g ;;
      match st with
      | Running g' => handle_events rest g'
      | Exited => Ok Exited
      end
  end.

(** One iteration of [while True]: the events, then [self.update(dt_ms)]. *)
Definition frame (fuel : nat) (evs : list (event * Ball.serve_draw))
    (k : Game.keys) (jitter : R) (d : Ball.serve_draw) (dt_ms : R) (g : Game.t)
    : result status :=
  st <- handle_events evs g ;;
  match st with
  | Running g1 =>
      g2 <- Game.update fuel k jitter d dt_ms g1 ;; Ok (Running g2)
  | Exited => Ok Exited
  end.

(** Events that end the program. *)
Definition quits (ev : event) : bool :=
  match ev with
  | QUIT | KEYDOWN K_ESCAPE => true
  | _ => false
  end.

End GameLoop.

(** ** Where the paddles of the game are *)



(** ** Ball.update: the move and the wall check *)

(** Lines 152-163 of [Ball.update]: the rectangle and the velocity of an
    active ball after the move and the wall check, before the scoring and
    the paddle checks. *)
Definition moved_ball (dt_ms : R) (bounds : Bounds.t) (b : Ball.t)
    : Rect.t * Vector2.t :=
  let dt := dt_ms / (1000 / IZR FPS) in
  let move := Vector2.scale (Ball.velocity b) dt in
  let r := Rect.set_x (Rect.x (Ball.rect b) + int (Vector2.x move))%Z (Ball.rect b) in
  let r := Rect.set_y (Rect.y r + int (Vector2.y move))%Z r in
  let flipped :=
    Vector2.set_y (Vector2.y (Ball.velocity b) * -1) (Ball.velocity b) in
  if (Rect.top r <=? 0)%Z then (Rect.set_top 0 r, flipped)
  else if (Rect.bottom r >=? Bounds.height bounds)%Z
       then (Rect.set_bottom (Bounds.height bounds) r, flipped)
       else (r, Ball.velocity b).

(** ** The mirroring loop in binary64 arithmetic *)

(** The embedding above reads Python floats as real numbers.  The loop of
    [_predict_target] is the one place of the program whose termination
    depends on rounding, so the function is embedded a second time over
    the binary64 floats that Python computes with. *)

Module Binary64.

(** Python's conversion of an [int] operand to a float; exact for
    [|z| < 2^53]. *)
Definition of_int (z : Z) : PrimFloat.float :=
  if (z <? 0)%Z then PrimFloat.opp (PrimFloat.of_uint63 (Uint63.of_Z (- z)))
  else PrimFloat.of_uint63 (Uint63.of_Z z).

(** The loop of lines 90-94; [h] is the integer [bounds.height]. *)
Fixpoint mirror (fuel : nat) (h : Z) (predicted_y : PrimFloat.float)
    {struct fuel} : result PrimFloat.float :=
  if (PrimFloat.ltb predicted_y (of_int 0)
      || PrimFloat.ltb (of_int h) predicted_y)%bool then
    match fuel with
    | O => OutOfFuel
    | S fuel' =>
        let y1 := if PrimFloat.ltb predicted_y (of_int 0)
                  then PrimFloat.opp predicted_y else predicted_y in
        let y2 := if PrimFloat.ltb (of_int h) y1
                  then PrimFloat.sub (of_int (2 * h)) y1 else y1 in
        mirror fuel' h y2
    end
  else Ok predicted_y.

(** [_predict_target] on floats.  The division cannot raise: a zero
    [ball_vel.x] takes the first return. *)
Definition predict_target (fuel : nat) (jitter : PrimFloat.float)
    (self : AIPaddle.t) (ball_rect : Rect.t) (vx vy : PrimFloat.float)
    (bounds : Bounds.t) : result PrimFloat.float :=
  if PrimFloat.leb vx (of_int 0) then
    Ok (PrimFloat.div (of_int (Bounds.height bounds)) (of_int 2))
  else
    let time_to_reach :=
      PrimFloat.div
        (of_int (Rect.left (Paddle.rect (AIPaddle.base self))
                 - Rect.centerx ball_rect))
        vx in
    if PrimFloat.leb time_to_reach (of_int 0) then
      Ok (of_int (Rect.centery ball_rect))
    else
      let predicted_y :=
        PrimFloat.add (of_int (Rect.centery ball_rect))
                      (PrimFloat.mul vy time_to_reach) in
      reflected <- mirror fuel (Bounds.height bounds) predicted_y ;;
      Ok (PrimFloat.add reflected jitter).

End Binary64.

(** ** A match played through *)

(** The draw that serves along the negative x axis. *)
Definition left_draw : Ball.serve_draw := Ball.mk_draw 0 180 true.

(** The state that [Game.init] builds from [left_draw]. *)
Definition left_serve_game : Game.t :=
  Game.mk (Bounds.mk 800 600)
    (Paddle.init 30 250 12 100 PADDLE_SPEED)
    (AIPaddle.init 758 250 12 100 (PADDLE_SPEED * 0.95))
    (Ball.mk (Rect.mk 393 293 14 14) (Vector2.mk (-5) 0) 5 1200)
    [0%Z; 0%Z] None.

(** Only [K_s] is held. *)
Definition s_key : Game.keys := Game.mk_keys false true.

(** The first rally once the left paddle has been moved down by 25
    pixels: the served ball with [cooldown] milliseconds left. *)
Definition first_rally (cooldown : Z) (g : Game.t) : Prop :=
  Game.bounds g = Bounds.mk 800 600 /\
  Game.winner g = None /\
  Game.score g = [0%Z; 0%Z] /\
  Paddle.rect (Game.left_paddle g) = Rect.mk 30 275 12 100 /\
  Game.ball g = Ball.mk (Rect.mk 393 293 14 14) (Vector2.mk (-5) 0) 5 cooldown /\
  AIPaddle.error_margin (Game.right_paddle g) = 18%Z.

(** The first rally after the ball has bounced off the left paddle, 25
    pixels above the paddle centre. *)
Definition after_first_hit (g : Game.t) : Prop :=
  Game.bounds g = Bounds.mk 800 600 /\
  Game.winner g = None /\
  Game.score g = [0%Z; 0%Z] /\
  Ball.rect (Game.ball g) = Rect.mk 42 293 14 14 /\
  Ball.velocity (Game.ball g) =
    Vector2.scale (Vector2.rotate (-30) (Vector2.mk (-1) 0)) 5.25 /\
  Ball.speed (Game.ball g) = 5.25 /\
  Ball.serve_cooldown (Game.ball g) = 0%Z /\
  AIPaddle.error_margin (Game.right_paddle g) = 18%Z.

(** The serve after the right side has scored [n] points in a row, each
    of them re-served with [left_draw]. *)
Definition left_run (n : nat) (g : Game.t) : Prop :=
  Game.bounds g = Bounds.mk 800 600 /\
  Game.winner g =
    (if (Z.of_nat n >=? SCORE_TO_WIN)%Z then Some 1%nat else None) /\
  Game.score g = [0%Z; Z.of_nat n] /\
  Ball.rect (Game.ball g) = Rect.mk 393 293 14 14 /\
  Vector2.x (Ball.velocity (Game.ball g)) = - Ball.speed (Game.ball g) /\
  Vector2.y (Ball.velocity (Game.ball g)) = 0 /\
  Ball.speed (Game.ball g) = 5.25 + INR n * 0.25 /\
  Ball.serve_cooldown (Game.ball g) = COUNTDOWN_TIME /\
  AIPaddle.error_margin (Game.right_paddle g) = 18%Z.
(** * Properties *)

(** ** Numeric helpers *)

Lemma Rltb_true (a b : R) : a < b -> Rltb a b = true.
Proof. intros H; unfold Rltb; destruct (Rlt_dec a b); [reflexivity | lra]. Qed.

Lemma Rltb_false (a b : R) : b <= a -> Rltb a b = false.
Proof. intros H; unfold Rltb; destruct (Rlt_dec a b); [lra | reflexivity]. Qed.

Lemma Rleb_true (a b : R) : a <= b -> Rleb a b = true.
Proof. intros H; unfold Rleb; destruct (Rle_dec a b); [reflexivity | lra]. Qed.

Lemma Rleb_false (a b : R) : b < a -> Rleb a b = false.
Proof. intros H; unfold Rleb; destruct (Rle_dec a b); [lra | reflexivity]. Qed.

Lemma int_IZR (z : Z) : int (IZR z) = z.
Proof.
  unfold int; destruct (Rle_dec 0 (IZR z)).
  - apply ZfloorZ.
  - unfold Zceil. rewrite <- opp_IZR, ZfloorZ. lia.
Qed.

Lemma int_small (r : R) : -1 < r < 1 -> int r = 0%Z.
Proof.
  intros [Hlo Hhi]; unfold int; destruct (Rle_dec 0 r).
  - apply Zfloor_eq; simpl; lra.
  - apply Zceil_eq; simpl; lra.
Qed.

Lemma int_nonneg (r : R) : 0 <= r -> (0 <= int r)%Z.
Proof.
  intros H; unfold int; destruct (Rle_dec 0 r); [| lra].
  apply Zfloor_lub; simpl; exact H.
Qed.

(** ** C7: paddle clamping *)

(** C7.  For every paddle position, velocity and elapsed time, a paddle
    that is no taller than the playfield has, after [Paddle.update], its
    top edge inside the field ([top >= 0]) and its bottom edge inside the
    field ([bottom <= bounds.height]). *)
Theorem paddle_update_within_bounds (dt : R) (bounds : Bounds.t) (p : Paddle.t) :
  (Rect.height (Paddle.rect p) <= Bounds.height bounds)%Z ->
  (0 <= Rect.top (Paddle.rect (Paddle.update dt bounds p)))%Z /\
  (Rect.bottom (Paddle.rect (Paddle.update dt bounds p)) <= Bounds.height bounds)%Z.
Proof.
  intros Hfit.
  unfold Paddle.update, Paddle.set_rect, Rect.height in *; cbn [Paddle.rect].
  set (y1 := (Rect.y (Paddle.rect p) + int (Paddle.velocity p * dt))%Z).
  unfold Rect.set_top, Rect.set_bottom, Rect.set_y, Rect.top, Rect.bottom.
  cbn [Rect.x Rect.y Rect.w Rect.h].
  destruct (Z.ltb_spec y1 0); cbn [Rect.x Rect.y Rect.w Rect.h].
  - destruct (Z.gtb_spec (0 + Rect.h (Paddle.rect p)) (Bounds.height bounds));
      cbn [Rect.x Rect.y Rect.w Rect.h]; lia.
  - destruct (Z.gtb_spec (y1 + Rect.h (Paddle.rect p)) (Bounds.height bounds));
      cbn [Rect.x Rect.y Rect.w Rect.h]; lia.
Qed.

(** The left paddle of the game, pushed far above the field in one step. *)
Lemma paddle_update_within_bounds_witness :
  let p := Paddle.mk (Rect.mk 30 250 12 100) 6 (-6) in
  let bounds := Bounds.mk 800 600 in
  (0 <= Rect.top (Paddle.rect (Paddle.update 100 bounds p)))%Z /\
  (Rect.bottom (Paddle.rect (Paddle.update 100 bounds p)) <= Bounds.height bounds)%Z.
Proof.
  apply (paddle_update_within_bounds 100 (Bounds.mk 800 600)
           (Paddle.mk (Rect.mk 30 250 12 100) 6 (-6))).
  simpl. lia.
Defined.

(** The fit of the paddle in the field is needed: a paddle taller than the
    field ends with its top edge above the field. *)
Lemma paddle_taller_than_field_sticks_out (dt : R) (bounds : Bounds.t) (p : Paddle.t) :
  (Bounds.height bounds < Rect.height (Paddle.rect p))%Z ->
  (Rect.top (Paddle.rect (Paddle.update dt bounds p)) < 0)%Z.
Proof.
  intros Htall.
  unfold Paddle.update, Paddle.set_rect, Rect.height in *; cbn [Paddle.rect].
  set (y1 := (Rect.y (Paddle.rect p) + int (Paddle.velocity p * dt))%Z).
  unfold Rect.set_top, Rect.set_bottom, Rect.set_y, Rect.top, Rect.bottom.
  cbn [Rect.x Rect.y Rect.w Rect.h].
  destruct (Z.ltb_spec y1 0); cbn [Rect.x Rect.y Rect.w Rect.h].
  - destruct (Z.gtb_spec (0 + Rect.h (Paddle.rect p)) (Bounds.height bounds));
      cbn [Rect.x Rect.y Rect.w Rect.h]; lia.
  - destruct (Z.gtb_spec (y1 + Rect.h (Paddle.rect p)) (Bounds.height bounds));
      cbn [Rect.x Rect.y Rect.w Rect.h]; lia.
Qed.

(** ** C8 and C10: the Serving state *)

(** C8.  While serving ([serve_cooldown > 0]), [Ball.update] returns no
    scoring side and a ball whose rectangle, velocity and speed are the
    old ones; the cooldown drops by the (truncated) elapsed time, so by
    the elapsed time itself when that is a whole number of milliseconds;
    bounds and paddles are not consulted. *)
Theorem serving_update_only_counts_down
    (dt_ms : R) (bounds : Bounds.t) (paddles : Paddle.t * Paddle.t) (b : Ball.t) :
  (0 < Ball.serve_cooldown b)%Z ->
  exists b',
    Ball.update dt_ms bounds paddles b = Ok (b', None) /\
    Ball.rect b' = Ball.rect b /\
    Ball.velocity b' = Ball.velocity b /\
    Ball.speed b' = Ball.speed b /\
    Ball.serve_cooldown b' = (Ball.serve_cooldown b - int dt_ms)%Z /\
    (forall n : Z, dt_ms = IZR n ->
       Ball.serve_cooldown b' = (Ball.serve_cooldown b - n)%Z) /\
    (forall bounds' paddles',
       Ball.update dt_ms bounds' paddles' b = Ok (b', None)).
Proof.
  intros Hcd.
  assert (Hgt : (Ball.serve_cooldown b >? 0)%Z = true) by (apply Z.gtb_lt; lia).
  eexists; unfold Ball.update; rewrite Hgt.
  split; [reflexivity |]; cbn [Ball.rect Ball.velocity Ball.speed Ball.serve_cooldown].
  repeat split.
  intros n ->. now rewrite int_IZR.
Qed.

Lemma serving_update_only_counts_down_witness :
  let b := Ball.mk (Rect.mk 393 293 14 14) (Vector2.mk 5 0) 5 1200 in
  let paddles := (Paddle.init 30 250 12 100 6, Paddle.init 758 250 12 100 6) in
  exists b',
    Ball.update 16 (Bounds.mk 800 600) paddles b = Ok (b', None) /\
    Ball.rect b' = Ball.rect b /\
    Ball.velocity b' = Ball.velocity b /\
    Ball.speed b' = Ball.speed b /\
    Ball.serve_cooldown b' = (Ball.serve_cooldown b - int 16)%Z /\
    (forall n : Z, 16 = IZR n ->
       Ball.serve_cooldown b' = (Ball.serve_cooldown b - n)%Z) /\
    (forall bounds' paddles',
       Ball.update 16 bounds' paddles' b = Ok (b', None)).
Proof.
  apply (serving_update_only_counts_down 16 (Bounds.mk 800 600)
           (Paddle.init 30 250 12 100 6, Paddle.init 758 250 12 100 6)
           (Ball.mk (Rect.mk 393 293 14 14) (Vector2.mk 5 0) 5 1200)).
  simpl. lia.
Defined.

Lemma serving_update_submillisecond
    (dt_ms : R) (bounds : Bounds.t) (paddles : Paddle.t * Paddle.t) (b : Ball.t) :
  (0 < Ball.serve_cooldown b)%Z -> 0 < dt_ms < 1 ->
  Ball.update dt_ms bounds paddles b = Ok (b, None).
Proof.
  intros Hcd Hdt.
  assert (Hgt : (Ball.serve_cooldown b >? 0)%Z = true) by (apply Z.gtb_lt; lia).
  unfold Ball.update; rewrite Hgt, int_small by lra.
  destruct b as [r v s cd]; cbn [Ball.rect Ball.velocity Ball.speed Ball.serve_cooldown].
  now rewrite Z.sub_0_r.
Qed.

(** C10.  A serving ball that is updated with an elapsed time strictly
    between 0 and 1 ms is returned unchanged (the truncated time is 0), so
    any run of such updates, however long, leaves the ball in the Serving
    state with its cooldown untouched. *)
Theorem submillisecond_ticks_never_serve
    (dts : list R) (bounds : Bounds.t) (paddles : Paddle.t * Paddle.t) (b : Ball.t) :
  (0 < Ball.serve_cooldown b)%Z ->
  Forall (fun dt_ms => 0 < dt_ms < 1) dts ->
  Forall (fun dt_ms => Ball.update dt_ms bounds paddles b = Ok (b, None)) dts /\
  Ball.updates dts bounds paddles b = Ok b.
Proof.
  intros Hcd Hall; induction Hall as [| dt_ms rest Hdt _ [IHone IHrun]].
  - split; [constructor | reflexivity].
  - pose proof (serving_update_submillisecond dt_ms bounds paddles b Hcd Hdt) as Hstep.
    split; [constructor; assumption |].
    cbn [Ball.updates]. rewrite Hstep. cbn [bind fst]. exact IHrun.
Qed.

Lemma submillisecond_ticks_never_serve_witness :
  let b := Ball.mk (Rect.mk 393 293 14 14) (Vector2.mk 5 0) 5 1200 in
  let paddles := (Paddle.init 30 250 12 100 6, Paddle.init 758 250 12 100 6) in
  let dts := [0.5; 0.25; 0.9] in
  Forall (fun dt_ms => Ball.update dt_ms (Bounds.mk 800 600) paddles b = Ok (b, None)) dts /\
  Ball.updates dts (Bounds.mk 800 600) paddles b = Ok b.
Proof.
  apply (submillisecond_ticks_never_serve [0.5; 0.25; 0.9] (Bounds.mk 800 600)
           (Paddle.init 30 250 12 100 6, Paddle.init 758 250 12 100 6)
           (Ball.mk (Rect.mk 393 293 14 14) (Vector2.mk 5 0) 5 1200)).
  - simpl. lia.
  - repeat constructor; lra.
Defined.

(** ** Vector facts *)

Section VectorFacts.

Variable u : Vector2.t.

Lemma length_rotate (deg : R) :
  Vector2.length (Vector2.rotate deg u) = Vector2.length u.
Proof.
  unfold Vector2.length, Vector2.rotate; cbn [Vector2.x Vector2.y].
  set (a := Vector2.radians deg).
  f_equal.
  transitivity ((Vector2.x u * Vector2.x u + Vector2.y u * Vector2.y u)
                * ((sin a)² + (cos a)²)).
  - unfold Rsqr; ring.
  - rewrite sin2_cos2; ring.
Qed.

Lemma length_set_x_abs :
  Vector2.length (Vector2.set_x (Rabs (Vector2.x u)) u) = Vector2.length u.
Proof.
  unfold Vector2.length, Vector2.set_x; cbn [Vector2.x Vector2.y].
  f_equal. f_equal.
  change (Rabs (Vector2.x u) * Rabs (Vector2.x u)) with (Rsqr (Rabs (Vector2.x u))).
  now rewrite <- Rsqr_abs.
Qed.

Lemma length_set_x_neg_abs :
  Vector2.length (Vector2.set_x (- Rabs (Vector2.x u)) u) = Vector2.length u.
Proof.
  rewrite <- length_set_x_abs.
  unfold Vector2.length, Vector2.set_x; cbn [Vector2.x Vector2.y].
  f_equal; ring.
Qed.

Lemma length_scale (s : R) :
  Vector2.length (Vector2.scale u s) = Vector2.length u * Rabs s.
Proof.
  unfold Vector2.length, Vector2.scale; cbn [Vector2.x Vector2.y].
  rewrite <- sqrt_Rsqr_abs, <- sqrt_mult.
  - f_equal; unfold Rsqr; ring.
  - nra.
  - apply Rle_0_sqr.
Qed.

Lemma normalize_unit :
  Vector2.length u = 1 -> Vector2.normalize u = Ok u.
Proof.
  intros Hlen; unfold Vector2.normalize; rewrite Hlen.
  destruct (Req_dec_T 1 0) as [H10 | _]; [lra |].
  destruct u as [ux uy]; cbn [Vector2.x Vector2.y].
  f_equal; f_equal; field.
Qed.

End VectorFacts.

Lemma length_unit_x (d : R) :
  d = 1 \/ d = -1 -> Vector2.length (Vector2.mk d 0) = 1.
Proof.
  intros Hd; unfold Vector2.length; cbn [Vector2.x Vector2.y].
  replace (d * d + 0 * 0) with 1 by (destruct Hd; subst; ring).
  apply sqrt_1.
Qed.

(** A unit vector scaled by a non-negative speed has that speed as length. *)
Lemma length_scale_unit (u : Vector2.t) (s : R) :
  Vector2.length u = 1 -> 0 <= s -> Vector2.length (Vector2.scale u s) = s.
Proof.
  intros Hlen Hs. rewrite length_scale, Hlen, Rabs_pos_eq by exact Hs. ring.
Qed.

(** ** Angles *)

Lemma radians_bounds (deg lo hi : R) :
  lo <= deg <= hi ->
  lo * PI / 180 <= Vector2.radians deg <= hi * PI / 180.
Proof.
  intros [Hlo Hhi]; unfold Vector2.radians.
  pose proof PI_RGT_0 as Hpi.
  split; apply Rmult_le_compat_r; try lra; apply Rmult_le_compat_r; lra.
Qed.

(** Within 60 degrees of the x axis the cosine is positive. *)
Lemma cos_radians_pos (deg : R) :
  -60 <= deg <= 60 -> 0 < cos (Vector2.radians deg).
Proof.
  intros Hdeg; pose proof (radians_bounds deg (-60) 60 Hdeg) as [Hlo Hhi].
  pose proof PI_RGT_0 as Hpi.
  apply cos_gt_0; lra.
Qed.

(** In the left serve cone the cosine is negative. *)
Lemma cos_radians_neg (deg : R) :
  155 <= deg <= 205 -> cos (Vector2.radians deg) < 0.
Proof.
  intros Hdeg; pose proof (radians_bounds deg 155 205 Hdeg) as [Hlo Hhi].
  pose proof PI_RGT_0 as Hpi.
  apply cos_lt_0; lra.
Qed.

Lemma radians_0 : Vector2.radians 0 = 0.
Proof. unfold Vector2.radians; lra. Qed.

Lemma radians_180 : Vector2.radians 180 = PI.
Proof. unfold Vector2.radians; lra. Qed.

(** In the right serve cone the sine vanishes only on the axis. *)
Lemma sin_radians_right_cone (deg : R) :
  -25 <= deg <= 25 -> (sin (Vector2.radians deg) = 0 <-> deg = 0).
Proof.
  intros Hdeg; pose proof (radians_bounds deg (-25) 25 Hdeg) as [Hlo Hhi].
  pose proof PI_RGT_0 as Hpi.
  split.
  - intros Hsin.
    destruct (Rtotal_order deg 0) as [Hneg | [Hz | Hpos]]; [| exact Hz |].
    + assert (Hr : Vector2.radians deg < 0) by (unfold Vector2.radians; nra).
      pose proof (sin_lt_0_var (Vector2.radians deg)) as Hlt. lra.
    + assert (Hr : 0 < Vector2.radians deg) by (unfold Vector2.radians; nra).
      pose proof (sin_gt_0 (Vector2.radians deg)) as Hgt. lra.
  - intros ->. rewrite radians_0. apply sin_0.
Qed.

(** In the left serve cone the sine vanishes only on the axis. *)
Lemma sin_radians_left_cone (deg : R) :
  155 <= deg <= 205 -> (sin (Vector2.radians deg) = 0 <-> deg = 180).
Proof.
  intros Hdeg; pose proof (radians_bounds deg 155 205 Hdeg) as [Hlo Hhi].
  pose proof PI_RGT_0 as Hpi.
  split.
  - intros Hsin.
    destruct (Rtotal_order deg 180) as [Hlt | [Heq | Hgt]]; [| exact Heq |].
    + assert (Hr : Vector2.radians deg < PI) by (unfold Vector2.radians; nra).
      pose proof (sin_gt_0 (Vector2.radians deg)) as Hpos. lra.
    + assert (Hr : PI < Vector2.radians deg) by (unfold Vector2.radians; nra).
      pose proof (sin_lt_0 (Vector2.radians deg)) as Hneg. lra.
  - intros ->. rewrite radians_180. apply sin_PI.
Qed.

(** ** Ball.reset *)

(** [reset] never raises: the direction it normalises has length one.  The
    new velocity is that direction scaled by the unchanged speed. *)
Lemma reset_spec (center : Vector2.t) (to_left : option bool)
    (d : Ball.serve_draw) (b : Ball.t) :
  let a := Vector2.radians (Ball.chosen_angle d) in
  exists b',
    Ball.reset center to_left d b = Ok b' /\
    Ball.rect b' =
      Rect.set_center (int (Vector2.x center)) (int (Vector2.y center)) (Ball.rect b) /\
    Ball.speed b' = Ball.speed b /\
    Ball.serve_cooldown b' = COUNTDOWN_TIME /\
    Vector2.x (Ball.velocity b') =
      match to_left with
      | Some true => - Rabs (cos a)
      | Some false => Rabs (cos a)
      | None => cos a
      end * Ball.speed b /\
    Vector2.y (Ball.velocity b') = sin a * Ball.speed b /\
    Vector2.length (Ball.velocity b') = Rabs (Ball.speed b).
Proof.
  intros a. unfold Ball.reset.
  set (dir0 := Vector2.rotate (Ball.chosen_angle d) (Vector2.mk 1 0)).
  assert (Hlen0 : Vector2.length dir0 = 1).
  { unfold dir0. rewrite length_rotate. apply length_unit_x. now left. }
  assert (Hx0 : Vector2.x dir0 = cos a).
  { unfold dir0, Vector2.rotate; cbn [Vector2.x Vector2.y]. fold a. ring. }
  assert (Hy0 : Vector2.y dir0 = sin a).
  { unfold dir0, Vector2.rotate; cbn [Vector2.x Vector2.y]. fold a. ring. }
  set (dir := match to_left with
              | Some true => Vector2.set_x (- Rabs (Vector2.x dir0)) dir0
              | Some false => Vector2.set_x (Rabs (Vector2.x dir0)) dir0
              | None => dir0
              end).
  assert (Hlen : Vector2.length dir = 1).
  { unfold dir. destruct to_left as [[|] |].
    - now rewrite length_set_x_neg_abs.
    - now rewrite length_set_x_abs.
    - exact Hlen0. }
  rewrite (normalize_unit dir Hlen). cbn [bind].
  eexists; split; [reflexivity |].
  cbn [Ball.rect Ball.speed Ball.serve_cooldown Ball.velocity].
  repeat split.
  - unfold dir, Vector2.scale; destruct to_left as [[|] |];
      cbn [Vector2.x Vector2.y Vector2.set_x]; now rewrite Hx0.
  - unfold dir, Vector2.scale; destruct to_left as [[|] |];
      cbn [Vector2.x Vector2.y Vector2.set_x]; now rewrite Hy0.
  - rewrite length_scale, Hlen. ring.
Qed.

(** ** C9: serve directions *)

Lemma chosen_angle_in_cone (d : Ball.serve_draw) :
  Ball.valid_draw d ->
  -25 <= Ball.chosen_angle d <= 25 \/ 155 <= Ball.chosen_angle d <= 205.
Proof.
  intros [Hfirst Hsecond]; unfold Ball.chosen_angle.
  destruct (Ball.pick_second d); [right | left]; assumption.
Qed.

Lemma cos_chosen_angle_nonzero (d : Ball.serve_draw) :
  Ball.valid_draw d -> cos (Vector2.radians (Ball.chosen_angle d)) <> 0.
Proof.
  intros Hd; destruct (chosen_angle_in_cone d Hd) as [Hr | Hl].
  - pose proof (cos_radians_pos (Ball.chosen_angle d)) as Hpos. lra.
  - pose proof (cos_radians_neg (Ball.chosen_angle d) Hl) as Hneg. lra.
Qed.

(** C9, as the code has it.  Every serve angle lies within 25 degrees of
    the horizontal axis (right cone or left cone), so a serve at positive
    speed always has a non-zero horizontal component; its vertical
    component is zero exactly when the drawn angle is 0 or 180 degrees,
    which both cones contain. *)
Theorem serve_cones_are_centred_on_horizontal
    (center : Vector2.t) (to_left : option bool) (d : Ball.serve_draw) (b : Ball.t) :
  Ball.valid_draw d ->
  0 < Ball.speed b ->
  exists b',
    Ball.reset center to_left d b = Ok b' /\
    (-25 <= Ball.chosen_angle d <= 25 \/ 155 <= Ball.chosen_angle d <= 205) /\
    Rabs (Vector2.x (Ball.velocity b')) =
      Rabs (cos (Vector2.radians (Ball.chosen_angle d))) * Ball.speed b /\
    Vector2.y (Ball.velocity b') =
      sin (Vector2.radians (Ball.chosen_angle d)) * Ball.speed b /\
    Vector2.x (Ball.velocity b') <> 0 /\
    (Vector2.y (Ball.velocity b') = 0 <->
     Ball.chosen_angle d = 0 \/ Ball.chosen_angle d = 180).
Proof.
  intros Hd Hspeed.
  destruct (reset_spec center to_left d b)
    as (b' & Hreset & _ & _ & _ & Hvx & Hvy & _).
  pose proof (cos_chosen_angle_nonzero d Hd) as Hcos.
  pose proof (chosen_angle_in_cone d Hd) as Hcone.
  set (a := Vector2.radians (Ball.chosen_angle d)) in *.
  assert (Habs : 0 < Rabs (cos a)) by (apply Rabs_pos_lt; exact Hcos).
  assert (HabsX : Rabs (Vector2.x (Ball.velocity b')) = Rabs (cos a) * Ball.speed b).
  { rewrite Hvx, Rabs_mult, (Rabs_pos_eq (Ball.speed b)) by lra.
    f_equal. destruct to_left as [[|] |]; try reflexivity.
    - rewrite Rabs_Ropp. apply Rabs_Rabsolu.
    - apply Rabs_Rabsolu. }
  exists b'; repeat split; try assumption.
  - intros Hzero. rewrite Hzero, Rabs_R0 in HabsX. nra.
  - rewrite Hvy; intros Hprod.
    assert (Hsin : sin a = 0) by nra.
    destruct Hcone as [Hr | Hl].
    + left. now apply (sin_radians_right_cone _ Hr).
    + right. now apply (sin_radians_left_cone _ Hl).
  - rewrite Hvy; intros [H0 | H180].
    + unfold a; rewrite H0, radians_0, sin_0; ring.
    + unfold a; rewrite H180, radians_180, sin_PI; ring.
Qed.

Lemma serve_cones_are_centred_on_horizontal_witness :
  let d := Ball.mk_draw 10 170 true in
  let b := Ball.init 400 300 14 5 in
  let center := Vector2.mk 400 300 in
  exists b',
    Ball.reset center (Some true) d b = Ok b' /\
    (-25 <= Ball.chosen_angle d <= 25 \/ 155 <= Ball.chosen_angle d <= 205) /\
    Rabs (Vector2.x (Ball.velocity b')) =
      Rabs (cos (Vector2.radians (Ball.chosen_angle d))) * Ball.speed b /\
    Vector2.y (Ball.velocity b') =
      sin (Vector2.radians (Ball.chosen_angle d)) * Ball.speed b /\
    Vector2.x (Ball.velocity b') <> 0 /\
    (Vector2.y (Ball.velocity b') = 0 <->
     Ball.chosen_angle d = 0 \/ Ball.chosen_angle d = 180).
Proof.
  apply (serve_cones_are_centred_on_horizontal (Vector2.mk 400 300) (Some true)
           (Ball.mk_draw 10 170 true) (Ball.init 400 300 14 5)).
  - unfold Ball.valid_draw; simpl; lra.
  - simpl; lra.
Defined.

(** C9 as stated fails: the angle 0 is a legal draw of
    [random.uniform(-25, 25)], and the serve it gives at the start of a
    game has no vertical component at all. *)
Lemma serve_can_be_purely_horizontal :
  let d := Ball.mk_draw 0 180 false in
  let b := Ball.init (WIDTH / 2) (HEIGHT / 2) BALL_SIZE BALL_SPEED_START in
  Ball.valid_draw d /\
  exists b',
    Ball.reset (Bounds.center (Bounds.mk WIDTH HEIGHT)) None d b = Ok b' /\
    Vector2.x (Ball.velocity b') = 5 /\
    Vector2.y (Ball.velocity b') = 0.
Proof.
  intros d b. split; [unfold Ball.valid_draw, d; simpl; lra |].
  destruct (reset_spec (Bounds.center (Bounds.mk WIDTH HEIGHT)) None d b)
    as (b' & Hreset & _ & _ & _ & Hvx & Hvy & _).
  exists b'; split; [exact Hreset |].
  rewrite Hvx, Hvy.
  unfold d, Ball.chosen_angle; cbn [Ball.pick_second Ball.first_angle].
  rewrite radians_0, cos_0, sin_0.
  unfold b, Ball.init, BALL_SPEED_START; cbn [Ball.speed]. lra.
Qed.

(** ** Ball._bounce_off_paddle *)

Lemma clamp_bounds (v : R) : -1 <= clamp (-1) 1 v <= 1.
Proof.
  unfold clamp, Rmax, Rmin.
  destruct (Rle_dec 1 v); destruct (Rle_dec (-1) 1);
    try destruct (Rle_dec (-1) v); lra.
Qed.


Lemma clamp_inside (v : R) : -1 <= v <= 1 -> clamp (-1) 1 v = v.
Proof.
  intros [Hlo Hhi]; unfold clamp.
  rewrite (Rmin_right 1 v Hhi). now apply Rmax_right.
Qed.


Lemma spec_bounce_angle_bounds (bcy pcy ph : Z) :
  -60 <= spec_bounce_angle bcy pcy ph <= 60.
Proof.
  unfold spec_bounce_angle, normalized_hit_offset.
  pose proof (clamp_bounds (IZR (bcy - pcy) / (IZR ph / 2))). lra.
Qed.

(** The angle computed by the code is the one the specification words. *)
Lemma hit_angle_spec (ball_rect paddle_rect : Rect.t) :
  Rect.height paddle_rect <> 0%Z ->
  Ball.hit_angle ball_rect paddle_rect =
    Ok (spec_bounce_angle (Rect.centery ball_rect) (Rect.centery paddle_rect)
          (Rect.height paddle_rect)).
Proof.
  intros Hph; unfold Ball.hit_angle, truediv.
  destruct (Req_dec_T (IZR (Rect.height paddle_rect) / 2) 0) as [Hz | _].
  - exfalso. apply Hph, eq_IZR. lra.
  - cbn [bind]. f_equal.
    unfold spec_bounce_angle, normalized_hit_offset, clamp. ring.
Qed.

(** Moving the ball flush against the paddle changes its [x] only. *)
Lemma flush_keeps_centery (paddle : Paddle.t) (b : Ball.t) :
  Rect.centery
    (if Rltb (Vector2.x (Ball.velocity b)) 0
     then Rect.set_left (Rect.right (Paddle.rect paddle)) (Ball.rect b)
     else Rect.set_right (Rect.left (Paddle.rect paddle)) (Ball.rect b))
  = Rect.centery (Ball.rect b).
Proof. destruct (Rltb _ _); reflexivity. Qed.

(** What one paddle bounce does, for a paddle of non-zero height. *)
Lemma bounce_spec (paddle : Paddle.t) (b : Ball.t) :
  Rect.height (Paddle.rect paddle) <> 0%Z ->
  let angle :=
    spec_bounce_angle (Rect.centery (Ball.rect b))
      (Rect.centery (Paddle.rect paddle)) (Rect.height (Paddle.rect paddle)) in
  let direction := if Rltb 0 (Vector2.x (Ball.velocity b)) then 1 else -1 in
  exists b',
    Ball.bounce_off_paddle paddle b = Ok b' /\
    Ball.speed b' = Rmin BALL_SPEED_MAX (Ball.speed b + BALL_SPEED_INCREMENT) /\
    Ball.serve_cooldown b' = Ball.serve_cooldown b /\
    Rect.centery (Ball.rect b') = Rect.centery (Ball.rect b) /\
    Ball.velocity b' =
      Vector2.scale (Vector2.rotate angle (Vector2.mk direction 0)) (Ball.speed b') /\
    Ball.rect b' =
      (if Rltb (Vector2.x (Ball.velocity b)) 0
       then Rect.set_left (Rect.right (Paddle.rect paddle)) (Ball.rect b)
       else Rect.set_right (Rect.left (Paddle.rect paddle)) (Ball.rect b)).
Proof.
  intros Hph angle direction. unfold Ball.bounce_off_paddle.
  rewrite (hit_angle_spec _ _ Hph), flush_keeps_centery. cbn [bind].
  fold angle direction.
  assert (Hlen : Vector2.length (Vector2.rotate angle (Vector2.mk direction 0)) = 1).
  { rewrite length_rotate. apply length_unit_x.
    unfold direction; destruct (Rltb _ _); [now left | now right]. }
  rewrite (normalize_unit _ Hlen). cbn [bind].
  eexists; split; [reflexivity |].
  cbn [Ball.rect Ball.speed Ball.serve_cooldown Ball.velocity].
  repeat split. apply flush_keeps_centery.
Qed.

(** ** C2: the bounce angle *)


Lemma spec_bounce_angle_center (pcy ph : Z) :
  spec_bounce_angle pcy pcy ph = 0.
Proof.
  unfold spec_bounce_angle, normalized_hit_offset.
  rewrite Z.sub_diag. unfold Rdiv at 1. rewrite Rmult_0_l.
  rewrite clamp_inside by lra. ring.
Qed.






(** The evenness of the height matters at the top edge only because the
    rectangle centre is an integer: on a paddle of height 101 the top edge
    is 50 above the centre while half the height is 50.5. *)
Lemma top_edge_of_odd_paddle_is_short_of_60 :
  -60 < spec_bounce_angle 250 (Rect.centery (Rect.mk 758 250 12 101)) 101.
Proof.
  unfold spec_bounce_angle, normalized_hit_offset.
  replace (Rect.centery (Rect.mk 758 250 12 101)) with 300%Z by reflexivity.
  replace (250 - 300)%Z with (-50)%Z by reflexivity.
  rewrite clamp_inside; lra.
Qed.


(** ** C1: the direction after a paddle bounce *)

(** A bounce keeps the horizontal direction the ball came in with: the
    sign of [velocity.x] picks [direction], and within 60 degrees of the
    axis the rotation does not change that sign. *)
Lemma bounce_keeps_horizontal_direction (paddle : Paddle.t) (b : Ball.t) :
  Rect.height (Paddle.rect paddle) <> 0%Z ->
  0 < Ball.speed b + BALL_SPEED_INCREMENT ->
  exists b',
    Ball.bounce_off_paddle paddle b = Ok b' /\
    (Vector2.x (Ball.velocity b) < 0 -> Vector2.x (Ball.velocity b') < 0) /\
    (0 < Vector2.x (Ball.velocity b) -> 0 < Vector2.x (Ball.velocity b')).
Proof.
  intros Hph Hspeed.
  destruct (bounce_spec paddle b Hph) as (b' & Hb & Hs & _ & _ & Hvel & _).
  exists b'; split; [exact Hb |].
  pose proof (spec_bounce_angle_bounds (Rect.centery (Ball.rect b))
                (Rect.centery (Paddle.rect paddle))
                (Rect.height (Paddle.rect paddle))) as Hang.
  apply cos_radians_pos in Hang.
  assert (Hs' : 0 < Ball.speed b').
  { rewrite Hs. unfold BALL_SPEED_MAX. apply Rmin_glb_lt; lra. }
  rewrite Hvel. unfold Vector2.scale, Vector2.rotate; cbn [Vector2.x Vector2.y].
  split; intros Hv.
  - rewrite Rltb_false by lra. nra.
  - rewrite Rltb_true by lra. nra.
Qed.

(** C1, at a concrete tick.  A ball moving left at speed 5 reaches the
    left paddle of the game at the height of the paddle centre.  The
    update runs the bounce: the ball is put flush against the paddle, the
    speed rises to 5.25, and the new velocity is (-5.25, 0), still pointing
    left, into the paddle that was hit. *)
Theorem left_paddle_bounce_keeps_moving_left :
  let bounds := Bounds.mk WIDTH HEIGHT in
  let left_paddle := Paddle.init 30 250 12 100 6 in
  let right_paddle := Paddle.init 758 250 12 100 5.7 in
  let b := Ball.mk (Rect.mk 45 293 14 14) (Vector2.mk (-5) 0) 5 0 in
  exists b',
    Ball.update 16 bounds (left_paddle, right_paddle) b = Ok (b', None) /\
    Ball.rect b' = Rect.mk 42 293 14 14 /\
    Vector2.x (Ball.velocity b') = -5.25 /\
    Vector2.y (Ball.velocity b') = 0 /\
    Ball.speed b' = 5.25.
Proof.
  intros bounds left_paddle right_paddle b.
  set (b1 := Ball.mk (Rect.mk 41 293 14 14) (Vector2.mk (-5) 0) 5 0).
  assert (Hnz : Rect.height (Paddle.rect left_paddle) <> 0%Z) by (simpl; lia).
  destruct (bounce_spec left_paddle b1 Hnz)
    as (b' & Hb & Hs & _ & _ & Hvel & Hrect).
  exists b'.
  assert (Hx : int (-5 * (16 / (1000 / IZR FPS))) = (-4)%Z).
  { unfold int, FPS.
    destruct (Rle_dec 0 (-5 * (16 / (1000 / 60)))) as [H | H]; [lra |].
    apply Zceil_eq. simpl. lra. }
  assert (Hy : int (0 * (16 / (1000 / IZR FPS))) = 0%Z).
  { apply int_small. unfold FPS. lra. }
  assert (Hmoving : Rltb (-5) 0 = true) by (apply Rltb_true; lra).
  split.
  - unfold Ball.update, b.
    cbn [Ball.serve_cooldown Ball.rect Ball.velocity Ball.speed
         Vector2.scale Vector2.x Vector2.y].
    change ((0 >? 0)%Z) with false. cbv iota.
    rewrite Hx, Hy.
    match goal with
    | |- context [Rect.set_y ?v ?r] =>
        change (Rect.set_y v r) with (Rect.mk 41 293 14 14)
    end.
    change (Rect.top (Rect.mk 41 293 14 14) <=? 0)%Z with false.
    change (Rect.bottom (Rect.mk 41 293 14 14) >=? Bounds.height bounds)%Z
      with false.
    cbv iota.
    change (Rect.right (Rect.mk 41 293 14 14) <? 0)%Z with false.
    change (Rect.left (Rect.mk 41 293 14 14) >? Bounds.width bounds)%Z
      with false.
    cbv iota.
    change (Rect.colliderect (Rect.mk 41 293 14 14) (Paddle.rect left_paddle))
      with true.
    cbn [Vector2.x andb]. rewrite Hmoving.
    fold b1. rewrite Hb. reflexivity.
  - rewrite Hrect, Hvel, Hs.
    unfold b1; cbn [Ball.velocity Ball.rect Ball.speed Vector2.x].
    rewrite Hmoving, (Rltb_false 0 (-5)) by lra.
    replace (spec_bounce_angle _ _ _) with 0
      by (symmetry; apply spec_bounce_angle_center).
    unfold Vector2.scale, Vector2.rotate; cbn [Vector2.x Vector2.y].
    rewrite radians_0, cos_0, sin_0.
    unfold BALL_SPEED_MAX, BALL_SPEED_INCREMENT.
    rewrite Rmin_right by lra.
    split; [reflexivity |]. repeat split; lra.
Qed.

(** ** C6: the AI prediction *)

Lemma mirror_in_range (fuel : nat) (h y : R) :
  0 <= y <= h -> AIPaddle.mirror fuel h y = Ok y.
Proof.
  intros [Hlo Hhi]. destruct fuel; cbn [AIPaddle.mirror];
    rewrite (Rltb_false y 0), (Rltb_false h y) by lra; reflexivity.
Qed.

Lemma reflects_refl (h y : R) : reflects h y y.
Proof. exists 0%Z; left; ring. Qed.

Lemma reflects_neg (h y r : R) : reflects h (- y) r -> reflects h y r.
Proof.
  intros [k [Hk | Hk]].
  - exists k; right; lra.
  - exists k; left; lra.
Qed.

Lemma reflects_fold (h y r : R) : reflects h (2 * h - y) r -> reflects h y r.
Proof.
  intros [k [Hk | Hk]].
  - exists (k + 1)%Z; right; rewrite plus_IZR; lra.
  - exists (k - 1)%Z; left; rewrite minus_IZR; lra.
Qed.

(** The loop ends once the fuel covers the distance to the field, counted
    in field heights; its result is in the field and is a wall-reflection
    image of the start value. *)
Lemma mirror_terminates (h : R) (Hh : 0 < h) (fuel : nat) :
  forall y : R,
    - (INR fuel * h) <= y <= h + INR fuel * h ->
    exists r, AIPaddle.mirror fuel h y = Ok r /\ 0 <= r <= h /\ reflects h y r.
Proof.
  induction fuel as [| fuel IH]; intros y Hy.
  - cbn [INR] in Hy. exists y.
    rewrite mirror_in_range by lra. repeat split; try lra. apply reflects_refl.
  - rewrite S_INR in Hy.
    assert (Hfuel : 0 <= INR fuel) by apply pos_INR.
    cbn [AIPaddle.mirror].
    destruct (Rlt_dec y 0) as [Hneg | Hnonneg].
    + rewrite (Rltb_true y 0 Hneg). cbn [orb].
      destruct (Rlt_dec h (- y)) as [Hfar | Hnear].
      * rewrite (Rltb_true h (- y) Hfar).
        destruct (IH (2 * h - - y)) as (r & Hr & Hrange & Hrefl); [nra |].
        exists r; repeat split; try assumption; try lra.
        apply reflects_neg, reflects_fold, Hrefl.
      * rewrite (Rltb_false h (- y)) by lra.
        destruct (IH (- y)) as (r & Hr & Hrange & Hrefl); [nra |].
        exists r; repeat split; try assumption; try lra.
        apply reflects_neg, Hrefl.
    + rewrite (Rltb_false y 0) by lra. cbn [orb].
      destruct (Rlt_dec h y) as [Habove | Hinside].
      * rewrite (Rltb_true h y Habove).
        destruct (IH (2 * h - y)) as (r & Hr & Hrange & Hrefl); [nra |].
        exists r; repeat split; try assumption; try lra.
        apply reflects_fold, Hrefl.
      * rewrite (Rltb_false h y) by lra.
        exists y; repeat split; try lra. apply reflects_refl.
Qed.

Lemma mirror_fuel_monotone (h : R) (fuel : nat) :
  forall (y r : R) (fuel' : nat),
    AIPaddle.mirror fuel h y = Ok r -> (fuel <= fuel')%nat ->
    AIPaddle.mirror fuel' h y = Ok r.
Proof.
  induction fuel as [| fuel IH]; intros y r fuel' Hrun Hle.
  - cbn [AIPaddle.mirror] in Hrun.
    destruct (Rltb y 0 || Rltb h y)%bool eqn:Hout; [discriminate |].
    destruct fuel'; cbn [AIPaddle.mirror]; rewrite Hout; exact Hrun.
  - destruct fuel' as [| fuel']; [lia |].
    cbn [AIPaddle.mirror] in *.
    destruct (Rltb y 0 || Rltb h y)%bool; [| exact Hrun].
    apply IH; [exact Hrun | lia].
Qed.

Lemma enough_fuel (h y : R) :
  0 < h -> exists fuel : nat, - (INR fuel * h) <= y <= h + INR fuel * h.
Proof.
  intros Hh.
  destruct (archimed (Rabs y / h)) as [Hup _].
  assert (Hq : 0 <= Rabs y / h).
  { apply Rmult_le_pos; [apply Rabs_pos | left; now apply Rinv_0_lt_compat]. }
  assert (Hpos : (0 < up (Rabs y / h))%Z) by (apply lt_IZR; lra).
  exists (Z.to_nat (up (Rabs y / h))).
  rewrite INR_IZR_INZ, Z2Nat.id by lia.
  assert (Hbig : Rabs y < IZR (up (Rabs y / h)) * h).
  { apply (Rmult_lt_compat_r h) in Hup; [| exact Hh].
    replace (Rabs y / h * h) with (Rabs y) in Hup by (field; lra). lra. }
  pose proof (Rle_abs y) as Habs1.
  pose proof (Rle_abs (- y)) as Habs2. rewrite Rabs_Ropp in Habs2.
  lra.
Qed.

(** In a field of positive height a value has one reflection image only:
    the result of the loop is the position that wall bounces lead to. *)
Lemma reflection_image_unique (h y r1 r2 : R) :
  0 < h ->
  reflects h y r1 -> 0 <= r1 <= h ->
  reflects h y r2 -> 0 <= r2 <= h ->
  r1 = r2.
Proof.
  intros Hh [k1 H1] R1 [k2 H2] R2.
  assert (Hint : forall m : Z, -1 < IZR m < 1 -> m = 0%Z).
  { intros m [Hlo Hhi]. apply lt_IZR in Hlo, Hhi. lia. }
  assert (Hint2 : forall m : Z, -1 < IZR m < 2 -> m = 0%Z \/ m = 1%Z).
  { intros m [Hlo Hhi]. apply lt_IZR in Hlo, Hhi. lia. }
  destruct H1 as [H1 | H1], H2 as [H2 | H2].
  - assert (Hd : r1 - r2 = 2 * IZR (k1 - k2) * h) by (rewrite minus_IZR; lra).
    assert (Hz : (k1 - k2 = 0)%Z) by (apply Hint; split; nra).
    rewrite Hz in Hd. lra.
  - assert (Hd : r1 + r2 = 2 * IZR (k1 + k2) * h) by (rewrite plus_IZR; lra).
    destruct (Hint2 (k1 + k2)%Z) as [Hz | Hz]; [split; nra | |];
      rewrite Hz in Hd; lra.
  - assert (Hd : r1 + r2 = 2 * IZR (k1 + k2) * h) by (rewrite plus_IZR; lra).
    destruct (Hint2 (k1 + k2)%Z) as [Hz | Hz]; [split; nra | |];
      rewrite Hz in Hd; lra.
  - assert (Hd : r1 - r2 = 2 * IZR (k1 - k2) * h) by (rewrite minus_IZR; lra).
    assert (Hz : (k1 - k2 = 0)%Z) by (apply Hint; split; nra).
    rewrite Hz in Hd. lra.
Qed.




(** *** The loop on binary64 floats *)



(** On the trajectory of the witness the two loops agree: the float loop
    mirrors [-416] to [416] in one pass. *)
Example binary64_mirror_one_bounce :
  Binary64.mirror 1 600 (Binary64.of_int (-416)) = Ok (Binary64.of_int 416).
Proof. vm_compute. reflexivity. Qed.

(** A projection of a million pixels is folded back in 834 passes, and in
    no fewer. *)
Example binary64_mirror_many_bounces :
  Binary64.mirror 834 600 (Binary64.of_int 1000000) = Ok (Binary64.of_int 400) /\
  Binary64.mirror 833 600 (Binary64.of_int 1000000) = OutOfFuel.
Proof. split; vm_compute; reflexivity. Qed.

(** The same trajectory, run: the projection 300 - 10 * 71.6 = -416 is
    mirrored to 416 in one pass of the loop. *)
Example mirror_one_bounce : AIPaddle.mirror 1 600 (-416) = Ok 416.
Proof.
  cbn [AIPaddle.mirror].
  rewrite (Rltb_true (-416) 0) by lra. cbn [orb].
  rewrite (Rltb_false 600 (- -416)), (Rltb_false (- -416) 0),
          (Rltb_false 600 (- -416)) by lra.
  cbn [orb]. f_equal. ring.
Qed.

(** ** Ball.update on an active ball *)

Lemma length_flip_y (v : Vector2.t) :
  Vector2.length (Vector2.set_y (Vector2.y v * -1) v) = Vector2.length v.
Proof.
  unfold Vector2.length, Vector2.set_y; cbn [Vector2.x Vector2.y].
  f_equal; ring.
Qed.

Lemma bounce_inv (paddle : Paddle.t) (b b' : Ball.t) :
  Ball.bounce_off_paddle paddle b = Ok b' ->
  Ball.speed b' = Rmin BALL_SPEED_MAX (Ball.speed b + BALL_SPEED_INCREMENT) /\
  Ball.serve_cooldown b' = Ball.serve_cooldown b /\
  Vector2.length (Ball.velocity b') = Rabs (Ball.speed b').
Proof.
  unfold Ball.bounce_off_paddle.
  destruct (Ball.hit_angle _ _) as [angle | e |]; cbn [bind]; try discriminate.
  set (new_dir := Vector2.rotate angle _).
  assert (Hlen : Vector2.length new_dir = 1).
  { unfold new_dir. rewrite length_rotate. apply length_unit_x.
    destruct (Rltb _ _); [now left | now right]. }
  rewrite (normalize_unit new_dir Hlen). cbn [bind].
  intros [= <-]. cbn [Ball.speed Ball.serve_cooldown Ball.velocity].
  repeat split. rewrite length_scale, Hlen. ring.
Qed.

(** What an update of an active ball can do to speed and velocity. *)
Lemma update_active_inv (dt_ms : R) (bounds : Bounds.t)
    (paddles : Paddle.t * Paddle.t) (b b' : Ball.t) (scored : option nat) :
  (Ball.serve_cooldown b <= 0)%Z ->
  Ball.update dt_ms bounds paddles b = Ok (b', scored) ->
  Ball.serve_cooldown b' = Ball.serve_cooldown b /\
  match scored with
  | Some side =>
      (side = 0%nat \/ side = 1%nat) /\
      Ball.speed b' = Rmin BALL_SPEED_MAX (Ball.speed b + BALL_SPEED_INCREMENT) /\
      Vector2.length (Ball.velocity b') = Vector2.length (Ball.velocity b)
  | None =>
      (Ball.speed b' = Ball.speed b /\
       Vector2.length (Ball.velocity b') = Vector2.length (Ball.velocity b)) \/
      (Ball.speed b' = Rmin BALL_SPEED_MAX (Ball.speed b + BALL_SPEED_INCREMENT) /\
       Vector2.length (Ball.velocity b') = Rabs (Ball.speed b'))
  end.
Proof.
  intros Hcd. unfold Ball.update.
  assert (Hgt : (Ball.serve_cooldown b >? 0)%Z = false) by (rewrite Z.gtb_ltb; apply Z.ltb_ge; lia).
  rewrite Hgt.
  set (r0 := Rect.set_y _ _).
  set (flipped := Vector2.set_y _ _).
  assert (Hflip : Vector2.length flipped = Vector2.length (Ball.velocity b))
    by apply length_flip_y.
  set (wall := if (Rect.top r0 <=? 0)%Z then _ else _).
  assert (Hwall : Vector2.length (snd wall) = Vector2.length (Ball.velocity b)).
  { unfold wall. destruct (Rect.top r0 <=? 0)%Z; [exact Hflip |].
    destruct (Rect.bottom r0 >=? Bounds.height bounds)%Z; [exact Hflip | reflexivity]. }
  destruct wall as [r v]; cbn [snd] in Hwall.
  destruct paddles as [left_paddle right_paddle].
  destruct (Rect.right r <? 0)%Z.
  { intros [= <- <-]. cbn [Ball.speed Ball.serve_cooldown Ball.velocity].
    repeat split; auto. }
  destruct (Rect.left r >? Bounds.width bounds)%Z.
  { intros [= <- <-]. cbn [Ball.speed Ball.serve_cooldown Ball.velocity].
    repeat split; auto. }
  set (b1 := Ball.mk r v (Ball.speed b) (Ball.serve_cooldown b)).
  assert (Hbounce : forall paddle,
    (b2 <- Ball.bounce_off_paddle paddle b1 ;; Ok (b2, @None nat)) = Ok (b', scored) ->
    Ball.serve_cooldown b' = Ball.serve_cooldown b /\
    match scored with
    | Some side =>
        (side = 0%nat \/ side = 1%nat) /\
        Ball.speed b' = Rmin BALL_SPEED_MAX (Ball.speed b + BALL_SPEED_INCREMENT) /\
        Vector2.length (Ball.velocity b') = Vector2.length (Ball.velocity b)
    | None =>
        (Ball.speed b' = Ball.speed b /\
         Vector2.length (Ball.velocity b') = Vector2.length (Ball.velocity b)) \/
        (Ball.speed b' = Rmin BALL_SPEED_MAX (Ball.speed b + BALL_SPEED_INCREMENT) /\
         Vector2.length (Ball.velocity b') = Rabs (Ball.speed b'))
    end).
  { intros paddle.
    destruct (Ball.bounce_off_paddle paddle b1) as [b2 | e |] eqn:Hb;
      cbn [bind]; try discriminate.
    intros [= <- <-]. destruct (bounce_inv paddle b1 b2 Hb) as (Hs & Hc & Hl).
    split; [exact Hc |]. right. split; assumption. }
  destruct (Rect.colliderect r (Paddle.rect left_paddle) && Rltb (Vector2.x v) 0)%bool;
    [apply Hbounce |].
  destruct (Rect.colliderect r (Paddle.rect right_paddle) && Rltb 0 (Vector2.x v))%bool;
    [apply Hbounce |].
  intros [= <- <-]. cbn [Ball.speed Ball.serve_cooldown Ball.velocity].
  split; [reflexivity |]. left; split; [reflexivity | exact Hwall].
Qed.

(** [Ball.update] returns whenever both paddles have a non-zero height. *)
Lemma ball_update_total (dt_ms : R) (bounds : Bounds.t)
    (left_paddle right_paddle : Paddle.t) (b : Ball.t) :
  Rect.height (Paddle.rect left_paddle) <> 0%Z ->
  Rect.height (Paddle.rect right_paddle) <> 0%Z ->
  exists b' scored,
    Ball.update dt_ms bounds (left_paddle, right_paddle) b = Ok (b', scored).
Proof.
  intros Hl Hr. unfold Ball.update.
  destruct (Ball.serve_cooldown b >? 0)%Z; [eauto |].
  set (r0 := Rect.set_y _ _).
  set (wall := if (Rect.top r0 <=? 0)%Z then _ else _).
  destruct wall as [r v].
  destruct (Rect.right r <? 0)%Z; [eauto |].
  destruct (Rect.left r >? Bounds.width bounds)%Z; [eauto |].
  set (b1 := Ball.mk r v (Ball.speed b) (Ball.serve_cooldown b)).
  destruct (Rect.colliderect r (Paddle.rect left_paddle) && Rltb (Vector2.x v) 0)%bool.
  { destruct (bounce_spec left_paddle b1 Hl) as (b2 & Hb & _).
    rewrite Hb. cbn [bind]. eauto. }
  destruct (Rect.colliderect r (Paddle.rect right_paddle) && Rltb 0 (Vector2.x v))%bool.
  { destruct (bounce_spec right_paddle b1 Hr) as (b2 & Hb & _).
    rewrite Hb. cbn [bind]. eauto. }
  eauto.
Qed.

(** An active ball that is already past the right boundary and still
    moving right is scored for the left side (result 0). *)
Lemma update_right_exit (dt_ms : R) (bounds : Bounds.t)
    (paddles : Paddle.t * Paddle.t) (b : Ball.t) :
  (Ball.serve_cooldown b <= 0)%Z ->
  (Bounds.width bounds < Rect.left (Ball.rect b))%Z ->
  (0 <= Bounds.width bounds)%Z ->
  (0 <= Rect.w (Ball.rect b))%Z ->
  0 < Vector2.x (Ball.velocity b) ->
  0 <= dt_ms ->
  exists b',
    Ball.update dt_ms bounds paddles b = Ok (b', Some 0%nat) /\
    Ball.speed b' = Rmin BALL_SPEED_MAX (Ball.speed b + BALL_SPEED_INCREMENT).
Proof.
  intros Hcd Hpast Hwidth Hw Hvx Hdt. unfold Ball.update.
  assert (Hgt : (Ball.serve_cooldown b >? 0)%Z = false)
    by (rewrite Z.gtb_ltb; apply Z.ltb_ge; lia).
  rewrite Hgt.
  set (dx := int _).
  assert (Hdx : (0 <= dx)%Z).
  { unfold dx. apply int_nonneg. unfold Vector2.scale; cbn [Vector2.x].
    apply Rmult_le_pos; [lra |]. unfold FPS.
    apply Rmult_le_pos; [exact Hdt |]. left. apply Rinv_0_lt_compat. lra. }
  set (r0 := Rect.set_y _ _).
  assert (Hx0 : Rect.x r0 = (Rect.x (Ball.rect b) + dx)%Z) by reflexivity.
  assert (Hw0 : Rect.w r0 = Rect.w (Ball.rect b)) by reflexivity.
  set (wall := if (Rect.top r0 <=? 0)%Z then _ else _).
  assert (Hwall : Rect.x (fst wall) = Rect.x r0 /\ Rect.w (fst wall) = Rect.w r0).
  { unfold wall. destruct (Rect.top r0 <=? 0)%Z; [split; reflexivity |].
    destruct (Rect.bottom r0 >=? Bounds.height bounds)%Z; split; reflexivity. }
  destruct wall as [r v]; cbn [fst] in Hwall. destruct Hwall as [Hx Hww].
  destruct paddles as [left_paddle right_paddle].
  unfold Rect.left in Hpast.
  assert (Hr : (Rect.right r <? 0)%Z = false)
    by (apply Z.ltb_ge; unfold Rect.right; lia).
  assert (Hl : (Rect.left r >? Bounds.width bounds)%Z = true)
    by (apply Z.gtb_lt; unfold Rect.left; lia).
  rewrite Hr, Hl. eexists; split; reflexivity.
Qed.

(** ** AIPaddle: the update returns *)

Lemma predict_target_total (self : AIPaddle.t) (ball_rect : Rect.t)
    (ball_vel : Vector2.t) (bounds : Bounds.t) :
  (0 < Bounds.height bounds)%Z ->
  exists fuel : nat,
    forall (fuel' : nat) (jitter : R),
      (fuel <= fuel')%nat ->
      exists target,
        AIPaddle.predict_target fuel' jitter self ball_rect ball_vel bounds
          = Ok target.
Proof.
  intros Hheight. unfold AIPaddle.predict_target, truediv.
  destruct (Rle_dec (Vector2.x ball_vel) 0) as [Haway | Htoward].
  { exists 0%nat; intros. rewrite (Rleb_true _ _ Haway). eauto. }
  rewrite (Rleb_false (Vector2.x ball_vel) 0) by lra.
  destruct (Req_dec_T (Vector2.x ball_vel) 0) as [Hz | _]; [lra |].
  cbn [bind].
  set (time_to_reach := _ / Vector2.x ball_vel).
  destruct (Rle_dec time_to_reach 0) as [Hpast | Hahead].
  { exists 0%nat; intros. rewrite (Rleb_true _ _ Hpast). eauto. }
  rewrite (Rleb_false time_to_reach 0) by lra.
  set (predicted_y := _ + _ * time_to_reach).
  assert (Hh : 0 < IZR (Bounds.height bounds)) by now apply IZR_lt.
  destruct (enough_fuel _ predicted_y Hh) as [fuel Hfuel].
  destruct (mirror_terminates _ Hh fuel predicted_y Hfuel) as (r & Hrun & _).
  exists fuel; intros fuel' jitter Hle.
  rewrite (mirror_fuel_monotone _ fuel predicted_y r fuel' Hrun Hle).
  cbn [bind]. eauto.
Qed.

Lemma paddle_update_keeps_size (dt : R) (bounds : Bounds.t) (p : Paddle.t) :
  Rect.height (Paddle.rect (Paddle.update dt bounds p)) = Rect.height (Paddle.rect p).
Proof.
  unfold Paddle.update, Paddle.set_rect; cbn [Paddle.rect].
  set (r1 := Rect.set_y _ _).
  destruct (Rect.top r1 <? 0)%Z;
    match goal with |- context [(?a >? ?b)%Z] => destruct (a >? b)%Z end;
    reflexivity.
Qed.

Lemma update_ai_inv (fuel : nat) (jitter dt : R) (ball_rect : Rect.t)
    (ball_vel : Vector2.t) (bounds : Bounds.t) (self rp : AIPaddle.t) :
  AIPaddle.update_ai fuel jitter dt ball_rect ball_vel bounds self = Ok rp ->
  Rect.height (Paddle.rect (AIPaddle.base rp))
    = Rect.height (Paddle.rect (AIPaddle.base self)) /\
  AIPaddle.error_margin rp = AIPaddle.error_margin self.
Proof.
  unfold AIPaddle.update_ai.
  match goal with |- context [bind ?m _] => destruct m as [[since target] | e |] end;
    cbn [bind]; try discriminate.
  intros [= <-]. cbn [AIPaddle.base AIPaddle.error_margin].
  split; [| reflexivity].
  now rewrite paddle_update_keeps_size.
Qed.

Lemma update_ai_total (ball_rect : Rect.t) (ball_vel : Vector2.t)
    (bounds : Bounds.t) (self : AIPaddle.t) :
  (0 < Bounds.height bounds)%Z ->
  exists fuel : nat,
    forall (fuel' : nat) (jitter dt : R),
      (fuel <= fuel')%nat ->
      exists rp,
        AIPaddle.update_ai fuel' jitter dt ball_rect ball_vel bounds self = Ok rp.
Proof.
  intros Hheight.
  destruct (predict_target_total self ball_rect ball_vel bounds Hheight)
    as [fuel Hfuel].
  exists fuel; intros fuel' jitter dt Hle. unfold AIPaddle.update_ai.
  destruct (Rleb (AIPaddle.reaction_delay self) (AIPaddle.time_since_react self + dt)).
  - destruct (Hfuel fuel' jitter Hle) as [target Htarget].
    rewrite Htarget. cbn [bind]. eauto.
  - cbn [bind]. eauto.
Qed.

(** ** Game steps *)

Lemma sped_up_bounds (s : R) :
  BALL_SPEED_START <= s <= BALL_SPEED_MAX ->
  s <= sped_up s /\ BALL_SPEED_START <= sped_up s <= BALL_SPEED_MAX.
Proof.
  unfold sped_up, BALL_SPEED_START, BALL_SPEED_MAX, BALL_SPEED_INCREMENT.
  intros [Hlo Hhi]. unfold Rmin. destruct (Rle_dec 12 (s + 0.25)); lra.
Qed.

(** What any update does to speed and velocity, serving or active. *)
Lemma update_inv (dt_ms : R) (bounds : Bounds.t)
    (paddles : Paddle.t * Paddle.t) (b b' : Ball.t) (scored : option nat) :
  Ball.update dt_ms bounds paddles b = Ok (b', scored) ->
  match scored with
  | Some side =>
      (side = 0%nat \/ side = 1%nat) /\
      (Ball.serve_cooldown b <= 0)%Z /\
      Ball.speed b' = sped_up (Ball.speed b) /\
      Vector2.length (Ball.velocity b') = Vector2.length (Ball.velocity b)
  | None =>
      (Ball.speed b' = Ball.speed b /\
       Vector2.length (Ball.velocity b') = Vector2.length (Ball.velocity b)) \/
      ((Ball.serve_cooldown b <= 0)%Z /\
       Ball.speed b' = sped_up (Ball.speed b) /\
       Vector2.length (Ball.velocity b') = Rabs (Ball.speed b'))
  end.
Proof.
  intros Hup.
  destruct (Z_le_gt_dec (Ball.serve_cooldown b) 0) as [Hactive | Hserving].
  - destruct (update_active_inv _ _ _ _ _ _ Hactive Hup) as [_ Hcases].
    unfold sped_up. destruct scored as [side |].
    + destruct Hcases as (Hside & Hs & Hl). repeat split; assumption.
    + destruct Hcases as [[Hs Hl] | [Hs Hl]]; [left | right]; repeat split; assumption.
  - unfold Ball.update in Hup.
    assert (Hgt : (Ball.serve_cooldown b >? 0)%Z = true) by (apply Z.gtb_lt; lia).
    rewrite Hgt in Hup. injection Hup as <- <-.
    left; split; reflexivity.
Qed.

Lemma game_update_inv (fuel : nat) (k : Game.keys) (jitter : R)
    (d : Ball.serve_draw) (dt_ms : R) (g g' : Game.t) :
  Game.update fuel k jitter d dt_ms g = Ok g' ->
  (Game.winner g <> None /\ g' = g) \/
  (Game.winner g = None /\
   exists rp b1 scored,
     let lp := Paddle.update (Game.dt_px dt_ms) (Game.bounds g)
                 (Game.handle_input k (Game.left_paddle g)) in
     AIPaddle.update_ai fuel jitter (Game.dt_px dt_ms) (Ball.rect (Game.ball g))
       (Ball.velocity (Game.ball g)) (Game.bounds g) (Game.right_paddle g) = Ok rp /\
     Ball.update dt_ms (Game.bounds g) (lp, AIPaddle.base rp) (Game.ball g)
       = Ok (b1, scored) /\
     Game.bounds g' = Game.bounds g /\
     Game.left_paddle g' = lp /\
     Game.right_paddle g' = rp /\
     match scored with
     | None =>
         Game.ball g' = b1 /\ Game.score g' = Game.score g /\
         Game.winner g' = None
     | Some side =>
         Ball.reset (Bounds.center (Game.bounds g)) (Some (Nat.eqb side 1)) d b1
           = Ok (Game.ball g') /\
         Game.score g' = Game.add_point side (Game.score g)
     end).
Proof.
  unfold Game.update. destruct (Game.winner g) as [w |] eqn:Hw.
  { intros [= <-]. left; split; [discriminate | reflexivity]. }
  intros Hup. right; split; [reflexivity |].
  destruct (AIPaddle.update_ai _ _ _ _ _ _ _) as [rp | e |] eqn:Hai;
    cbn [bind] in Hup; try discriminate.
  destruct (Ball.update _ _ _ _) as [[b1 scored] | e |] eqn:Hball;
    cbn [bind] in Hup; try discriminate.
  exists rp, b1, scored. cbv zeta. split; [reflexivity |]. split; [exact Hball |].
  destruct scored as [side |].
  - destruct (Ball.reset _ _ _ _) as [b2 | e |] eqn:Hreset;
      cbn [bind] in Hup; try discriminate.
    injection Hup as <-.
    cbn [Game.bounds Game.left_paddle Game.right_paddle Game.ball Game.score].
    repeat split.
  - injection Hup as <-.
    cbn [Game.bounds Game.left_paddle Game.right_paddle Game.ball Game.score Game.winner].
    repeat split.
Qed.

Lemma handle_input_keeps_rect (k : Game.keys) (p : Paddle.t) :
  Paddle.rect (Game.handle_input k p) = Paddle.rect p.
Proof. reflexivity. Qed.

(** A frame update keeps the invariant and never lowers the speed. *)
Lemma game_update_invariant (fuel : nat) (k : Game.keys) (jitter : R)
    (d : Ball.serve_draw) (dt_ms : R) (g g' : Game.t) :
  game_invariant g ->
  Game.update fuel k jitter d dt_ms g = Ok g' ->
  game_invariant g' /\
  (Ball.speed (Game.ball g') = Ball.speed (Game.ball g) \/
   Ball.speed (Game.ball g') = sped_up (Ball.speed (Game.ball g))) /\
  (Game.score g' <> Game.score g ->
   Ball.speed (Game.ball g') = sped_up (Ball.speed (Game.ball g))).
Proof.
  intros Hginv Hup. pose proof Hginv as (Hb & Hlh & Hrh & Hspeed & Hlen).
  destruct (sped_up_bounds _ Hspeed) as [Hmono Hbounds].
  destruct (game_update_inv _ _ _ _ _ _ _ Hup)
    as [[_ ->] | (Hw & rp & b1 & scored & Hai & Hball & Hb' & Hlp & Hrp & Hrest)].
  { split; [exact Hginv |]. split; [now left | intros Hne; now elim Hne]. }
  cbv zeta in *. unfold game_invariant.
  destruct (update_ai_inv _ _ _ _ _ _ _ _ Hai) as [Hrh' _].
  assert (Hgeom : Game.bounds g' = Bounds.mk WIDTH HEIGHT /\
                  Rect.height (Paddle.rect (Game.left_paddle g')) = PADDLE_HEIGHT /\
                  Rect.height (Paddle.rect (AIPaddle.base (Game.right_paddle g')))
                    = PADDLE_HEIGHT).
  { rewrite Hb', Hlp, Hrp, paddle_update_keeps_size, handle_input_keeps_rect, Hrh'.
    repeat split; assumption. }
  destruct Hgeom as (G1 & G2 & G3).
  pose proof (update_inv _ _ _ _ _ _ Hball) as Hinv.
  destruct scored as [side |].
  - destruct Hinv as (_ & _ & Hs1 & _). destruct Hrest as [Hreset Hscore].
    destruct (reset_spec (Bounds.center (Game.bounds g)) (Some (Nat.eqb side 1)) d b1)
      as (b2 & Hreset' & _ & Hs2 & _ & _ & _ & Hl2).
    rewrite Hreset in Hreset'. injection Hreset' as <-.
    assert (Hs : Ball.speed (Game.ball g') = sped_up (Ball.speed (Game.ball g)))
      by congruence.
    split; [| split; [now right | intros _; exact Hs]].
    repeat split; try assumption; try (rewrite Hs; lra).
    rewrite Hl2, Hs2, Hs1. apply Rabs_pos_eq.
    unfold BALL_SPEED_START in *; lra.
  - destruct Hrest as (-> & Hscore & _).
    destruct Hinv as [[Hs Hl] | (_ & Hs & Hl)].
    + split; [| split; [now left | intros Hne; now elim Hne]].
      repeat split; try assumption; try (rewrite Hs; lra).
    + split; [| split; [now right | intros _; exact Hs]].
      repeat split; try assumption; try (rewrite Hs; lra).
      rewrite Hl, Hs. apply Rabs_pos_eq. unfold BALL_SPEED_START in *; lra.
Qed.

Lemma game_init_invariant (d : Ball.serve_draw) (g : Game.t) :
  Game.init d = Ok g -> game_invariant g.
Proof.
  unfold Game.init.
  set (b0 := Ball.init _ _ _ _).
  destruct (reset_spec (Bounds.center (Bounds.mk WIDTH HEIGHT)) None d b0)
    as (b' & Hreset & _ & Hs & _ & _ & _ & Hl).
  rewrite Hreset. cbn [bind]. intros [= <-].
  unfold game_invariant.
  cbn [Game.bounds Game.left_paddle Game.right_paddle Game.ball].
  rewrite Hl, Hs. unfold b0, Ball.init; cbn [Ball.speed].
  unfold BALL_SPEED_START, BALL_SPEED_MAX.
  repeat split; try lra. apply Rabs_pos_eq; lra.
Qed.

Lemma game_restart_invariant (d : Ball.serve_draw) (g g' : Game.t) :
  game_invariant g ->
  Game.restart d g = Ok g' ->
  game_invariant g' /\
  Ball.speed (Game.ball g') = BALL_SPEED_START /\
  Game.score g' = [0%Z; 0%Z] /\
  Game.winner g' = None.
Proof.
  intros (Hb & Hlh & Hrh & _ & _). unfold Game.restart.
  set (b0 := Ball.mk _ _ _ _).
  destruct (reset_spec (Bounds.center (Game.bounds g)) None d b0)
    as (b' & Hreset & _ & Hs & _ & _ & _ & Hl).
  rewrite Hreset. cbn [bind]. intros [= <-].
  unfold game_invariant.
  cbn [Game.bounds Game.left_paddle Game.right_paddle Game.ball Game.score Game.winner].
  rewrite Hl, Hs. unfold b0; cbn [Ball.speed].
  unfold BALL_SPEED_START, BALL_SPEED_MAX.
  repeat split; try assumption; try lra. apply Rabs_pos_eq; lra.
Qed.

Lemma reachable_invariant (g : Game.t) : Game.reachable g -> game_invariant g.
Proof.
  induction 1 as [d g _ Hinit | l g g' _ IH Hstep].
  - exact (game_init_invariant d g Hinit).
  - destruct Hstep as [fuel k jitter d dt_ms g g' _ _ _ Hup | d g g' _ _ Hre].
    + exact (proj1 (game_update_invariant _ _ _ _ _ _ _ IH Hup)).
    + exact (proj1 (game_restart_invariant _ _ _ IH Hre)).
Qed.

(** From a state that satisfies the invariant a frame update returns,
    whatever the inputs and draws, once the fuel covers the mirroring
    loop. *)
Lemma game_update_total (g : Game.t) :
  game_invariant g ->
  exists fuel : nat,
    forall (fuel' : nat) (k : Game.keys) (jitter : R) (d : Ball.serve_draw)
           (dt_ms : R),
      (fuel <= fuel')%nat ->
      exists g', Game.update fuel' k jitter d dt_ms g = Ok g'.
Proof.
  intros (Hb & Hlh & Hrh & _ & _).
  assert (Hheight : (0 < Bounds.height (Game.bounds g))%Z) by (rewrite Hb; reflexivity).
  destruct (update_ai_total (Ball.rect (Game.ball g)) (Ball.velocity (Game.ball g))
              (Game.bounds g) (Game.right_paddle g) Hheight) as [fuel Hfuel].
  exists fuel; intros fuel' k jitter d dt_ms Hle.
  unfold Game.update. destruct (Game.winner g); [eauto |].
  destruct (Hfuel fuel' jitter (Game.dt_px dt_ms) Hle) as [rp Hai].
  rewrite Hai. cbn [bind].
  destruct (update_ai_inv _ _ _ _ _ _ _ _ Hai) as [Hrh' _].
  set (lp := Paddle.update _ _ _).
  assert (Hl : Rect.height (Paddle.rect lp) <> 0%Z).
  { unfold lp. rewrite paddle_update_keeps_size, handle_input_keeps_rect, Hlh.
    discriminate. }
  assert (Hr : Rect.height (Paddle.rect (AIPaddle.base rp)) <> 0%Z).
  { rewrite Hrh', Hrh. discriminate. }
  destruct (ball_update_total dt_ms (Game.bounds g) lp (AIPaddle.base rp)
              (Game.ball g) Hl Hr) as (b1 & scored & Hball).
  rewrite Hball. cbn [bind].
  destruct scored as [side |]; [| eauto].
  destruct (reset_spec (Bounds.center (Game.bounds g)) (Some (Nat.eqb side 1)) d b1)
    as (b2 & Hreset & _).
  rewrite Hreset. cbn [bind]. eauto.
Qed.

Lemma sped_up_pos (s : R) : 0 < s -> 0 < sped_up s.
Proof.
  intros Hs. unfold sped_up, BALL_SPEED_MAX, BALL_SPEED_INCREMENT.
  apply Rmin_glb_lt; lra.
Qed.

(** The frame in which an active ball is found past the right boundary:
    the left side gets the point and the ball is served to the right. *)
Lemma game_right_exit (k : Game.keys) (jitter : R) (d : Ball.serve_draw)
    (dt_ms : R) (g : Game.t) :
  Game.winner g = None ->
  (Ball.serve_cooldown (Game.ball g) <= 0)%Z ->
  (Bounds.width (Game.bounds g) < Rect.left (Ball.rect (Game.ball g)))%Z ->
  (0 <= Bounds.width (Game.bounds g))%Z ->
  (0 < Bounds.height (Game.bounds g))%Z ->
  (0 <= Rect.w (Ball.rect (Game.ball g)))%Z ->
  0 < Vector2.x (Ball.velocity (Game.ball g)) ->
  0 < Ball.speed (Game.ball g) ->
  0 <= dt_ms ->
  Ball.valid_draw d ->
  exists fuel : nat,
    forall fuel' : nat,
      (fuel <= fuel')%nat ->
      exists g',
        Game.update fuel' k jitter d dt_ms g = Ok g' /\
        Game.score g' = Game.add_point 0 (Game.score g) /\
        Ball.serve_cooldown (Game.ball g') = COUNTDOWN_TIME /\
        Ball.speed (Game.ball g') = sped_up (Ball.speed (Game.ball g)) /\
        0 < Vector2.x (Ball.velocity (Game.ball g')).
Proof.
  intros Hw Hcd Hpast Hwidth Hheight Hbw Hvx Hspeed Hdt Hd.
  destruct (update_ai_total (Ball.rect (Game.ball g)) (Ball.velocity (Game.ball g))
              (Game.bounds g) (Game.right_paddle g) Hheight) as [fuel Hfuel].
  exists fuel; intros fuel' Hle.
  destruct (Hfuel fuel' jitter (Game.dt_px dt_ms) Hle) as [rp Hai].
  set (lp := Paddle.update (Game.dt_px dt_ms) (Game.bounds g)
               (Game.handle_input k (Game.left_paddle g))).
  destruct (update_right_exit dt_ms (Game.bounds g) (lp, AIPaddle.base rp)
              (Game.ball g) Hcd Hpast Hwidth Hbw Hvx Hdt) as (b1 & Hball & Hs1).
  destruct (reset_spec (Bounds.center (Game.bounds g)) (Some (Nat.eqb 0 1)) d b1)
    as (b2 & Hreset & _ & Hs2 & Hcd2 & Hvx2 & _).
  exists (Game.mk (Game.bounds g) lp rp b2 (Game.add_point 0 (Game.score g))
            (if (nth 0 (Game.add_point 0 (Game.score g)) 0%Z >=? SCORE_TO_WIN)%Z
             then Some 0%nat else Game.winner g)).
  cbn [Game.score Game.ball].
  split; [| repeat split; try assumption].
  - unfold Game.update. rewrite Hw. fold lp. rewrite Hai. cbn [bind].
    rewrite Hball. cbn [bind]. rewrite Hreset. cbn [bind]. reflexivity.
  - rewrite Hs2, Hs1. reflexivity.
  - rewrite Hvx2. cbn [Nat.eqb].
    apply Rmult_lt_0_compat.
    + apply Rabs_pos_lt, cos_chosen_angle_nonzero, Hd.
    + rewrite Hs1. apply sped_up_pos, Hspeed.
Qed.

(** ** The concrete states *)

Lemma first_draw_valid : Ball.valid_draw first_draw.
Proof. unfold Ball.valid_draw, first_draw; cbn; lra. Qed.

Lemma first_game_init : Game.init first_draw = Ok first_game.
Proof.
  unfold Game.init, Ball.reset.
  set (dir := Vector2.rotate (Ball.chosen_angle first_draw) (Vector2.mk 1 0)).
  assert (Hdir : dir = Vector2.mk 1 0).
  { unfold dir, Vector2.rotate, Ball.chosen_angle, first_draw.
    cbn [Ball.pick_second Ball.first_angle Vector2.x Vector2.y].
    rewrite radians_0, cos_0, sin_0. f_equal; ring. }
  rewrite Hdir.
  rewrite (normalize_unit (Vector2.mk 1 0)) by (apply length_unit_x; now left).
  cbn [bind].
  assert (Hcx : int (Vector2.x (Bounds.center (Bounds.mk WIDTH HEIGHT))) = 400%Z).
  { cbn [Bounds.center Vector2.x Bounds.width]. unfold WIDTH.
    replace (800 / 2) with (IZR 400) by lra. apply int_IZR. }
  assert (Hcy : int (Vector2.y (Bounds.center (Bounds.mk WIDTH HEIGHT))) = 300%Z).
  { cbn [Bounds.center Vector2.y Bounds.height]. unfold HEIGHT.
    replace (600 / 2) with (IZR 300) by lra. apply int_IZR. }
  rewrite Hcx, Hcy.
  unfold first_game. f_equal. f_equal.
  unfold Ball.init, BALL_SPEED_START, Vector2.scale;
    cbn [Ball.rect Ball.speed Vector2.x Vector2.y].
  f_equal. f_equal; ring.
Qed.

Lemma first_game_reachable : Game.reachable first_game.
Proof.
  exact (Game.reachable_init first_draw first_game first_draw_valid first_game_init).
Qed.

(** ** C3: the velocity has the speed as its length *)

(** C3.  In every state the game reaches, hence at every Active tick, the
    length of the ball velocity equals the ball speed (exactly, in real
    arithmetic).  A reset of that ball establishes the equality again, and
    an update that does not score (a move, a wall reflection or a paddle
    bounce) keeps it. *)
Theorem velocity_length_is_speed (g : Game.t) :
  Game.reachable g ->
  Vector2.length (Ball.velocity (Game.ball g)) = Ball.speed (Game.ball g) /\
  (forall center to_left d b',
     Ball.reset center to_left d (Game.ball g) = Ok b' ->
     Vector2.length (Ball.velocity b') = Ball.speed b') /\
  (forall dt_ms bounds paddles b',
     Ball.update dt_ms bounds paddles (Game.ball g) = Ok (b', None) ->
     Vector2.length (Ball.velocity b') = Ball.speed b').
Proof.
  intros Hreach.
  destruct (reachable_invariant g Hreach) as (_ & _ & _ & Hspeed & Hlen).
  destruct (sped_up_bounds _ Hspeed) as [_ Hbounds].
  unfold BALL_SPEED_START in *.
  split; [exact Hlen |]. split.
  - intros center to_left d b' Hreset.
    destruct (reset_spec center to_left d (Game.ball g))
      as (b2 & Hreset' & _ & Hs & _ & _ & _ & Hl).
    rewrite Hreset in Hreset'. injection Hreset' as <-.
    rewrite Hl, Hs. apply Rabs_pos_eq; lra.
  - intros dt_ms bounds paddles b' Hup.
    destruct (update_inv _ _ _ _ _ _ Hup) as [[Hs Hl] | (_ & Hs & Hl)].
    + congruence.
    + rewrite Hl, Hs. apply Rabs_pos_eq; lra.
Qed.

(** ** C4: the speed within and across rallies *)

(** An active update is the move and wall check of [moved_ball], followed
    by the scoring check and the paddle checks. *)
Lemma update_after_move (dt_ms : R) (bounds : Bounds.t)
    (left_paddle right_paddle : Paddle.t) (b : Ball.t)
    (r : Rect.t) (v : Vector2.t) :
  (Ball.serve_cooldown b <= 0)%Z ->
  moved_ball dt_ms bounds b = (r, v) ->
  Ball.update dt_ms bounds (left_paddle, right_paddle) b =
    if (Rect.right r <? 0)%Z then
      Ok (Ball.mk r v (sped_up (Ball.speed b)) (Ball.serve_cooldown b), Some 1%nat)
    else if (Rect.left r >? Bounds.width bounds)%Z then
      Ok (Ball.mk r v (sped_up (Ball.speed b)) (Ball.serve_cooldown b), Some 0%nat)
    else
      let b1 := Ball.mk r v (Ball.speed b) (Ball.serve_cooldown b) in
      if (Rect.colliderect r (Paddle.rect left_paddle)
          && Rltb (Vector2.x v) 0)%bool then
        b2 <- Ball.bounce_off_paddle left_paddle b1 ;; Ok (b2, None)
      else if (Rect.colliderect r (Paddle.rect right_paddle)
               && Rltb 0 (Vector2.x v))%bool then
        b2 <- Ball.bounce_off_paddle right_paddle b1 ;; Ok (b2, None)
      else Ok (b1, None).
Proof.
  intros Hcd Hmoved. unfold Ball.update.
  assert (Hgt : (Ball.serve_cooldown b >? 0)%Z = false)
    by (rewrite Z.gtb_ltb; apply Z.ltb_ge; lia).
  rewrite Hgt. unfold moved_ball in Hmoved. cbv zeta in *. unfold sped_up.
  destruct (Rect.top _ <=? 0)%Z; [| destruct (Rect.bottom _ >=? _)%Z];
    injection Hmoved as <- <-;
    (destruct (Rect.right _ <? 0)%Z; [reflexivity |]);
    (destruct (Rect.left _ >? _)%Z; reflexivity).
Qed.

(** A ball that the move carries past the left or the right boundary
    scores, and the returned ball has the raised speed. *)
Lemma update_scores_after_move (dt_ms : R) (bounds : Bounds.t)
    (paddles : Paddle.t * Paddle.t) (b : Ball.t) :
  (Ball.serve_cooldown b <= 0)%Z ->
  let r := fst (moved_ball dt_ms bounds b) in
  let v := snd (moved_ball dt_ms bounds b) in
  (Rect.right r < 0 \/ Bounds.width bounds < Rect.left r)%Z ->
  Ball.update dt_ms bounds paddles b =
    Ok (Ball.mk r v (sped_up (Ball.speed b)) (Ball.serve_cooldown b),
        Some (if (Rect.right r <? 0)%Z then 1%nat else 0%nat)).
Proof.
  intros Hcd r v Hout. destruct paddles as [left_paddle right_paddle].
  rewrite (update_after_move dt_ms bounds left_paddle right_paddle b r v Hcd)
    by (unfold r, v; now destruct (moved_ball dt_ms bounds b)).
  destruct (Rect.right r <? 0)%Z eqn:Hr; [reflexivity |].
  apply Z.ltb_ge in Hr.
  assert (Hl : (Rect.left r >? Bounds.width bounds)%Z = true)
    by (apply Z.gtb_lt; lia).
  rewrite Hl. reflexivity.
Qed.

(** A ball that the move leaves inside the field, overlapping a paddle
    that it moves toward, bounces off that paddle: the update returns
    without a score and with the raised speed. *)
Lemma update_hits_after_move (dt_ms : R) (bounds : Bounds.t)
    (paddles : Paddle.t * Paddle.t) (b : Ball.t) :
  (Ball.serve_cooldown b <= 0)%Z ->
  let r := fst (moved_ball dt_ms bounds b) in
  let v := snd (moved_ball dt_ms bounds b) in
  let b1 := Ball.mk r v (Ball.speed b) (Ball.serve_cooldown b) in
  (0 <= Rect.right r)%Z ->
  (Rect.left r <= Bounds.width bounds)%Z ->
  (Rect.colliderect r (Paddle.rect (fst paddles)) = true /\
   Vector2.x v < 0 ->
   Ball.update dt_ms bounds paddles b =
     (b2 <- Ball.bounce_off_paddle (fst paddles) b1 ;; Ok (b2, None))) /\
  (Rect.colliderect r (Paddle.rect (snd paddles)) = true /\
   0 < Vector2.x v ->
   Ball.update dt_ms bounds paddles b =
     (b2 <- Ball.bounce_off_paddle (snd paddles) b1 ;; Ok (b2, None))).
Proof.
  intros Hcd r v b1 Hright Hleft. destruct paddles as [left_paddle right_paddle].
  cbn [fst snd].
  rewrite (update_after_move dt_ms bounds left_paddle right_paddle b r v Hcd)
    by (unfold r, v; now destruct (moved_ball dt_ms bounds b)).
  assert (Hr : (Rect.right r <? 0)%Z = false) by (apply Z.ltb_ge; lia).
  assert (Hl : (Rect.left r >? Bounds.width bounds)%Z = false)
    by (rewrite Z.gtb_ltb; apply Z.ltb_ge; lia).
  rewrite Hr, Hl. cbv zeta. fold b1. split.
  - intros [Hhit Hvx]. rewrite Hhit, (Rltb_true _ _ Hvx). reflexivity.
  - intros [Hhit Hvx].
    rewrite (Rltb_false (Vector2.x v) 0) by lra.
    rewrite Bool.andb_false_r, Hhit, (Rltb_true _ _ Hvx). reflexivity.
Qed.

(** The frame in which the move carries the active ball out of the field:
    the side opposite to the exit gets the point and the re-served ball
    has the raised speed. *)
Lemma game_scores_after_move (g : Game.t) (dt_ms : R) :
  game_invariant g ->
  Game.winner g = None ->
  (Ball.serve_cooldown (Game.ball g) <= 0)%Z ->
  let r := fst (moved_ball dt_ms (Game.bounds g) (Game.ball g)) in
  (Rect.right r < 0 \/ Bounds.width (Game.bounds g) < Rect.left r)%Z ->
  exists fuel0 : nat,
    forall (fuel : nat) (k : Game.keys) (jitter : R) (d : Ball.serve_draw),
      (fuel0 <= fuel)%nat ->
      exists g',
        Game.update fuel k jitter d dt_ms g = Ok g' /\
        Game.score g' =
          Game.add_point (if (Rect.right r <? 0)%Z then 1%nat else 0%nat)
                         (Game.score g) /\
        Ball.speed (Game.ball g') = sped_up (Ball.speed (Game.ball g)) /\
        Ball.serve_cooldown (Game.ball g') = COUNTDOWN_TIME.
Proof.
  intros Hinv Hw Hcd r Hout.
  destruct (game_update_total g Hinv) as [fuel0 Htotal].
  exists fuel0. intros fuel k jitter d Hle.
  destruct (Htotal fuel k jitter d dt_ms Hle) as [g' Hup].
  exists g'. split; [exact Hup |].
  destruct (game_update_inv _ _ _ _ _ _ _ Hup)
    as [[Hw' _] | (_ & rp & b1 & scored & _ & Hball & _ & _ & _ & Hrest)];
    [now elim Hw' |].
  cbv zeta in Hball.
  rewrite (update_scores_after_move dt_ms (Game.bounds g) _ (Game.ball g) Hcd Hout)
    in Hball.
  fold r in Hball. injection Hball as <- <-.
  destruct Hrest as [Hreset Hscore].
  split; [exact Hscore |].
  match type of Hreset with
  | Ball.reset ?c ?t ?d ?b = _ =>
      destruct (reset_spec c t d b) as (b2 & Hreset' & _ & Hs & Hcd2 & _)
  end.
  rewrite Hreset in Hreset'. injection Hreset' as <-.
  split; [exact Hs | exact Hcd2].
Qed.

(** C4.  In every step of a reachable game the ball speed stays between
    the start speed and [BALL_SPEED_MAX].  A frame update never lowers it:
    the speed is kept or becomes [min(BALL_SPEED_MAX, speed + increment)],
    the latter whenever the score changed; only a restart brings it back
    to the start speed.  Every paddle bounce and every scoring update
    raise the speed in that capped way, and these events do happen: an
    active ball that its move carries past the left or right boundary
    makes the update return a scoring side and the raised speed, in the
    game the frame then changes the score and re-serves with the raised
    speed; an active ball that its move leaves inside the field,
    overlapping a paddle of non-zero height that it moves toward, makes
    the update return without a score and with the raised speed. *)
Theorem ball_speed_monotone_and_capped (l : Game.label) (g g' : Game.t) :
  Game.reachable g ->
  Game.step l g g' ->
  BALL_SPEED_START <= Ball.speed (Game.ball g') <= BALL_SPEED_MAX /\
  match l with
  | Game.Tick =>
      Ball.speed (Game.ball g) <= Ball.speed (Game.ball g') /\
      (Ball.speed (Game.ball g') = Ball.speed (Game.ball g) \/
       Ball.speed (Game.ball g') =
         Rmin BALL_SPEED_MAX (Ball.speed (Game.ball g) + BALL_SPEED_INCREMENT)) /\
      (Game.score g' <> Game.score g ->
       Ball.speed (Game.ball g') =
         Rmin BALL_SPEED_MAX (Ball.speed (Game.ball g) + BALL_SPEED_INCREMENT))
  | Game.Restart => Ball.speed (Game.ball g') = BALL_SPEED_START
  end /\
  (forall paddle b b',
     Ball.bounce_off_paddle paddle b = Ok b' ->
     Ball.speed b' = Rmin BALL_SPEED_MAX (Ball.speed b + BALL_SPEED_INCREMENT)) /\
  (forall dt_ms bounds paddles b b' side,
     Ball.update dt_ms bounds paddles b = Ok (b', Some side) ->
     Ball.speed b' = Rmin BALL_SPEED_MAX (Ball.speed b + BALL_SPEED_INCREMENT)) /\
  (forall dt_ms bounds paddles b,
     (Ball.serve_cooldown b <= 0)%Z ->
     (Rect.right (fst (moved_ball dt_ms bounds b)) < 0 \/
      Bounds.width bounds < Rect.left (fst (moved_ball dt_ms bounds b)))%Z ->
     exists b' side,
       Ball.update dt_ms bounds paddles b = Ok (b', Some side) /\
       Ball.speed b' = Rmin BALL_SPEED_MAX (Ball.speed b + BALL_SPEED_INCREMENT)) /\
  (forall dt_ms bounds paddles b,
     (Ball.serve_cooldown b <= 0)%Z ->
     (0 <= Rect.right (fst (moved_ball dt_ms bounds b)))%Z ->
     (Rect.left (fst (moved_ball dt_ms bounds b)) <= Bounds.width bounds)%Z ->
     (Rect.colliderect (fst (moved_ball dt_ms bounds b))
        (Paddle.rect (fst paddles)) = true /\
      Vector2.x (snd (moved_ball dt_ms bounds b)) < 0 /\
      Rect.height (Paddle.rect (fst paddles)) <> 0%Z) \/
     (Rect.colliderect (fst (moved_ball dt_ms bounds b))
        (Paddle.rect (snd paddles)) = true /\
      0 < Vector2.x (snd (moved_ball dt_ms bounds b)) /\
      Rect.height (Paddle.rect (snd paddles)) <> 0%Z) ->
     exists b',
       Ball.update dt_ms bounds paddles b = Ok (b', None) /\
       Ball.speed b' = Rmin BALL_SPEED_MAX (Ball.speed b + BALL_SPEED_INCREMENT)) /\
  (forall dt_ms,
     Game.winner g = None ->
     (Ball.serve_cooldown (Game.ball g) <= 0)%Z ->
     (Rect.right (fst (moved_ball dt_ms (Game.bounds g) (Game.ball g))) < 0 \/
      Bounds.width (Game.bounds g)
        < Rect.left (fst (moved_ball dt_ms (Game.bounds g) (Game.ball g))))%Z ->
     exists fuel0 : nat,
       forall (fuel : nat) (k : Game.keys) (jitter : R) (d : Ball.serve_draw),
         (fuel0 <= fuel)%nat ->
         exists g1,
           Game.update fuel k jitter d dt_ms g = Ok g1 /\
           Game.score g1 =
             Game.add_point
               (if (Rect.right (fst (moved_ball dt_ms (Game.bounds g) (Game.ball g)))
                    <? 0)%Z then 1%nat else 0%nat)
               (Game.score g) /\
           Ball.speed (Game.ball g1) =
             Rmin BALL_SPEED_MAX (Ball.speed (Game.ball g) + BALL_SPEED_INCREMENT)).
Proof.
  intros Hreach Hstep.
  pose proof (reachable_invariant g Hreach) as Hinv.
  pose proof Hinv as (_ & _ & _ & Hspeed & _).
  destruct (sped_up_bounds _ Hspeed) as [Hmono Hbounds].
  split; [| split; [| split; [| split; [| split; [| split]]]]].
  - destruct (reachable_invariant g' (Game.reachable_step l g g' Hreach Hstep))
      as (_ & _ & _ & Hspeed' & _). exact Hspeed'.
  - destruct Hstep as [fuel k jitter d dt_ms g g' _ _ _ Hup | d g g' _ _ Hre].
    + destruct (game_update_invariant _ _ _ _ _ _ _ Hinv Hup) as (_ & Hcases & Hscore).
      fold (sped_up (Ball.speed (Game.ball g))).
      split; [| split; assumption].
      destruct Hcases as [-> | ->]; lra.
    + exact (proj1 (proj2 (game_restart_invariant _ _ _ Hinv Hre))).
  - intros paddle b b' Hb. exact (proj1 (bounce_inv paddle b b' Hb)).
  - intros dt_ms bounds paddles b b' side Hup.
    pose proof (update_inv _ _ _ _ _ _ Hup) as (_ & _ & Hs & _). exact Hs.
  - intros dt_ms bounds paddles b Hcd Hout.
    rewrite (update_scores_after_move dt_ms bounds paddles b Hcd Hout).
    eexists; eexists; split; reflexivity.
  - intros dt_ms bounds paddles b Hcd Hright Hleft Hhit.
    destruct (update_hits_after_move dt_ms bounds paddles b Hcd Hright Hleft)
      as [Hl Hr].
    destruct Hhit as [(Hhit & Hvx & Hph) | (Hhit & Hvx & Hph)].
    + rewrite (Hl (conj Hhit Hvx)).
      destruct (bounce_spec (fst paddles)
                  (Ball.mk (fst (moved_ball dt_ms bounds b))
                     (snd (moved_ball dt_ms bounds b))
                     (Ball.speed b) (Ball.serve_cooldown b)) Hph)
        as (b' & Hb & Hs & _).
      rewrite Hb. cbn [bind]. exists b'. split; [reflexivity | exact Hs].
    + rewrite (Hr (conj Hhit Hvx)).
      destruct (bounce_spec (snd paddles)
                  (Ball.mk (fst (moved_ball dt_ms bounds b))
                     (snd (moved_ball dt_ms bounds b))
                     (Ball.speed b) (Ball.serve_cooldown b)) Hph)
        as (b' & Hb & Hs & _).
      rewrite Hb. cbn [bind]. exists b'. split; [reflexivity | exact Hs].
  - intros dt_ms Hw Hcd Hout.
    destruct (game_scores_after_move g dt_ms Hinv Hw Hcd Hout) as [fuel0 Hall].
    exists fuel0. intros fuel k jitter d Hle.
    destruct (Hall fuel k jitter d Hle) as (g1 & Hup & Hscore & Hs & _).
    exists g1. repeat split; assumption.
Qed.

(** A frame update of a reachable game always returns. *)
Lemma reachable_game_update_total (g : Game.t) :
  Game.reachable g ->
  exists fuel : nat,
    forall (fuel' : nat) (k : Game.keys) (jitter : R) (d : Ball.serve_draw)
           (dt_ms : R),
      (fuel <= fuel')%nat ->
      exists g', Game.update fuel' k jitter d dt_ms g = Ok g'.
Proof. intros Hreach. apply game_update_total, reachable_invariant, Hreach. Qed.

(** ** C5: scoring on the right and the next serve *)

(** C5, as the code has it.  When an active ball is past the right
    boundary (for instance at [x = bounds.width + 1]) and moving right,
    [Ball.update] returns 0, the left side scoring, whatever the paddles;
    the frame update of the game then adds the point to the left score and
    re-serves with [to_left = False]: the countdown is re-armed and the new
    velocity has [x > 0], toward the right side that conceded. *)
Theorem right_exit_scores_left_and_serves_right
    (k : Game.keys) (jitter : R) (d : Ball.serve_draw) (dt_ms : R) (g : Game.t) :
  Game.winner g = None ->
  (Ball.serve_cooldown (Game.ball g) <= 0)%Z ->
  (Bounds.width (Game.bounds g) < Rect.left (Ball.rect (Game.ball g)))%Z ->
  (0 <= Bounds.width (Game.bounds g))%Z ->
  (0 < Bounds.height (Game.bounds g))%Z ->
  (0 <= Rect.w (Ball.rect (Game.ball g)))%Z ->
  0 < Vector2.x (Ball.velocity (Game.ball g)) ->
  0 < Ball.speed (Game.ball g) ->
  0 <= dt_ms ->
  Ball.valid_draw d ->
  (forall paddles, exists b1,
     Ball.update dt_ms (Game.bounds g) paddles (Game.ball g) = Ok (b1, Some 0%nat)) /\
  exists fuel : nat,
    forall fuel' : nat,
      (fuel <= fuel')%nat ->
      exists g',
        Game.update fuel' k jitter d dt_ms g = Ok g' /\
        Game.score g' = Game.add_point 0 (Game.score g) /\
        Ball.serve_cooldown (Game.ball g') = COUNTDOWN_TIME /\
        Ball.speed (Game.ball g') =
          Rmin BALL_SPEED_MAX (Ball.speed (Game.ball g) + BALL_SPEED_INCREMENT) /\
        0 < Vector2.x (Ball.velocity (Game.ball g')).
Proof.
  intros Hw Hcd Hpast Hwidth Hheight Hbw Hvx Hspeed Hdt Hd. split.
  - intros paddles.
    destruct (update_right_exit dt_ms (Game.bounds g) paddles (Game.ball g)
                Hcd Hpast Hwidth Hbw Hvx Hdt) as (b1 & Hball & _).
    exists b1; exact Hball.
  - exact (game_right_exit k jitter d dt_ms g
             Hw Hcd Hpast Hwidth Hheight Hbw Hvx Hspeed Hdt Hd).
Qed.

Lemma right_exit_game_hypotheses :
  Game.winner right_exit_game = None /\
  (Ball.serve_cooldown (Game.ball right_exit_game) <= 0)%Z /\
  (Bounds.width (Game.bounds right_exit_game)
   < Rect.left (Ball.rect (Game.ball right_exit_game)))%Z /\
  (0 <= Bounds.width (Game.bounds right_exit_game))%Z /\
  (0 < Bounds.height (Game.bounds right_exit_game))%Z /\
  (0 <= Rect.w (Ball.rect (Game.ball right_exit_game)))%Z /\
  0 < Vector2.x (Ball.velocity (Game.ball right_exit_game)) /\
  0 < Ball.speed (Game.ball right_exit_game).
Proof.
  unfold right_exit_game;
    cbn [Game.winner Game.ball Game.bounds Ball.serve_cooldown Ball.rect
         Ball.velocity Ball.speed Bounds.width Bounds.height Rect.left
         Rect.x Rect.w Vector2.x].
  repeat split; try lia; lra.
Qed.

Lemma right_exit_scores_left_and_serves_right_witness :
  (forall paddles, exists b1,
     Ball.update 16 (Game.bounds right_exit_game) paddles
       (Game.ball right_exit_game) = Ok (b1, Some 0%nat)) /\
  exists fuel : nat,
    forall fuel' : nat,
      (fuel <= fuel')%nat ->
      exists g',
        Game.update fuel' no_keys 0 first_draw 16 right_exit_game = Ok g' /\
        Game.score g' = Game.add_point 0 (Game.score right_exit_game) /\
        Ball.serve_cooldown (Game.ball g') = COUNTDOWN_TIME /\
        Ball.speed (Game.ball g') =
          Rmin BALL_SPEED_MAX
            (Ball.speed (Game.ball right_exit_game) + BALL_SPEED_INCREMENT) /\
        0 < Vector2.x (Ball.velocity (Game.ball g')).
Proof.
  destruct right_exit_game_hypotheses
    as (Hw & Hcd & Hpast & Hwidth & Hheight & Hbw & Hvx & Hspeed).
  apply (right_exit_scores_left_and_serves_right no_keys 0 first_draw 16
           right_exit_game Hw Hcd Hpast Hwidth Hheight Hbw Hvx Hspeed).
  - lra.
  - exact first_draw_valid.
Defined.

(** C5 as stated fails in its last part: in the scenario of the claim the
    re-served ball moves right, so its [velocity.x] is not negative. *)
Lemma right_exit_reserve_is_not_leftward :
  exists (fuel : nat) (g' : Game.t),
    Game.update fuel no_keys 0 first_draw 16 right_exit_game = Ok g' /\
    Game.score g' = [1%Z; 0%Z] /\
    ~ Vector2.x (Ball.velocity (Game.ball g')) < 0.
Proof.
  destruct right_exit_game_hypotheses
    as (Hw & Hcd & Hpast & Hwidth & Hheight & Hbw & Hvx & Hspeed).
  assert (Hdt : 0 <= 16) by lra.
  destruct (game_right_exit no_keys 0 first_draw 16 right_exit_game
              Hw Hcd Hpast Hwidth Hheight Hbw Hvx Hspeed Hdt first_draw_valid)
    as [fuel Hfuel].
  destruct (Hfuel fuel (le_n fuel)) as (g' & Hup & Hscore & _ & _ & Hserve).
  exists fuel, g'. split; [exact Hup |]. split; [exact Hscore |]. lra.
Qed.

(** * Further properties of the code *)

(** ** More numeric helpers *)

Lemma Zfloor_div (a b : Z) :
  (0 < b)%Z -> Zfloor (IZR a / IZR b) = (a / b)%Z.
Proof.
  intros Hb. apply Zfloor_eq.
  assert (Hb' : 0 < IZR b) by now apply IZR_lt.
  pose proof (Z.div_mod a b ltac:(lia)) as Hdm.
  pose proof (Z.mod_pos_bound a b Hb) as [Hlo Hhi].
  apply IZR_le in Hlo. apply IZR_lt in Hhi.
  assert (Ha : IZR a = IZR b * IZR (a / b) + IZR (a mod b)).
  { rewrite <- mult_IZR, <- plus_IZR. now f_equal. }
  assert (Hq : IZR a / IZR b = IZR (a / b) + IZR (a mod b) / IZR b).
  { rewrite Ha. field. lra. }
  assert (Hfrac : 0 <= IZR (a mod b) / IZR b < 1).
  { split.
    - apply Rmult_le_pos; [exact Hlo | left; now apply Rinv_0_lt_compat].
    - apply (Rmult_lt_reg_r (IZR b)); [exact Hb' |].
      replace (IZR (a mod b) / IZR b * IZR b) with (IZR (a mod b)) by (field; lra).
      lra. }
  lra.
Qed.

(** [int(a / b)] on non-negative integers is the floor division. *)
Lemma int_div_nonneg (a b : Z) :
  (0 <= a)%Z -> (0 < b)%Z -> int (IZR a / IZR b) = (a / b)%Z.
Proof.
  intros Ha Hb. unfold int.
  destruct (Rle_dec 0 (IZR a / IZR b)) as [_ | Hneg]; [now apply Zfloor_div |].
  exfalso. apply Hneg.
  apply Rmult_le_pos; [now apply IZR_le |].
  left. apply Rinv_0_lt_compat. now apply IZR_lt.
Qed.

Lemma int_nonpos (r : R) : r <= 0 -> (int r <= 0)%Z.
Proof.
  intros H; unfold int; destruct (Rle_dec 0 r) as [H0 | _].
  - assert (r = 0) by lra. subst r. change 0 with (IZR 0). rewrite ZfloorZ. lia.
  - unfold Zceil. assert (0 <= Zfloor (- r))%Z; [| lia].
    apply Zfloor_lub. simpl. lra.
Qed.


(** ** The ball and the walls *)

Lemma bounce_rect_inv (paddle : Paddle.t) (b b' : Ball.t) :
  Ball.bounce_off_paddle paddle b = Ok b' ->
  Ball.rect b' =
    (if Rltb (Vector2.x (Ball.velocity b)) 0
     then Rect.set_left (Rect.right (Paddle.rect paddle)) (Ball.rect b)
     else Rect.set_right (Rect.left (Paddle.rect paddle)) (Ball.rect b)).
Proof.
  unfold Ball.bounce_off_paddle.
  destruct (Ball.hit_angle _ _) as [angle | e |]; cbn [bind]; try discriminate.
  destruct (Vector2.normalize _) as [u | e |]; cbn [bind]; try discriminate.
  intros [= <-]. reflexivity.
Qed.

Lemma flush_keeps_y (paddle : Paddle.t) (b : Ball.t) :
  let r := if Rltb (Vector2.x (Ball.velocity b)) 0
           then Rect.set_left (Rect.right (Paddle.rect paddle)) (Ball.rect b)
           else Rect.set_right (Rect.left (Paddle.rect paddle)) (Ball.rect b) in
  Rect.y r = Rect.y (Ball.rect b) /\ Rect.h r = Rect.h (Ball.rect b) /\
  Rect.w r = Rect.w (Ball.rect b).
Proof. cbv zeta. destruct (Rltb _ _); repeat split. Qed.

(** X1.  An update of an active ball that is no taller than the field
    leaves the ball between the top and the bottom wall, whatever else
    happens in the tick (move, reflection, score or paddle bounce). *)
Theorem active_ball_stays_between_walls (dt_ms : R) (bounds : Bounds.t)
    (paddles : Paddle.t * Paddle.t) (b b' : Ball.t) (scored : option nat) :
  (Ball.serve_cooldown b <= 0)%Z ->
  (Rect.h (Ball.rect b) <= Bounds.height bounds)%Z ->
  Ball.update dt_ms bounds paddles b = Ok (b', scored) ->
  (0 <= Rect.top (Ball.rect b'))%Z /\
  (Rect.bottom (Ball.rect b') <= Bounds.height bounds)%Z /\
  Rect.w (Ball.rect b') = Rect.w (Ball.rect b) /\
  Rect.h (Ball.rect b') = Rect.h (Ball.rect b).
Proof.
  intros Hcd Hfit. unfold Ball.update.
  assert (Hgt : (Ball.serve_cooldown b >? 0)%Z = false)
    by (rewrite Z.gtb_ltb; apply Z.ltb_ge; lia).
  rewrite Hgt.
  set (r0 := Rect.set_y _ _).
  assert (Hh0 : Rect.h r0 = Rect.h (Ball.rect b)) by reflexivity.
  assert (Hw0 : Rect.w r0 = Rect.w (Ball.rect b)) by reflexivity.
  set (wall := if (Rect.top r0 <=? 0)%Z then _ else _).
  assert (Hwall : (0 <= Rect.y (fst wall))%Z /\
                  (Rect.y (fst wall) + Rect.h (fst wall) <= Bounds.height bounds)%Z /\
                  Rect.w (fst wall) = Rect.w (Ball.rect b) /\
                  Rect.h (fst wall) = Rect.h (Ball.rect b)).
  { unfold wall, Rect.top, Rect.bottom.
    destruct (Z.leb_spec (Rect.y r0) 0) as [Htop | Htop]; cbn [fst].
    - unfold Rect.set_top, Rect.set_y; cbn [Rect.y Rect.h Rect.w]. lia.
    - destruct (Z.geb_spec (Rect.y r0 + Rect.h r0) (Bounds.height bounds))
        as [Hbot | Hbot]; cbn [fst].
      + unfold Rect.set_bottom, Rect.set_y; cbn [Rect.y Rect.h Rect.w]. lia.
      + lia. }
  destruct wall as [r v]; cbn [fst] in Hwall.
  destruct paddles as [left_paddle right_paddle].
  unfold Rect.top, Rect.bottom.
  destruct (Rect.right r <? 0)%Z.
  { intros [= <- <-]. cbn [Ball.rect]. exact Hwall. }
  destruct (Rect.left r >? Bounds.width bounds)%Z.
  { intros [= <- <-]. cbn [Ball.rect]. exact Hwall. }
  set (b1 := Ball.mk r v (Ball.speed b) (Ball.serve_cooldown b)).
  assert (Hbounce : forall paddle,
    (b2 <- Ball.bounce_off_paddle paddle b1 ;; Ok (b2, @None nat)) = Ok (b', scored) ->
    (0 <= Rect.y (Ball.rect b'))%Z /\
    (Rect.y (Ball.rect b') + Rect.h (Ball.rect b') <= Bounds.height bounds)%Z /\
    Rect.w (Ball.rect b') = Rect.w (Ball.rect b) /\
    Rect.h (Ball.rect b') = Rect.h (Ball.rect b)).
  { intros paddle.
    destruct (Ball.bounce_off_paddle paddle b1) as [b2 | e |] eqn:Hb;
      cbn [bind]; try discriminate.
    intros [= <- <-]. rewrite (bounce_rect_inv paddle b1 b2 Hb).
    destruct (flush_keeps_y paddle b1) as (Hy & Hh & Hw).
    cbv zeta in Hy, Hh, Hw. rewrite Hy, Hh, Hw. exact Hwall. }
  destruct (Rect.colliderect r (Paddle.rect left_paddle) && Rltb (Vector2.x v) 0)%bool;
    [apply Hbounce |].
  destruct (Rect.colliderect r (Paddle.rect right_paddle) && Rltb 0 (Vector2.x v))%bool;
    [apply Hbounce |].
  intros [= <- <-]. cbn [Ball.rect]. exact Hwall.
Qed.

Lemma active_ball_stays_between_walls_witness :
  let bounds := Bounds.mk 800 600 in
  let paddles := (Paddle.init 30 250 12 100 6, Paddle.init 758 250 12 100 6) in
  let b := Ball.mk (Rect.mk 400 3 14 14) (Vector2.mk 3 (-4)) 5 0 in
  exists b' scored,
    Ball.update 16 bounds paddles b = Ok (b', scored) /\
    (0 <= Rect.top (Ball.rect b'))%Z /\
    (Rect.bottom (Ball.rect b') <= Bounds.height bounds)%Z /\
    Rect.w (Ball.rect b') = Rect.w (Ball.rect b) /\
    Rect.h (Ball.rect b') = Rect.h (Ball.rect b).
Proof.
  intros bounds paddles b.
  destruct (ball_update_total 16 bounds (Paddle.init 30 250 12 100 6)
              (Paddle.init 758 250 12 100 6) b) as (b' & scored & Hup);
    [simpl; lia | simpl; lia |].
  exists b', scored. split; [exact Hup |].
  apply (active_ball_stays_between_walls 16 bounds paddles b b' scored);
    [simpl; lia | simpl; lia | exact Hup].
Defined.

(** Truncation moves a value by less than one. *)
Lemma int_within_one (r : R) : r - 1 < IZR (int r) < r + 1.
Proof.
  unfold int; destruct (Rle_dec 0 r) as [Hpos | Hneg].
  - pose proof (Zfloor_bound r). lra.
  - pose proof (Zceil_bound r). lra.
Qed.

(** The wall check of an active update, for a ball whose exact step
    carries it at least one pixel into a wall and leaves it at least one
    pixel inside the field sideways, with no paddle on the wall line.
    The margins of one pixel make the statement independent of the last
    digit of the products [velocity * dt]. *)
Lemma update_reflects_at_top_aux (dt_ms : R) (bounds : Bounds.t)
    (paddles : Paddle.t * Paddle.t) (b : Ball.t) :
  let dt := dt_ms / (1000 / IZR FPS) in
  let w := Rect.w (Ball.rect b) in
  let h := Rect.h (Ball.rect b) in
  (Ball.serve_cooldown b <= 0)%Z ->
  IZR (Rect.y (Ball.rect b)) + Vector2.y (Ball.velocity b) * dt <= -1 ->
  1 <= IZR (Rect.x (Ball.rect b) + w) + Vector2.x (Ball.velocity b) * dt ->
  IZR (Rect.x (Ball.rect b)) + Vector2.x (Ball.velocity b) * dt
    <= IZR (Bounds.width bounds) - 1 ->
  (forall x : Z,
     Rect.colliderect (Rect.mk x 0 w h) (Paddle.rect (fst paddles)) = false /\
     Rect.colliderect (Rect.mk x 0 w h) (Paddle.rect (snd paddles)) = false) ->
  exists b',
    Ball.update dt_ms bounds paddles b = Ok (b', None) /\
    Rect.top (Ball.rect b') = 0%Z /\
    Ball.velocity b' =
      Vector2.mk (Vector2.x (Ball.velocity b)) (- Vector2.y (Ball.velocity b)) /\
    Ball.speed b' = Ball.speed b /\
    Ball.serve_cooldown b' = Ball.serve_cooldown b.
Proof.
  intros dt w h Hcd Htop Hright Hleft Hclear. unfold Ball.update.
  assert (Hgt : (Ball.serve_cooldown b >? 0)%Z = false)
    by (rewrite Z.gtb_ltb; apply Z.ltb_ge; lia).
  rewrite Hgt.
  unfold Vector2.scale; cbn [Vector2.x Vector2.y]. fold dt.
  set (dx := int (Vector2.x (Ball.velocity b) * dt)).
  set (dy := int (Vector2.y (Ball.velocity b) * dt)).
  pose proof (int_within_one (Vector2.x (Ball.velocity b) * dt)) as Hdx.
  pose proof (int_within_one (Vector2.y (Ball.velocity b) * dt)) as Hdy.
  fold dx in Hdx. fold dy in Hdy.
  unfold Rect.set_x, Rect.set_y; cbn [Rect.x Rect.y Rect.w Rect.h].
  fold w h.
  unfold Rect.top; cbn [Rect.x Rect.y Rect.w Rect.h].
  assert (Hy1 : (Rect.y (Ball.rect b) + dy <= 0)%Z).
  { apply le_IZR. rewrite plus_IZR. lra. }
  assert (Hx1 : (0 <= Rect.x (Ball.rect b) + dx + w)%Z).
  { assert (0 < IZR (Rect.x (Ball.rect b) + dx + w)).
    { rewrite !plus_IZR. rewrite plus_IZR in Hright. lra. }
    apply lt_IZR in H. lia. }
  assert (Hx2 : (Rect.x (Ball.rect b) + dx <= Bounds.width bounds)%Z).
  { assert (IZR (Rect.x (Ball.rect b) + dx) < IZR (Bounds.width bounds)).
    { rewrite plus_IZR. lra. }
    apply lt_IZR in H. lia. }
  assert (Hleb : (Rect.y (Ball.rect b) + dy <=? 0)%Z = true) by (apply Z.leb_le; lia).
  rewrite Hleb. destruct paddles as [left_paddle right_paddle].
  cbn [fst snd] in Hclear.
  unfold Rect.set_top, Rect.set_y; cbn [Rect.x Rect.y Rect.w Rect.h].
  assert (Hr1 : (Rect.right (Rect.mk (Rect.x (Ball.rect b) + dx) 0 w h) <? 0)%Z = false)
    by (apply Z.ltb_ge; unfold Rect.right; cbn [Rect.x Rect.w]; lia).
  assert (Hr2 : (Rect.left (Rect.mk (Rect.x (Ball.rect b) + dx) 0 w h)
                 >? Bounds.width bounds)%Z = false)
    by (rewrite Z.gtb_ltb; apply Z.ltb_ge; unfold Rect.left; cbn [Rect.x]; lia).
  rewrite Hr1, Hr2.
  destruct (Hclear (Rect.x (Ball.rect b) + dx)%Z) as [Hl Hr]. rewrite Hl, Hr.
  cbn [andb]. eexists. split; [reflexivity |].
  cbn [Ball.rect Ball.velocity Ball.speed Ball.serve_cooldown].
  repeat split. unfold Vector2.set_y. f_equal. ring.
Qed.

Lemma update_reflects_at_bottom_aux (dt_ms : R) (bounds : Bounds.t)
    (paddles : Paddle.t * Paddle.t) (b : Ball.t) :
  let dt := dt_ms / (1000 / IZR FPS) in
  let w := Rect.w (Ball.rect b) in
  let h := Rect.h (Ball.rect b) in
  (Ball.serve_cooldown b <= 0)%Z ->
  (0 < Rect.y (Ball.rect b))%Z ->
  0 <= Vector2.y (Ball.velocity b) * dt ->
  IZR (Bounds.height bounds) + 1
    <= IZR (Rect.y (Ball.rect b) + h) + Vector2.y (Ball.velocity b) * dt ->
  1 <= IZR (Rect.x (Ball.rect b) + w) + Vector2.x (Ball.velocity b) * dt ->
  IZR (Rect.x (Ball.rect b)) + Vector2.x (Ball.velocity b) * dt
    <= IZR (Bounds.width bounds) - 1 ->
  (forall x : Z,
     Rect.colliderect (Rect.mk x (Bounds.height bounds - h) w h)
       (Paddle.rect (fst paddles)) = false /\
     Rect.colliderect (Rect.mk x (Bounds.height bounds - h) w h)
       (Paddle.rect (snd paddles)) = false) ->
  exists b',
    Ball.update dt_ms bounds paddles b = Ok (b', None) /\
    Rect.bottom (Ball.rect b') = Bounds.height bounds /\
    Ball.velocity b' =
      Vector2.mk (Vector2.x (Ball.velocity b)) (- Vector2.y (Ball.velocity b)) /\
    Ball.speed b' = Ball.speed b /\
    Ball.serve_cooldown b' = Ball.serve_cooldown b.
Proof.
  intros dt w h Hcd Hy Hdown Hbot Hright Hleft Hclear. unfold Ball.update.
  assert (Hgt : (Ball.serve_cooldown b >? 0)%Z = false)
    by (rewrite Z.gtb_ltb; apply Z.ltb_ge; lia).
  rewrite Hgt.
  unfold Vector2.scale; cbn [Vector2.x Vector2.y]. fold dt.
  set (dx := int (Vector2.x (Ball.velocity b) * dt)).
  set (dy := int (Vector2.y (Ball.velocity b) * dt)).
  pose proof (int_within_one (Vector2.x (Ball.velocity b) * dt)) as Hdx.
  pose proof (int_within_one (Vector2.y (Ball.velocity b) * dt)) as Hdy.
  pose proof (int_nonneg _ Hdown) as Hdy0.
  fold dx in Hdx. fold dy in Hdy, Hdy0.
  unfold Rect.set_x, Rect.set_y; cbn [Rect.x Rect.y Rect.w Rect.h].
  fold w h.
  unfold Rect.top, Rect.bottom; cbn [Rect.x Rect.y Rect.w Rect.h].
  assert (Hy2 : (Bounds.height bounds <= Rect.y (Ball.rect b) + dy + h)%Z).
  { assert (IZR (Bounds.height bounds) < IZR (Rect.y (Ball.rect b) + dy + h)).
    { rewrite !plus_IZR. rewrite plus_IZR in Hbot. lra. }
    apply lt_IZR in H. lia. }
  assert (Hx1 : (0 <= Rect.x (Ball.rect b) + dx + w)%Z).
  { assert (0 < IZR (Rect.x (Ball.rect b) + dx + w)).
    { rewrite !plus_IZR. rewrite plus_IZR in Hright. lra. }
    apply lt_IZR in H. lia. }
  assert (Hx2 : (Rect.x (Ball.rect b) + dx <= Bounds.width bounds)%Z).
  { assert (IZR (Rect.x (Ball.rect b) + dx) < IZR (Bounds.width bounds)).
    { rewrite plus_IZR. lra. }
    apply lt_IZR in H. lia. }
  assert (Hleb : (Rect.y (Ball.rect b) + dy <=? 0)%Z = false) by (apply Z.leb_gt; lia).
  assert (Hgeb : (Rect.y (Ball.rect b) + dy + h >=? Bounds.height bounds)%Z = true)
    by (rewrite Z.geb_leb; apply Z.leb_le; lia).
  rewrite Hleb, Hgeb. destruct paddles as [left_paddle right_paddle].
  cbn [fst snd] in Hclear.
  unfold Rect.set_bottom, Rect.set_y; cbn [Rect.x Rect.y Rect.w Rect.h].
  set (r := Rect.mk (Rect.x (Ball.rect b) + dx) (Bounds.height bounds - h) w h).
  assert (Hr1 : (Rect.right r <? 0)%Z = false)
    by (apply Z.ltb_ge; unfold Rect.right, r; cbn [Rect.x Rect.w]; lia).
  assert (Hr2 : (Rect.left r >? Bounds.width bounds)%Z = false)
    by (rewrite Z.gtb_ltb; apply Z.ltb_ge; unfold Rect.left, r; cbn [Rect.x]; lia).
  rewrite Hr1, Hr2.
  destruct (Hclear (Rect.x (Ball.rect b) + dx)%Z) as [Hl Hr]. fold r in Hl, Hr.
  rewrite Hl, Hr.
  cbn [andb]. eexists. split; [reflexivity |].
  cbn [Ball.rect Ball.velocity Ball.speed Ball.serve_cooldown].
  repeat split.
  - unfold r; cbn [Rect.y Rect.h]. lia.
  - unfold Vector2.set_y. f_equal. ring.
Qed.

(** X2.  Wall reflection.  When the exact step of an active ball carries
    its top edge at least one pixel past the top wall while the ball stays
    at least one pixel inside the field sideways, and no paddle reaches
    the wall line, the update puts the ball on the wall line ([top = 0]),
    negates the vertical velocity and keeps the horizontal velocity, the
    speed and the cooldown; no side scores.  The same holds at the bottom
    wall for a ball that starts below the top wall and moves down. *)
Theorem wall_reflection (dt_ms : R) (bounds : Bounds.t)
    (paddles : Paddle.t * Paddle.t) (b : Ball.t) :
  let dt := dt_ms / (1000 / IZR FPS) in
  let w := Rect.w (Ball.rect b) in
  let h := Rect.h (Ball.rect b) in
  (Ball.serve_cooldown b <= 0)%Z ->
  1 <= IZR (Rect.x (Ball.rect b) + w) + Vector2.x (Ball.velocity b) * dt ->
  IZR (Rect.x (Ball.rect b)) + Vector2.x (Ball.velocity b) * dt
    <= IZR (Bounds.width bounds) - 1 ->
  (IZR (Rect.y (Ball.rect b)) + Vector2.y (Ball.velocity b) * dt <= -1 ->
   (forall x : Z,
      Rect.colliderect (Rect.mk x 0 w h) (Paddle.rect (fst paddles)) = false /\
      Rect.colliderect (Rect.mk x 0 w h) (Paddle.rect (snd paddles)) = false) ->
   exists b',
     Ball.update dt_ms bounds paddles b = Ok (b', None) /\
     Rect.top (Ball.rect b') = 0%Z /\
     Ball.velocity b' =
       Vector2.mk (Vector2.x (Ball.velocity b)) (- Vector2.y (Ball.velocity b)) /\
     Ball.speed b' = Ball.speed b /\
     Ball.serve_cooldown b' = Ball.serve_cooldown b) /\
  ((0 < Rect.y (Ball.rect b))%Z ->
   0 <= Vector2.y (Ball.velocity b) * dt ->
   IZR (Bounds.height bounds) + 1
     <= IZR (Rect.y (Ball.rect b) + h) + Vector2.y (Ball.velocity b) * dt ->
   (forall x : Z,
      Rect.colliderect (Rect.mk x (Bounds.height bounds - h) w h)
        (Paddle.rect (fst paddles)) = false /\
      Rect.colliderect (Rect.mk x (Bounds.height bounds - h) w h)
        (Paddle.rect (snd paddles)) = false) ->
   exists b',
     Ball.update dt_ms bounds paddles b = Ok (b', None) /\
     Rect.bottom (Ball.rect b') = Bounds.height bounds /\
     Ball.velocity b' =
       Vector2.mk (Vector2.x (Ball.velocity b)) (- Vector2.y (Ball.velocity b)) /\
     Ball.speed b' = Ball.speed b /\
     Ball.serve_cooldown b' = Ball.serve_cooldown b).
Proof.
  intros dt w h Hcd Hright Hleft. split.
  - intros Htop Hclear.
    exact (update_reflects_at_top_aux dt_ms bounds paddles b Hcd Htop Hright Hleft Hclear).
  - intros Hy Hdown Hbot Hclear.
    exact (update_reflects_at_bottom_aux dt_ms bounds paddles b
             Hcd Hy Hdown Hbot Hright Hleft Hclear).
Qed.

(** A paddle of the game in mid-field touches neither wall line. *)
Lemma mid_field_paddle_clear_of_row (x0 y : Z) (x : Z) :
  (y + 14 <= 250 \/ 350 <= y)%Z ->
  Rect.colliderect (Rect.mk x y 14 14) (Rect.mk x0 250 12 100) = false.
Proof.
  intros Hy. unfold Rect.colliderect; cbn [Rect.x Rect.y Rect.w Rect.h].
  cbn [Z.eqb orb].
  destruct Hy as [Hy | Hy].
  - assert (H4 : (Z.min 250 (250 + 100) <? Z.max y (y + 14))%Z = false)
      by (apply Z.ltb_ge; lia).
    rewrite H4. now rewrite Bool.andb_false_r.
  - assert (H2 : (Z.min y (y + 14) <? Z.max 250 (250 + 100))%Z = false)
      by (apply Z.ltb_ge; lia).
    rewrite H2. now rewrite Bool.andb_false_r, !Bool.andb_false_l.
Qed.

Lemma wall_reflection_witness :
  let bounds := Bounds.mk 800 600 in
  let paddles := (Paddle.init 30 250 12 100 6, Paddle.init 758 250 12 100 6) in
  let top_ball := Ball.mk (Rect.mk 400 3 14 14) (Vector2.mk 3 (-5)) 5 0 in
  let bottom_ball := Ball.mk (Rect.mk 400 583 14 14) (Vector2.mk 3 5) 5 0 in
  (exists b',
     Ball.update 16 bounds paddles top_ball = Ok (b', None) /\
     Rect.top (Ball.rect b') = 0%Z /\
     Ball.velocity b' = Vector2.mk 3 (- -5) /\
     Ball.speed b' = 5 /\
     Ball.serve_cooldown b' = 0%Z) /\
  (exists b',
     Ball.update 16 bounds paddles bottom_ball = Ok (b', None) /\
     Rect.bottom (Ball.rect b') = 600%Z /\
     Ball.velocity b' = Vector2.mk 3 (- 5) /\
     Ball.speed b' = 5 /\
     Ball.serve_cooldown b' = 0%Z).
Proof.
  intros bounds paddles top_ball bottom_ball. split.
  - apply (proj1 (wall_reflection 16 bounds paddles top_ball
                    ltac:(cbn; lia)
                    ltac:(cbn [top_ball Ball.rect Ball.velocity Rect.x Rect.w Vector2.x];
                          unfold FPS; rewrite plus_IZR; lra)
                    ltac:(cbn [top_ball bounds Ball.rect Ball.velocity Rect.x
                               Vector2.x Bounds.width]; unfold FPS; lra))).
    + cbn [top_ball Ball.rect Ball.velocity Rect.y Vector2.y]. unfold FPS. lra.
    + intros x. split; apply mid_field_paddle_clear_of_row; lia.
  - apply (proj2 (wall_reflection 16 bounds paddles bottom_ball
                    ltac:(cbn; lia)
                    ltac:(cbn [bottom_ball Ball.rect Ball.velocity Rect.x Rect.w Vector2.x];
                          unfold FPS; rewrite plus_IZR; lra)
                    ltac:(cbn [bottom_ball bounds Ball.rect Ball.velocity Rect.x
                               Vector2.x Bounds.width]; unfold FPS; lra))).
    + cbn [bottom_ball Ball.rect Rect.y]. lia.
    + cbn [bottom_ball Ball.velocity Vector2.y]. unfold FPS. lra.
    + cbn [bottom_ball bounds Ball.rect Ball.velocity Rect.y Rect.h Vector2.y
           Bounds.height]. unfold FPS. rewrite plus_IZR. lra.
    + intros x. split; apply mid_field_paddle_clear_of_row;
        cbn [bounds Bounds.height bottom_ball Ball.rect Rect.h]; lia.
Defined.

(** ** The ball after a paddle bounce *)

(** X3.  After a bounce the ball no longer overlaps the paddle it hit
    (both of non-negative width): it lies flush against the paddle's
    right edge when it came from the right, against the left edge
    otherwise. *)
Theorem bounce_clears_overlap (paddle : Paddle.t) (b b' : Ball.t) :
  (0 <= Rect.w (Paddle.rect paddle))%Z ->
  (0 <= Rect.w (Ball.rect b))%Z ->
  Ball.bounce_off_paddle paddle b = Ok b' ->
  Rect.colliderect (Ball.rect b') (Paddle.rect paddle) = false /\
  (Vector2.x (Ball.velocity b) < 0 ->
   Rect.left (Ball.rect b') = Rect.right (Paddle.rect paddle)) /\
  (0 <= Vector2.x (Ball.velocity b) ->
   Rect.right (Ball.rect b') = Rect.left (Paddle.rect paddle)).
Proof.
  intros Hpw Hbw Hb. rewrite (bounce_rect_inv paddle b b' Hb).
  destruct (Rlt_dec (Vector2.x (Ball.velocity b)) 0) as [Hneg | Hpos].
  - rewrite (Rltb_true _ _ Hneg). split; [| split; [reflexivity | lra]].
    unfold Rect.colliderect, Rect.set_left, Rect.set_x, Rect.right;
      cbn [Rect.x Rect.y Rect.w Rect.h].
    destruct (_ || _ || _ || _)%bool; [reflexivity |].
    assert (H1 : (Z.min (Rect.x (Paddle.rect paddle) + Rect.w (Paddle.rect paddle))
                    (Rect.x (Paddle.rect paddle) + Rect.w (Paddle.rect paddle)
                     + Rect.w (Ball.rect b))
                  <? Z.max (Rect.x (Paddle.rect paddle))
                       (Rect.x (Paddle.rect paddle) + Rect.w (Paddle.rect paddle)))%Z
                 = false) by (apply Z.ltb_ge; lia).
    rewrite H1. reflexivity.
  - rewrite (Rltb_false (Vector2.x (Ball.velocity b)) 0) by lra.
    split; [| split; [lra | intros _]].
    + unfold Rect.colliderect, Rect.set_right, Rect.set_x, Rect.left;
        cbn [Rect.x Rect.y Rect.w Rect.h].
      destruct (_ || _ || _ || _)%bool; [reflexivity |].
      assert (H3 : (Z.min (Rect.x (Paddle.rect paddle))
                      (Rect.x (Paddle.rect paddle) + Rect.w (Paddle.rect paddle))
                    <? Z.max (Rect.x (Paddle.rect paddle) - Rect.w (Ball.rect b))
                         (Rect.x (Paddle.rect paddle) - Rect.w (Ball.rect b)
                          + Rect.w (Ball.rect b)))%Z
                   = false) by (apply Z.ltb_ge; lia).
      rewrite H3.
      now rewrite Bool.andb_false_r, Bool.andb_false_l.
    + unfold Rect.right, Rect.left, Rect.set_right, Rect.set_x;
        cbn [Rect.x Rect.w]. lia.
Qed.

Lemma bounce_clears_overlap_witness :
  let paddle := Paddle.init 30 250 12 100 6 in
  let b := Ball.mk (Rect.mk 41 293 14 14) (Vector2.mk (-5) 0) 5 0 in
  exists b',
    Ball.bounce_off_paddle paddle b = Ok b' /\
    Rect.colliderect (Ball.rect b') (Paddle.rect paddle) = false /\
    (Vector2.x (Ball.velocity b) < 0 ->
     Rect.left (Ball.rect b') = Rect.right (Paddle.rect paddle)) /\
    (0 <= Vector2.x (Ball.velocity b) ->
     Rect.right (Ball.rect b') = Rect.left (Paddle.rect paddle)).
Proof.
  intros paddle b.
  destruct (bounce_spec paddle b) as (b' & Hb & _); [simpl; lia |].
  exists b'. split; [exact Hb |].
  apply (bounce_clears_overlap paddle b b'); [simpl; lia | simpl; lia | exact Hb].
Defined.

(** ** The serve countdown *)

(** X4.  A serving ball stays frozen through any run of updates whose
    truncated elapsed times are non-negative and add up to less than the
    remaining cooldown: rectangle, velocity and speed are unchanged and
    the cooldown has dropped by exactly that sum. *)
Theorem serve_countdown_accumulates (dts : list R) (bounds : Bounds.t)
    (paddles : Paddle.t * Paddle.t) (b : Ball.t) :
  Forall (fun dt_ms => 0 <= dt_ms) dts ->
  (fold_right Z.add 0 (map int dts) < Ball.serve_cooldown b)%Z ->
  Ball.updates dts bounds paddles b =
    Ok (Ball.mk (Ball.rect b) (Ball.velocity b) (Ball.speed b)
          (Ball.serve_cooldown b - fold_right Z.add 0 (map int dts))%Z).
Proof.
  intros Hall. revert b.
  induction Hall as [| dt_ms rest Hdt Hrest IH]; intros b Hsum.
  - cbn [Ball.updates map fold_right]. rewrite Z.sub_0_r. now destruct b.
  - cbn [map fold_right] in Hsum |- *.
    assert (Hrest_nonneg : (0 <= fold_right Z.add 0 (map int rest))%Z).
    { clear -Hrest. induction Hrest as [| d l Hd _ IHl]; cbn [map fold_right]; [lia |].
      pose proof (int_nonneg d Hd). lia. }
    pose proof (int_nonneg dt_ms Hdt) as Hint.
    assert (Hgt : (Ball.serve_cooldown b >? 0)%Z = true) by (apply Z.gtb_lt; lia).
    cbn [Ball.updates]. unfold Ball.update at 1. rewrite Hgt. cbn [bind fst].
    rewrite IH by (cbn [Ball.serve_cooldown]; lia).
    cbn [Ball.rect Ball.velocity Ball.speed Ball.serve_cooldown].
    do 2 f_equal. lia.
Qed.

Lemma serve_countdown_accumulates_witness :
  let b := Ball.mk (Rect.mk 393 293 14 14) (Vector2.mk 5 0) 5 1200 in
  let paddles := (Paddle.init 30 250 12 100 6, Paddle.init 758 250 12 100 6) in
  let dts := [IZR 16; IZR 17; IZR 16] in
  Ball.updates dts (Bounds.mk 800 600) paddles b =
    Ok (Ball.mk (Ball.rect b) (Ball.velocity b) (Ball.speed b)
          (Ball.serve_cooldown b - fold_right Z.add 0 (map int dts))%Z).
Proof.
  apply (serve_countdown_accumulates [IZR 16; IZR 17; IZR 16] (Bounds.mk 800 600)
           (Paddle.init 30 250 12 100 6, Paddle.init 758 250 12 100 6)
           (Ball.mk (Rect.mk 393 293 14 14) (Vector2.mk 5 0) 5 1200)).
  - repeat constructor; lra.
  - cbn [map fold_right Ball.serve_cooldown]. rewrite !int_IZR. lia.
Defined.

(** ** Motion below one pixel *)



(** ** Paddle motion *)



(** ** Where a reset puts the ball *)

(** X7.  [reset] at the centre of a field of non-negative size always
    succeeds and puts the ball centre at [(width // 2, height // 2)],
    whatever the ball size; the size and the speed are kept and the
    serve countdown is armed. *)
Theorem reset_centres_ball_in_field (bounds : Bounds.t) (to_left : option bool)
    (d : Ball.serve_draw) (b : Ball.t) :
  (0 <= Bounds.width bounds)%Z ->
  (0 <= Bounds.height bounds)%Z ->
  exists b',
    Ball.reset (Bounds.center bounds) to_left d b = Ok b' /\
    Rect.centerx (Ball.rect b') = (Bounds.width bounds / 2)%Z /\
    Rect.centery (Ball.rect b') = (Bounds.height bounds / 2)%Z /\
    Rect.w (Ball.rect b') = Rect.w (Ball.rect b) /\
    Rect.h (Ball.rect b') = Rect.h (Ball.rect b) /\
    Ball.speed b' = Ball.speed b /\
    Ball.serve_cooldown b' = COUNTDOWN_TIME.
Proof.
  intros Hw Hh.
  destruct (reset_spec (Bounds.center bounds) to_left d b)
    as (b' & Hreset & Hrect & Hs & Hcd & _).
  exists b'. split; [exact Hreset |].
  rewrite Hrect. unfold Bounds.center; cbn [Vector2.x Vector2.y].
  rewrite (int_div_nonneg (Bounds.width bounds) 2),
          (int_div_nonneg (Bounds.height bounds) 2) by lia.
  unfold Rect.centerx, Rect.centery, Rect.set_center;
    cbn [Rect.x Rect.y Rect.w Rect.h].
  repeat split; try assumption; lia.
Qed.

Lemma reset_centres_ball_in_field_witness :
  let bounds := Bounds.mk 801 601 in
  let b := Ball.mk (Rect.mk 900 40 15 15) (Vector2.mk 5 0) 5 0 in
  exists b',
    Ball.reset (Bounds.center bounds) (Some true) first_draw b = Ok b' /\
    Rect.centerx (Ball.rect b') = (Bounds.width bounds / 2)%Z /\
    Rect.centery (Ball.rect b') = (Bounds.height bounds / 2)%Z /\
    Rect.w (Ball.rect b') = Rect.w (Ball.rect b) /\
    Rect.h (Ball.rect b') = Rect.h (Ball.rect b) /\
    Ball.speed b' = Ball.speed b /\
    Ball.serve_cooldown b' = COUNTDOWN_TIME.
Proof.
  apply (reset_centres_ball_in_field (Bounds.mk 801 601) (Some true) first_draw
           (Ball.mk (Rect.mk 900 40 15 15) (Vector2.mk 5 0) 5 0));
    cbn [Bounds.width Bounds.height]; lia.
Defined.

(** ** The AI paddle *)

Lemma paddle_update_keeps_motion (dt : R) (bounds : Bounds.t) (p : Paddle.t) :
  Paddle.speed (Paddle.update dt bounds p) = Paddle.speed p /\
  Paddle.velocity (Paddle.update dt bounds p) = Paddle.velocity p.
Proof. split; reflexivity. Qed.



(** X9.  Until the accumulated time reaches the reaction delay the AI
    keeps its stored target and only adds the elapsed time to its timer:
    the update returns without running the prediction, so neither the
    ball, nor the jitter draw, nor the fuel has any influence. *)
Theorem ai_target_persists_within_reaction_delay (fuel : nat) (jitter dt : R)
    (ball_rect : Rect.t) (ball_vel : Vector2.t) (bounds : Bounds.t)
    (self : AIPaddle.t) :
  AIPaddle.time_since_react self + dt < AIPaddle.reaction_delay self ->
  exists rp,
    AIPaddle.update_ai fuel jitter dt ball_rect ball_vel bounds self = Ok rp /\
    AIPaddle.target_y rp = AIPaddle.target_y self /\
    AIPaddle.time_since_react rp = AIPaddle.time_since_react self + dt /\
    forall fuel' jitter' ball_rect' ball_vel',
      AIPaddle.update_ai fuel' jitter' dt ball_rect' ball_vel' bounds self = Ok rp.
Proof.
  intros Hearly. unfold AIPaddle.update_ai.
  rewrite (Rleb_false _ _ Hearly). cbn [bind].
  eexists. split; [reflexivity |].
  cbn [AIPaddle.target_y AIPaddle.time_since_react]. repeat split.
Qed.

Lemma ai_target_persists_within_reaction_delay_witness :
  let self := AIPaddle.init 758 250 12 100 5.7 in
  exists rp,
    AIPaddle.update_ai 0 0 0.06 (Rect.mk 393 293 14 14) (Vector2.mk 5 0)
      (Bounds.mk 800 600) self = Ok rp /\
    AIPaddle.target_y rp = AIPaddle.target_y self /\
    AIPaddle.time_since_react rp = AIPaddle.time_since_react self + 0.06 /\
    forall fuel' jitter' ball_rect' ball_vel',
      AIPaddle.update_ai fuel' jitter' 0.06 ball_rect' ball_vel'
        (Bounds.mk 800 600) self = Ok rp.
Proof.
  apply (ai_target_persists_within_reaction_delay 0 0 0.06 (Rect.mk 393 293 14 14)
           (Vector2.mk 5 0) (Bounds.mk 800 600) (AIPaddle.init 758 250 12 100 5.7)).
  unfold AIPaddle.init; cbn [AIPaddle.time_since_react AIPaddle.reaction_delay]. lra.
Defined.

(** X10.  The reaction delay (0.10) is compared with elapsed time counted
    in frames of 1000/60 ms.  So with a timer that is not negative, any
    frame of 2 ms or more reaches the delay: the update that returns has
    run the prediction, stored its result as the target and set the timer
    back to zero. *)
Theorem ai_repredicts_every_frame (fuel : nat) (jitter dt_ms : R)
    (ball_rect : Rect.t) (ball_vel : Vector2.t) (bounds : Bounds.t)
    (self rp : AIPaddle.t) :
  AIPaddle.reaction_delay self = 0.10 ->
  0 <= AIPaddle.time_since_react self ->
  2 <= dt_ms ->
  AIPaddle.update_ai fuel jitter (Game.dt_px dt_ms) ball_rect ball_vel bounds self
    = Ok rp ->
  AIPaddle.time_since_react rp = 0 /\
  AIPaddle.predict_target fuel jitter self ball_rect ball_vel bounds
    = Ok (AIPaddle.target_y rp).
Proof.
  intros Hdelay Htimer Hdt. unfold AIPaddle.update_ai.
  rewrite Rleb_true by (rewrite Hdelay; unfold Game.dt_px, FPS; lra).
  destruct (AIPaddle.predict_target _ _ _ _ _ _) as [target | e |];
    cbn [bind]; try discriminate.
  intros [= <-]. cbn [AIPaddle.time_since_react AIPaddle.target_y].
  split; reflexivity.
Qed.

Lemma ai_repredicts_every_frame_witness :
  let self := AIPaddle.init 758 250 12 100 5.7 in
  exists rp,
    AIPaddle.update_ai 0 0 (Game.dt_px 16) (Rect.mk 393 293 14 14)
      (Vector2.mk (-5) 0) (Bounds.mk 800 600) self = Ok rp /\
    AIPaddle.time_since_react rp = 0 /\
    AIPaddle.predict_target 0 0 self (Rect.mk 393 293 14 14) (Vector2.mk (-5) 0)
      (Bounds.mk 800 600) = Ok (AIPaddle.target_y rp).
Proof.
  intros self.
  assert (Hrun : exists rp,
    AIPaddle.update_ai 0 0 (Game.dt_px 16) (Rect.mk 393 293 14 14)
      (Vector2.mk (-5) 0) (Bounds.mk 800 600) self = Ok rp).
  { unfold AIPaddle.update_ai, AIPaddle.predict_target, self, AIPaddle.init;
      cbn [AIPaddle.reaction_delay AIPaddle.time_since_react Vector2.x].
    rewrite Rleb_true by (unfold Game.dt_px, FPS; lra).
    rewrite (Rleb_true (-5) 0) by lra. cbn [bind]. eauto. }
  destruct Hrun as [rp Hrp]. exists rp. split; [exact Hrp |].
  apply (ai_repredicts_every_frame 0 0 16 (Rect.mk 393 293 14 14)
           (Vector2.mk (-5) 0) (Bounds.mk 800 600) self rp);
    [reflexivity | | lra | exact Hrp].
  unfold self, AIPaddle.init; cbn [AIPaddle.time_since_react]. lra.
Defined.

(** X11.  The two early exits of the prediction.  A ball that does not
    move right is answered with the vertical centre of the field, and a
    ball moving right whose centre is already at or past the paddle's left
    edge with the ball's own centre height; in both cases without running
    the loop and without jitter. *)
Theorem predict_target_early_exits (fuel : nat) (jitter : R) (self : AIPaddle.t)
    (ball_rect : Rect.t) (ball_vel : Vector2.t) (bounds : Bounds.t) :
  (Vector2.x ball_vel <= 0 ->
   AIPaddle.predict_target fuel jitter self ball_rect ball_vel bounds
     = Ok (IZR (Bounds.height bounds) / 2)) /\
  (0 < Vector2.x ball_vel ->
   (Rect.left (Paddle.rect (AIPaddle.base self)) <= Rect.centerx ball_rect)%Z ->
   AIPaddle.predict_target fuel jitter self ball_rect ball_vel bounds
     = Ok (IZR (Rect.centery ball_rect))).
Proof.
  unfold AIPaddle.predict_target, truediv. split.
  - intros Haway. now rewrite (Rleb_true _ _ Haway).
  - intros Htoward Hpast.
    rewrite (Rleb_false _ _ Htoward).
    destruct (Req_dec_T (Vector2.x ball_vel) 0) as [Hz | _]; [lra |].
    cbn [bind]. rewrite Rleb_true; [reflexivity |].
    assert (Hnum : IZR (Rect.left (Paddle.rect (AIPaddle.base self))
                        - Rect.centerx ball_rect) <= 0)
      by (apply IZR_le; lia).
    apply (Rmult_le_reg_r (Vector2.x ball_vel)); [exact Htoward |].
    replace (_ / Vector2.x ball_vel * Vector2.x ball_vel)
      with (IZR (Rect.left (Paddle.rect (AIPaddle.base self))
                 - Rect.centerx ball_rect)) by (field; lra).
    lra.
Qed.

Lemma predict_target_early_exits_witness :
  let self := AIPaddle.init 758 250 12 100 5.7 in
  let bounds := Bounds.mk 800 600 in
  AIPaddle.predict_target 0 7 self (Rect.mk 393 293 14 14) (Vector2.mk (-5) 2) bounds
    = Ok (IZR (Bounds.height bounds) / 2) /\
  AIPaddle.predict_target 0 7 self (Rect.mk 760 100 14 14) (Vector2.mk 5 2) bounds
    = Ok (IZR (Rect.centery (Rect.mk 760 100 14 14))).
Proof.
  split.
  - apply (proj1 (predict_target_early_exits 0 7 (AIPaddle.init 758 250 12 100 5.7)
                    (Rect.mk 393 293 14 14) (Vector2.mk (-5) 2) (Bounds.mk 800 600))).
    cbn [Vector2.x]. lra.
  - apply (proj2 (predict_target_early_exits 0 7 (AIPaddle.init 758 250 12 100 5.7)
                    (Rect.mk 760 100 14 14) (Vector2.mk 5 2) (Bounds.mk 800 600))).
    + cbn [Vector2.x]. lra.
    + unfold Rect.left, Rect.centerx, AIPaddle.init, Paddle.init;
        cbn [AIPaddle.base Paddle.rect Rect.x Rect.w]. vm_compute. discriminate.
Defined.

(** X12.  In a field of negative height, or of height zero with a
    projection off the wall line, the mirroring loop never ends: every
    amount of fuel is used up. *)
Theorem mirror_diverges_without_height (h y : R) :
  h < 0 \/ (h = 0 /\ y <> 0) ->
  forall fuel : nat, AIPaddle.mirror fuel h y = OutOfFuel.
Proof.
  intros Hcase fuel. revert y Hcase.
  induction fuel as [| fuel IH]; intros y Hcase.
  - cbn [AIPaddle.mirror].
    destruct Hcase as [Hneg | [Hz Hy]].
    + destruct (Rlt_dec y 0) as [Hy | Hy].
      * now rewrite (Rltb_true _ _ Hy).
      * rewrite (Rltb_false y 0), (Rltb_true h y) by lra. reflexivity.
    + destruct (Rlt_dec y 0) as [Hy' | Hy'].
      * now rewrite (Rltb_true _ _ Hy').
      * rewrite (Rltb_false y 0), (Rltb_true h y) by lra. reflexivity.
  - cbn [AIPaddle.mirror].
    destruct (Rlt_dec y 0) as [Hy | Hy].
    + rewrite (Rltb_true _ _ Hy). cbn [orb]. apply IH.
      destruct Hcase as [Hneg | [Hz Hy0]]; [now left |].
      right. split; [exact Hz |].
      rewrite (Rltb_true h (- y)) by lra. lra.
    + rewrite (Rltb_false y 0) by lra. cbn [orb].
      destruct Hcase as [Hneg | [Hz Hy0]].
      * rewrite (Rltb_true h y) by lra. apply IH. now left.
      * rewrite (Rltb_true h y) by lra. apply IH.
        right. split; [exact Hz | lra].
Qed.

Lemma mirror_diverges_without_height_witness :
  AIPaddle.mirror 1000 0 300 = OutOfFuel.
Proof.
  assert (Hflat : 0 < 0 \/ (0 = 0 /\ 300 <> 0))
    by (right; split; [reflexivity | lra]).
  exact (mirror_diverges_without_height 0 300 Hflat 1000).
Defined.

(** What a finished run of the loop says about its result, whatever the
    height. *)
Lemma mirror_ok_inv (h : R) (fuel : nat) :
  forall y r : R,
    AIPaddle.mirror fuel h y = Ok r -> 0 <= r <= h /\ reflects h y r.
Proof.
  induction fuel as [| fuel IH]; intros y r; cbn [AIPaddle.mirror].
  - destruct (Rlt_dec y 0) as [Hy | Hy].
    { rewrite (Rltb_true _ _ Hy). discriminate. }
    rewrite (Rltb_false y 0) by lra. cbn [orb].
    destruct (Rlt_dec h y) as [Hh | Hh].
    { rewrite (Rltb_true _ _ Hh). discriminate. }
    rewrite (Rltb_false h y) by lra. intros [= <-].
    split; [lra | apply reflects_refl].
  - destruct (Rlt_dec y 0) as [Hy | Hy].
    + rewrite (Rltb_true _ _ Hy). cbn [orb].
      destruct (Rltb h (- y)); intros Hrun; destruct (IH _ _ Hrun) as [Hr Hrefl];
        (split; [exact Hr |]).
      * apply reflects_neg, reflects_fold, Hrefl.
      * apply reflects_neg, Hrefl.
    + rewrite (Rltb_false y 0) by lra. cbn [orb].
      destruct (Rlt_dec h y) as [Hh | Hh].
      * rewrite (Rltb_true _ _ Hh).
        intros Hrun; destruct (IH _ _ Hrun) as [Hr Hrefl].
        split; [exact Hr | apply reflects_fold, Hrefl].
      * rewrite (Rltb_false h y) by lra. intros [= <-].
        split; [lra | apply reflects_refl].
Qed.

Lemma reflects_trans (h y1 y2 y3 : R) :
  reflects h y1 y2 -> reflects h y2 y3 -> reflects h y1 y3.
Proof.
  intros [k1 H1] [k2 H2].
  destruct H1 as [H1 | H1], H2 as [H2 | H2].
  - exists (k1 + k2)%Z; left; rewrite plus_IZR; lra.
  - exists (k2 - k1)%Z; right; rewrite minus_IZR; lra.
  - exists (k1 + k2)%Z; right; rewrite plus_IZR; lra.
  - exists (k2 - k1)%Z; left; rewrite minus_IZR; lra.
Qed.

(** X13.  In a field of positive height the result of the mirroring loop
    depends only on the trajectory up to wall reflections: two projections
    that are reflection images of each other (such as [y] and [- y], or
    [y] and [y + 2 * h]) are mirrored to the same value. *)
Theorem mirror_respects_reflections (h y1 y2 r1 r2 : R) (fuel1 fuel2 : nat) :
  0 < h ->
  reflects h y1 y2 ->
  AIPaddle.mirror fuel1 h y1 = Ok r1 ->
  AIPaddle.mirror fuel2 h y2 = Ok r2 ->
  r1 = r2.
Proof.
  intros Hh Hrefl Hrun1 Hrun2.
  destruct (mirror_ok_inv h fuel1 y1 r1 Hrun1) as [Hr1 Hrefl1].
  destruct (mirror_ok_inv h fuel2 y2 r2 Hrun2) as [Hr2 Hrefl2].
  apply (reflection_image_unique h y1 r1 r2 Hh Hrefl1 Hr1); [| exact Hr2].
  exact (reflects_trans h y1 y2 r2 Hrefl Hrefl2).
Qed.

Lemma mirror_respects_reflections_witness :
  AIPaddle.mirror 1 600 (-416) = Ok 416 /\
  AIPaddle.mirror 1 600 784 = Ok (2 * 600 - 784) /\
  416 = 2 * 600 - 784.
Proof.
  assert (H1 : AIPaddle.mirror 1 600 (-416) = Ok 416) by exact mirror_one_bounce.
  assert (H2 : AIPaddle.mirror 1 600 784 = Ok (2 * 600 - 784)).
  { cbn [AIPaddle.mirror].
    rewrite (Rltb_false 784 0), (Rltb_true 600 784) by lra. cbn [orb].
    rewrite (Rltb_false (2 * 600 - 784) 0), (Rltb_false 600 (2 * 600 - 784)) by lra.
    reflexivity. }
  split; [exact H1 |]. split; [exact H2 |].
  apply (mirror_respects_reflections 600 (-416) 784 416 (2 * 600 - 784) 1 1);
    [lra | | exact H1 | exact H2].
  exists 1%Z. left. lra.
Defined.

(** ** Restart *)

(** X14.  A restart succeeds from any state.  It clears both scores and
    the winner, sets the ball speed to the start speed, centres the ball
    and arms the serve countdown; bounds and both paddles are left as they
    are.  A second restart with the same draw changes nothing more. *)
Theorem restart_resets_match (d : Ball.serve_draw) (g : Game.t) :
  exists g',
    Game.restart d g = Ok g' /\
    Game.score g' = [0%Z; 0%Z] /\
    Game.winner g' = None /\
    Ball.speed (Game.ball g') = BALL_SPEED_START /\
    Ball.serve_cooldown (Game.ball g') = COUNTDOWN_TIME /\
    Rect.centerx (Ball.rect (Game.ball g'))
      = int (Vector2.x (Bounds.center (Game.bounds g))) /\
    Rect.centery (Ball.rect (Game.ball g'))
      = int (Vector2.y (Bounds.center (Game.bounds g))) /\
    Game.bounds g' = Game.bounds g /\
    Game.left_paddle g' = Game.left_paddle g /\
    Game.right_paddle g' = Game.right_paddle g /\
    Game.restart d g' = Ok g'.
Proof.
  unfold Game.restart, Ball.reset.
  set (dir := Vector2.rotate (Ball.chosen_angle d) (Vector2.mk 1 0)).
  assert (Hlen : Vector2.length dir = 1).
  { unfold dir. rewrite length_rotate. apply length_unit_x. now left. }
  rewrite (normalize_unit dir Hlen). cbn [bind].
  eexists. split; [reflexivity |].
  cbn [Game.score Game.winner Game.ball Game.bounds Game.left_paddle
       Game.right_paddle Ball.rect Ball.velocity Ball.speed Ball.serve_cooldown].
  unfold Rect.centerx, Rect.centery, Rect.set_center;
    cbn [Rect.x Rect.y Rect.w Rect.h].
  repeat split; lia.
Qed.

(** ** Scoring on the left *)

(** An active ball that is already past the left boundary and still
    moving left is scored for the right side (result 1). *)
Lemma update_left_exit (dt_ms : R) (bounds : Bounds.t)
    (paddles : Paddle.t * Paddle.t) (b : Ball.t) :
  (Ball.serve_cooldown b <= 0)%Z ->
  (Rect.right (Ball.rect b) < 0)%Z ->
  Vector2.x (Ball.velocity b) < 0 ->
  0 <= dt_ms ->
  exists b',
    Ball.update dt_ms bounds paddles b = Ok (b', Some 1%nat) /\
    Ball.speed b' = Rmin BALL_SPEED_MAX (Ball.speed b + BALL_SPEED_INCREMENT).
Proof.
  intros Hcd Hpast Hvx Hdt. unfold Ball.update.
  assert (Hgt : (Ball.serve_cooldown b >? 0)%Z = false)
    by (rewrite Z.gtb_ltb; apply Z.ltb_ge; lia).
  rewrite Hgt.
  set (dx := int _).
  assert (Hdx : (dx <= 0)%Z).
  { unfold dx. apply int_nonpos. unfold Vector2.scale; cbn [Vector2.x].
    assert (0 <= dt_ms / (1000 / IZR FPS)).
    { unfold FPS. apply Rmult_le_pos; [exact Hdt |].
      left. apply Rinv_0_lt_compat. lra. }
    nra. }
  set (r0 := Rect.set_y _ _).
  assert (Hx0 : Rect.x r0 = (Rect.x (Ball.rect b) + dx)%Z) by reflexivity.
  assert (Hw0 : Rect.w r0 = Rect.w (Ball.rect b)) by reflexivity.
  set (wall := if (Rect.top r0 <=? 0)%Z then _ else _).
  assert (Hwall : Rect.x (fst wall) = Rect.x r0 /\ Rect.w (fst wall) = Rect.w r0).
  { unfold wall. destruct (Rect.top r0 <=? 0)%Z; [split; reflexivity |].
    destruct (Rect.bottom r0 >=? Bounds.height bounds)%Z; split; reflexivity. }
  destruct wall as [r v]; cbn [fst] in Hwall. destruct Hwall as [Hx Hww].
  destruct paddles as [left_paddle right_paddle].
  unfold Rect.right in Hpast.
  assert (Hr : (Rect.right r <? 0)%Z = true)
    by (apply Z.ltb_lt; unfold Rect.right; lia).
  rewrite Hr. eexists; split; reflexivity.
Qed.

(** X15.  The mirror image of the right exit.  When an active ball is
    past the left boundary and moving left, [Ball.update] returns 1, the
    right side scoring; the frame update adds the point to the right
    score and re-serves with [to_left = True]: the new velocity has
    [x < 0], toward the left side that conceded. *)
Theorem left_exit_scores_right_and_serves_left
    (k : Game.keys) (jitter : R) (d : Ball.serve_draw) (dt_ms : R) (g : Game.t) :
  Game.winner g = None ->
  (Ball.serve_cooldown (Game.ball g) <= 0)%Z ->
  (Rect.right (Ball.rect (Game.ball g)) < 0)%Z ->
  (0 < Bounds.height (Game.bounds g))%Z ->
  Vector2.x (Ball.velocity (Game.ball g)) < 0 ->
  0 < Ball.speed (Game.ball g) ->
  0 <= dt_ms ->
  Ball.valid_draw d ->
  exists fuel : nat,
    forall fuel' : nat,
      (fuel <= fuel')%nat ->
      exists g',
        Game.update fuel' k jitter d dt_ms g = Ok g' /\
        Game.score g' = Game.add_point 1 (Game.score g) /\
        Ball.serve_cooldown (Game.ball g') = COUNTDOWN_TIME /\
        Ball.speed (Game.ball g') =
          Rmin BALL_SPEED_MAX (Ball.speed (Game.ball g) + BALL_SPEED_INCREMENT) /\
        Vector2.x (Ball.velocity (Game.ball g')) < 0.
Proof.
  intros Hw Hcd Hpast Hheight Hvx Hspeed Hdt Hd.
  destruct (update_ai_total (Ball.rect (Game.ball g)) (Ball.velocity (Game.ball g))
              (Game.bounds g) (Game.right_paddle g) Hheight) as [fuel Hfuel].
  exists fuel; intros fuel' Hle.
  destruct (Hfuel fuel' jitter (Game.dt_px dt_ms) Hle) as [rp Hai].
  set (lp := Paddle.update (Game.dt_px dt_ms) (Game.bounds g)
               (Game.handle_input k (Game.left_paddle g))).
  destruct (update_left_exit dt_ms (Game.bounds g) (lp, AIPaddle.base rp)
              (Game.ball g) Hcd Hpast Hvx Hdt) as (b1 & Hball & Hs1).
  destruct (reset_spec (Bounds.center (Game.bounds g)) (Some (Nat.eqb 1 1)) d b1)
    as (b2 & Hreset & _ & Hs2 & Hcd2 & Hvx2 & _).
  exists (Game.mk (Game.bounds g) lp rp b2 (Game.add_point 1 (Game.score g))
            (if (nth 1 (Game.add_point 1 (Game.score g)) 0%Z >=? SCORE_TO_WIN)%Z
             then Some 1%nat else Game.winner g)).
  cbn [Game.score Game.ball].
  split; [| repeat split; try assumption].
  - unfold Game.update. rewrite Hw. fold lp. rewrite Hai. cbn [bind].
    rewrite Hball. cbn [bind]. rewrite Hreset. cbn [bind]. reflexivity.
  - rewrite Hs2, Hs1. reflexivity.
  - rewrite Hvx2. cbn [Nat.eqb].
    assert (Hcos : 0 < Rabs (cos (Vector2.radians (Ball.chosen_angle d))))
      by (apply Rabs_pos_lt, cos_chosen_angle_nonzero, Hd).
    assert (Hs : 0 < Ball.speed b1) by (rewrite Hs1; apply sped_up_pos, Hspeed).
    nra.
Qed.

Lemma left_exit_scores_right_and_serves_left_witness :
  let g := Game.mk (Bounds.mk 800 600)
             (Paddle.init 30 250 12 100 PADDLE_SPEED)
             (AIPaddle.init 758 250 12 100 (PADDLE_SPEED * 0.95))
             (Ball.mk (Rect.mk (-15) 293 14 14) (Vector2.mk (-5) 0) 5 0)
             [0%Z; 0%Z] None in
  exists fuel : nat,
    forall fuel' : nat,
      (fuel <= fuel')%nat ->
      exists g',
        Game.update fuel' no_keys 0 first_draw 16 g = Ok g' /\
        Game.score g' = Game.add_point 1 (Game.score g) /\
        Ball.serve_cooldown (Game.ball g') = COUNTDOWN_TIME /\
        Ball.speed (Game.ball g') =
          Rmin BALL_SPEED_MAX (Ball.speed (Game.ball g) + BALL_SPEED_INCREMENT) /\
        Vector2.x (Ball.velocity (Game.ball g')) < 0.
Proof.
  intros g.
  apply (left_exit_scores_right_and_serves_left no_keys 0 first_draw 16 g);
    unfold g;
    cbn [Game.winner Game.ball Game.bounds Ball.serve_cooldown Ball.rect
         Ball.velocity Ball.speed Bounds.height Vector2.x];
    first [ exact first_draw_valid | reflexivity | lra | lia ].
Defined.

(** ** The game never fails *)



(** ** The speeds the ball can have *)



(** ** The paddles of a running game *)





(** ** Scores and the winner *)






(** ** The countdown on the screen *)

Lemma update_cooldown_le (dt_ms : R) (bounds : Bounds.t)
    (paddles : Paddle.t * Paddle.t) (b b' : Ball.t) (scored : option nat) :
  0 <= dt_ms ->
  Ball.update dt_ms bounds paddles b = Ok (b', scored) ->
  (Ball.serve_cooldown b' <= Ball.serve_cooldown b)%Z.
Proof.
  intros Hdt Hup.
  destruct (Z_le_gt_dec (Ball.serve_cooldown b) 0) as [Hactive | Hserving].
  - destruct (update_active_inv _ _ _ _ _ _ Hactive Hup) as [Hcd _]. lia.
  - unfold Ball.update in Hup.
    assert (Hgt : (Ball.serve_cooldown b >? 0)%Z = true) by (apply Z.gtb_lt; lia).
    rewrite Hgt in Hup. injection Hup as <- <-. cbn [Ball.serve_cooldown].
    pose proof (int_nonneg dt_ms Hdt). lia.
Qed.

Lemma restart_resets_match_aux (d : Ball.serve_draw) (g : Game.t) :
  exists g',
    Game.restart d g = Ok g' /\
    Ball.serve_cooldown (Game.ball g') = COUNTDOWN_TIME.
Proof.
  unfold Game.restart.
  set (b0 := Ball.mk _ _ _ _).
  destruct (reset_spec (Bounds.center (Game.bounds g)) None d b0)
    as (b' & Hreset & _ & _ & Hcd & _).
  rewrite Hreset. cbn [bind]. eexists. split; [reflexivity | exact Hcd].
Qed.

Lemma reachable_cooldown_le (g : Game.t) :
  Game.reachable g ->
  (Ball.serve_cooldown (Game.ball g) <= COUNTDOWN_TIME)%Z.
Proof.
  induction 1 as [d g _ Hinit | l g g' Hreach IH Hstep].
  - unfold Game.init in Hinit.
    set (b0 := Ball.init _ _ _ _) in Hinit.
    destruct (reset_spec (Bounds.center (Bounds.mk WIDTH HEIGHT)) None d b0)
      as (b' & Hreset & _ & _ & Hcd & _).
    rewrite Hreset in Hinit. cbn [bind] in Hinit. injection Hinit as <-.
    cbn [Game.ball]. lia.
  - destruct Hstep as [fuel k jitter d dt_ms g g' _ _ Hdt Hup | d g g' _ _ Hre].
    + destruct (game_update_inv _ _ _ _ _ _ _ Hup)
        as [[_ ->] | (_ & rp & b1 & scored & _ & Hball & _ & _ & _ & Hrest)];
        [exact IH |].
      cbv zeta in Hball. destruct scored as [side |].
      * destruct Hrest as [Hreset _].
        destruct (reset_spec (Bounds.center (Game.bounds g))
                    (Some (Nat.eqb side 1)) d b1)
          as (b2 & Hreset' & _ & _ & Hcd & _).
        rewrite Hreset in Hreset'. injection Hreset' as <-. lia.
      * destruct Hrest as (-> & _).
        pose proof (update_cooldown_le _ _ _ _ _ _ Hdt Hball). lia.
    + destruct (restart_resets_match_aux d g) as (g2 & Hre' & Hcd).
      rewrite Hre in Hre'. injection Hre' as <-. lia.
Qed.

(** X21.  Whenever the "Serve in N" text is drawn in a reachable game,
    [N] is [serve_cooldown // 400 + 1]: a number from 1 to 4 that counts
    steps of 400 ms, showing 4 right after a reset. *)
Theorem hud_countdown_range (g : Game.t) (n : Z) :
  Game.reachable g ->
  hud_serve_seconds g = Some n ->
  n = (Ball.serve_cooldown (Game.ball g) / 400 + 1)%Z /\ (1 <= n <= 4)%Z.
Proof.
  intros Hreach. pose proof (reachable_cooldown_le g Hreach) as Hle.
  unfold COUNTDOWN_TIME in Hle. unfold hud_serve_seconds.
  destruct (Game.winner g); [discriminate |].
  destruct (Z.gtb_spec (Ball.serve_cooldown (Game.ball g)) 0) as [Hpos | Hnonpos];
    [| discriminate].
  rewrite (int_div_nonneg (Ball.serve_cooldown (Game.ball g)) 400) by lia.
  intros [= <-].
  assert (Hlo : (0 <= Ball.serve_cooldown (Game.ball g) / 400)%Z)
    by (apply Z.div_pos; lia).
  assert (Hhi : (Ball.serve_cooldown (Game.ball g) / 400 <= 3)%Z).
  { change 3%Z with (1200 / 400)%Z. apply Z.div_le_mono; lia. }
  split; lia.
Qed.

Lemma hud_countdown_range_witness :
  hud_serve_seconds first_game = Some 4%Z /\
  4%Z = (Ball.serve_cooldown (Game.ball first_game) / 400 + 1)%Z /\
  (1 <= 4 <= 4)%Z.
Proof.
  assert (Hhud : hud_serve_seconds first_game = Some 4%Z).
  { unfold hud_serve_seconds, first_game;
      cbn [Game.winner Game.ball Ball.serve_cooldown].
    change (1200 >? 0)%Z with true. cbv iota.
    rewrite (int_div_nonneg 1200 400) by lia. reflexivity. }
  split; [exact Hhud |].
  apply (hud_countdown_range first_game 4 first_game_reachable Hhud).
Defined.

(** ** The main loop *)

Lemma restart_total (d : Ball.serve_draw) (g : Game.t) :
  exists g', Game.restart d g = Ok g'.
Proof.
  destruct (restart_resets_match_aux d g) as (g' & Hre & _). eauto.
Qed.

(** X22.  Once a winner is recorded the game is frozen: a pass of the
    main loop whose events contain neither a quit nor the [r] key returns
    the very same state, whatever the keys held, the draws and the elapsed
    time. *)
Theorem frame_is_frozen_after_win (fuel : nat)
    (evs : list (GameLoop.event * Ball.serve_draw)) (k : Game.keys)
    (jitter : R) (d : Ball.serve_draw) (dt_ms : R) (g : Game.t) :
  Game.winner g <> None ->
  Forall (fun ed => fst ed = GameLoop.OTHER
                    \/ fst ed = GameLoop.KEYDOWN GameLoop.K_other) evs ->
  GameLoop.frame fuel evs k jitter d dt_ms g = Ok (GameLoop.Running g).
Proof.
  intros Hwin Hall. unfold GameLoop.frame.
  assert (Hevs : GameLoop.handle_events evs g = Ok (GameLoop.Running g)).
  { induction Hall as [| [ev dr] rest Hev _ IH]; [reflexivity |].
    cbn [GameLoop.handle_events]. cbn [fst] in Hev.
    destruct Hev as [-> | ->]; cbn [GameLoop.handle_event bind]; exact IH. }
  rewrite Hevs. cbn [bind]. unfold Game.update.
  destruct (Game.winner g); [reflexivity | now elim Hwin].
Qed.

Lemma frame_is_frozen_after_win_witness :
  let g := Game.mk (Bounds.mk 800 600)
             (Paddle.init 30 250 12 100 PADDLE_SPEED)
             (AIPaddle.init 758 250 12 100 (PADDLE_SPEED * 0.95))
             (Ball.mk (Rect.mk 393 293 14 14) (Vector2.mk 5 0) 7.5 1200)
             [11%Z; 3%Z] (Some 0%nat) in
  GameLoop.frame 0 [(GameLoop.OTHER, first_draw);
                    (GameLoop.KEYDOWN GameLoop.K_other, first_draw)]
    (Game.mk_keys true false) 0 first_draw 16 g = Ok (GameLoop.Running g).
Proof.
  intros g.
  apply (frame_is_frozen_after_win 0
           [(GameLoop.OTHER, first_draw);
            (GameLoop.KEYDOWN GameLoop.K_other, first_draw)]
           (Game.mk_keys true false) 0 first_draw 16 g).
  - unfold g; cbn [Game.winner]. discriminate.
  - constructor; [left; reflexivity |].
    constructor; [right; reflexivity | constructor].
Defined.

(** X23.  While no winner is recorded the [r] key does nothing: events
    that do not quit leave the state as it is, so the frame is just the
    update of that state. *)
Theorem restart_key_needs_a_winner (fuel : nat)
    (evs : list (GameLoop.event * Ball.serve_draw)) (k : Game.keys)
    (jitter : R) (d : Ball.serve_draw) (dt_ms : R) (g : Game.t) :
  Game.winner g = None ->
  Forall (fun ed => GameLoop.quits (fst ed) = false) evs ->
  GameLoop.handle_events evs g = Ok (GameLoop.Running g) /\
  GameLoop.frame fuel evs k jitter d dt_ms g =
    (g' <- Game.update fuel k jitter d dt_ms g ;; Ok (GameLoop.Running g')).
Proof.
  intros Hwin Hall.
  assert (Hevs : GameLoop.handle_events evs g = Ok (GameLoop.Running g)).
  { induction Hall as [| [ev dr] rest Hev _ IH]; [reflexivity |].
    cbn [GameLoop.handle_events]. cbn [fst] in Hev.
    destruct ev as [| [| |] |]; cbn [GameLoop.quits] in Hev; try discriminate;
      cbn [GameLoop.handle_event bind]; try exact IH.
    rewrite Hwin. cbn [bind]. exact IH. }
  split; [exact Hevs |].
  unfold GameLoop.frame. rewrite Hevs. reflexivity.
Qed.

Lemma restart_key_needs_a_winner_witness :
  GameLoop.handle_events [(GameLoop.KEYDOWN GameLoop.K_r, first_draw)] first_game
    = Ok (GameLoop.Running first_game) /\
  GameLoop.frame 0 [(GameLoop.KEYDOWN GameLoop.K_r, first_draw)] no_keys 0
    first_draw 1 first_game =
    (g' <- Game.update 0 no_keys 0 first_draw 1 first_game ;;
     Ok (GameLoop.Running g')).
Proof.
  apply (restart_key_needs_a_winner 0 [(GameLoop.KEYDOWN GameLoop.K_r, first_draw)]
           no_keys 0 first_draw 1 first_game).
  - reflexivity.
  - repeat constructor.
Defined.

(** X24.  A quit event (window close or Escape) anywhere among the events
    of a frame ends the program in that frame: the loop exits without
    running the update, whatever the other events are. *)
Theorem quit_event_ends_the_loop (fuel : nat)
    (evs : list (GameLoop.event * Ball.serve_draw)) (k : Game.keys)
    (jitter : R) (d : Ball.serve_draw) (dt_ms : R) (g : Game.t) :
  Exists (fun ed => GameLoop.quits (fst ed) = true) evs ->
  GameLoop.frame fuel evs k jitter d dt_ms g = Ok GameLoop.Exited.
Proof.
  intros Hquit. unfold GameLoop.frame.
  assert (Hevs : GameLoop.handle_events evs g = Ok GameLoop.Exited).
  { revert g. induction evs as [| [ev dr] rest IH]; intros g.
    - inversion Hquit.
    - cbn [GameLoop.handle_events].
      destruct ev as [| [| |] |]; cbn [GameLoop.handle_event bind];
        try reflexivity.
      + destruct (Game.winner g).
        * destruct (restart_total dr g) as [g' Hre]. rewrite Hre. cbn [bind].
          apply IH. inversion Hquit as [? ? Hhere | ? ? Hlater]; [| exact Hlater].
          discriminate Hhere.
        * cbn [bind]. apply IH.
          inversion Hquit as [? ? Hhere | ? ? Hlater]; [| exact Hlater].
          discriminate Hhere.
      + apply IH. inversion Hquit as [? ? Hhere | ? ? Hlater]; [| exact Hlater].
        discriminate Hhere.
      + apply IH. inversion Hquit as [? ? Hhere | ? ? Hlater]; [| exact Hlater].
        discriminate Hhere. }
  rewrite Hevs. reflexivity.
Qed.

Lemma quit_event_ends_the_loop_witness :
  GameLoop.frame 0 [(GameLoop.KEYDOWN GameLoop.K_r, first_draw);
                    (GameLoop.QUIT, first_draw);
                    (GameLoop.OTHER, first_draw)]
    no_keys 0 first_draw 16 first_game = Ok GameLoop.Exited.
Proof.
  apply (quit_event_ends_the_loop 0
           [(GameLoop.KEYDOWN GameLoop.K_r, first_draw);
            (GameLoop.QUIT, first_draw);
            (GameLoop.OTHER, first_draw)]
           no_keys 0 first_draw 16 first_game).
  apply Exists_cons_tl, Exists_cons_hd. reflexivity.
Defined.

(** ** The scoring tick seen from the ball alone *)

(** X25.  [Ball.update] by itself does not keep the velocity in step with
    the speed when it scores: the speed is raised while the velocity keeps
    its length, so below the maximum speed the returned ball is slower
    than its own [speed] says until [reset] is called on it. *)
Theorem scoring_update_leaves_velocity_behind (dt_ms : R) (bounds : Bounds.t)
    (paddles : Paddle.t * Paddle.t) (b b' : Ball.t) (side : nat) :
  Vector2.length (Ball.velocity b) = Ball.speed b ->
  Ball.speed b < BALL_SPEED_MAX ->
  Ball.update dt_ms bounds paddles b = Ok (b', Some side) ->
  Vector2.length (Ball.velocity b') = Ball.speed b /\
  Ball.speed b < Ball.speed b' /\
  Vector2.length (Ball.velocity b') < Ball.speed b'.
Proof.
  intros Hlen Hmax Hup.
  pose proof (update_inv _ _ _ _ _ _ Hup) as (_ & _ & Hs & Hl).
  assert (Hlt : Ball.speed b < Ball.speed b').
  { rewrite Hs. unfold sped_up, BALL_SPEED_MAX, BALL_SPEED_INCREMENT in *.
    apply Rmin_glb_lt; lra. }
  rewrite Hl, Hlen. repeat split; lra.
Qed.

Lemma scoring_update_leaves_velocity_behind_witness :
  let b := Ball.mk (Rect.mk 801 293 14 14) (Vector2.mk 5 0) 5 0 in
  let paddles := (Paddle.init 30 250 12 100 6, Paddle.init 758 250 12 100 6) in
  exists b',
    Ball.update 16 (Bounds.mk 800 600) paddles b = Ok (b', Some 0%nat) /\
    Vector2.length (Ball.velocity b') = Ball.speed b /\
    Ball.speed b < Ball.speed b' /\
    Vector2.length (Ball.velocity b') < Ball.speed b'.
Proof.
  intros b paddles.
  destruct (update_right_exit 16 (Bounds.mk 800 600) paddles b)
    as (b' & Hup & _);
    try (unfold b; cbn [Ball.serve_cooldown Ball.rect Ball.velocity Bounds.width
                        Rect.left Rect.x Rect.w Vector2.x]; first [lia | lra]).
  exists b'. split; [exact Hup |].
  apply (scoring_update_leaves_velocity_behind 16 (Bounds.mk 800 600) paddles b b' 0);
    [| | exact Hup].
  - unfold b, Vector2.length; cbn [Ball.velocity Ball.speed Vector2.x Vector2.y].
    replace (5 * 5 + 0 * 0) with (5 * 5) by ring. apply sqrt_square. lra.
  - unfold b, BALL_SPEED_MAX; cbn [Ball.speed]. lra.
Defined.

(** ** The direction the AI paddle moves in *)



(** * A match played through

    The statements about reachable states are exercised on one match: a
    serve to the left, the left paddle moved down by 25 pixels during the
    countdown, the ball bouncing off that paddle, and then the right side
    scoring eleven points in a row. *)

(** ** Frames of a reachable game *)

Lemma left_draw_valid : Ball.valid_draw left_draw.
Proof. unfold Ball.valid_draw, left_draw; cbn; lra. Qed.

Lemma left_serve_game_init : Game.init left_draw = Ok left_serve_game.
Proof.
  unfold Game.init, Ball.reset.
  set (dir := Vector2.rotate (Ball.chosen_angle left_draw) (Vector2.mk 1 0)).
  assert (Hdir : dir = Vector2.mk (-1) 0).
  { unfold dir, Vector2.rotate, Ball.chosen_angle, left_draw.
    cbn [Ball.pick_second Ball.second_angle Vector2.x Vector2.y].
    rewrite radians_180, cos_PI, sin_PI. f_equal; ring. }
  rewrite Hdir.
  rewrite (normalize_unit (Vector2.mk (-1) 0)) by (apply length_unit_x; now right).
  cbn [bind].
  assert (Hcx : int (Vector2.x (Bounds.center (Bounds.mk WIDTH HEIGHT))) = 400%Z).
  { cbn [Bounds.center Vector2.x Bounds.width]. unfold WIDTH.
    replace (800 / 2) with (IZR 400) by lra. apply int_IZR. }
  assert (Hcy : int (Vector2.y (Bounds.center (Bounds.mk WIDTH HEIGHT))) = 300%Z).
  { cbn [Bounds.center Vector2.y Bounds.height]. unfold HEIGHT.
    replace (600 / 2) with (IZR 300) by lra. apply int_IZR. }
  rewrite Hcx, Hcy.
  unfold left_serve_game. f_equal. f_equal.
  unfold Ball.init, BALL_SPEED_START, Vector2.scale;
    cbn [Ball.rect Ball.speed Vector2.x Vector2.y].
  f_equal. f_equal; ring.
Qed.

Lemma left_serve_game_reachable : Game.reachable left_serve_game.
Proof.
  exact (Game.reachable_init left_draw left_serve_game left_draw_valid
           left_serve_game_init).
Qed.

(** A reachable game takes a frame of any length, with any keys held and
    any valid draw; the jitter draw is taken to be zero. *)
Lemma reachable_tick (g : Game.t) (k : Game.keys) (d : Ball.serve_draw)
    (dt_ms : R) :
  Game.reachable g ->
  (0 <= AIPaddle.error_margin (Game.right_paddle g))%Z ->
  Ball.valid_draw d ->
  0 <= dt_ms ->
  exists fuel g',
    Game.update fuel k 0 d dt_ms g = Ok g' /\
    Game.step Game.Tick g g' /\
    Game.reachable g'.
Proof.
  intros Hreach Hmargin Hd Hdt.
  destruct (game_update_total g (reachable_invariant g Hreach)) as [fuel Htotal].
  destruct (Htotal fuel k 0 d dt_ms (Nat.le_refl fuel)) as [g' Hup].
  assert (Hstep : Game.step Game.Tick g g').
  { apply (Game.step_tick fuel k 0 d dt_ms); try assumption.
    rewrite Rabs_R0. now apply IZR_le. }
  exists fuel, g'. split; [exact Hup |]. split; [exact Hstep |].
  exact (Game.reachable_step Game.Tick g g' Hreach Hstep).
Qed.

(** A frame during the countdown: the ball only counts down. *)
Lemma serving_tick_inv (fuel : nat) (k : Game.keys) (jitter : R)
    (d : Ball.serve_draw) (dt_ms : R) (g g' : Game.t) :
  Game.update fuel k jitter d dt_ms g = Ok g' ->
  Game.winner g = None ->
  (0 < Ball.serve_cooldown (Game.ball g))%Z ->
  Game.bounds g' = Game.bounds g /\
  Game.winner g' = None /\
  Game.score g' = Game.score g /\
  Game.left_paddle g' =
    Paddle.update (Game.dt_px dt_ms) (Game.bounds g)
      (Game.handle_input k (Game.left_paddle g)) /\
  Game.ball g' =
    Ball.mk (Ball.rect (Game.ball g)) (Ball.velocity (Game.ball g))
      (Ball.speed (Game.ball g))
      (Ball.serve_cooldown (Game.ball g) - int dt_ms) /\
  AIPaddle.error_margin (Game.right_paddle g')
    = AIPaddle.error_margin (Game.right_paddle g).
Proof.
  intros Hup Hw Hcd.
  destruct (game_update_inv _ _ _ _ _ _ _ Hup)
    as [[Hw' _] | (_ & rp & b1 & scored & Hai & Hball & Hb & Hlp & Hrp & Hrest)];
    [now elim Hw' |].
  cbv zeta in Hball. unfold Ball.update in Hball.
  assert (Hgt : (Ball.serve_cooldown (Game.ball g) >? 0)%Z = true)
    by (apply Z.gtb_lt; lia).
  rewrite Hgt in Hball. injection Hball as <- <-.
  destruct Hrest as (Hball' & Hscore & Hwin).
  destruct (update_ai_inv _ _ _ _ _ _ _ _ Hai) as [_ Hmargin].
  rewrite Hrp. repeat split; assumption.
Qed.

(** A paddle inside the field stays where it is while no key is held. *)
Lemma idle_paddle_keeps_rect (dt : R) (bounds : Bounds.t) (p : Paddle.t) :
  (0 <= Rect.top (Paddle.rect p))%Z ->
  (Rect.bottom (Paddle.rect p) <= Bounds.height bounds)%Z ->
  Paddle.rect (Paddle.update dt bounds (Game.handle_input no_keys p))
    = Paddle.rect p.
Proof.
  intros Htop Hbottom.
  unfold Game.handle_input, no_keys; cbn [Game.K_w Game.K_s].
  unfold Paddle.update, Paddle.set_velocity, Paddle.set_rect;
    cbn [Paddle.rect Paddle.velocity Paddle.speed].
  rewrite Rmult_0_l. change 0 with (IZR 0). rewrite int_IZR, Z.add_0_r.
  destruct (Paddle.rect p) as [x y w h].
  unfold Rect.set_y, Rect.top, Rect.bottom, Rect.set_top, Rect.set_bottom in *;
    cbn [Rect.x Rect.y Rect.w Rect.h] in *.
  assert (H1 : (y <? 0)%Z = false) by (apply Z.ltb_ge; lia).
  rewrite H1; cbn [Rect.x Rect.y Rect.w Rect.h].
  assert (H2 : (y + h >? Bounds.height bounds)%Z = false)
    by (rewrite Z.gtb_ltb; apply Z.ltb_ge; lia).
  rewrite H2. reflexivity.
Qed.

Lemma int_trunc (r : R) (z : Z) : 0 <= r -> IZR z <= r < IZR z + 1 -> int r = z.
Proof.
  intros Hpos Hr. unfold int. destruct (Rle_dec 0 r) as [_ | Hneg]; [| lra].
  apply Zfloor_eq. exact Hr.
Qed.

(** The size and the horizontal position of the moved ball do not depend
    on the wall check. *)
Lemma moved_ball_x (dt_ms : R) (bounds : Bounds.t) (b : Ball.t) :
  Rect.x (fst (moved_ball dt_ms bounds b))
    = (Rect.x (Ball.rect b)
       + int (Vector2.x (Ball.velocity b) * (dt_ms / (1000 / IZR FPS))))%Z /\
  Rect.w (fst (moved_ball dt_ms bounds b)) = Rect.w (Ball.rect b) /\
  Rect.h (fst (moved_ball dt_ms bounds b)) = Rect.h (Ball.rect b).
Proof.
  unfold moved_ball. cbv zeta.
  destruct (Rect.top _ <=? 0)%Z; [| destruct (Rect.bottom _ >=? _)%Z];
    cbn [fst]; repeat split.
Qed.

(** ** The first rally *)

(** Frame 1: 70 ms with [K_s] held move the left paddle down by
    [int(6 * 4.2) = 25] pixels while the ball counts down. *)
Lemma first_rally_starts :
  exists g1,
    Game.step Game.Tick left_serve_game g1 /\
    Game.reachable g1 /\
    first_rally 1130 g1.
Proof.
  destruct (reachable_tick left_serve_game s_key left_draw 70
              left_serve_game_reachable ltac:(cbn; lia) left_draw_valid ltac:(lra))
    as (fuel & g1 & Hup & Hstep & Hreach).
  exists g1. split; [exact Hstep |]. split; [exact Hreach |].
  destruct (serving_tick_inv _ _ _ _ _ _ _ Hup eq_refl ltac:(cbn; lia))
    as (Hb & Hw & Hs & Hlp & Hball & Hem).
  unfold first_rally. rewrite Hb, Hw, Hs, Hlp, Hball, Hem.
  repeat split.
  - unfold left_serve_game; cbn [Game.left_paddle Game.bounds].
    unfold Game.handle_input, s_key; cbn [Game.K_w Game.K_s].
    unfold Paddle.update, Paddle.set_velocity, Paddle.set_rect, Paddle.init;
      cbn [Paddle.rect Paddle.velocity Paddle.speed].
    assert (Hdy : int ((0 + PADDLE_SPEED) * Game.dt_px 70) = 25%Z).
    { apply int_trunc; unfold PADDLE_SPEED, Game.dt_px, FPS; lra. }
    rewrite Hdy. reflexivity.
  - unfold left_serve_game; cbn [Game.ball Ball.rect Ball.velocity Ball.speed
                                 Ball.serve_cooldown].
    change 70 with (IZR 70). rewrite int_IZR. reflexivity.
Qed.

(** Frame 2: the rest of the countdown, no key held. *)
Lemma first_rally_counts_down (cooldown : Z) (g : Game.t) :
  Game.reachable g ->
  first_rally cooldown g ->
  (0 < cooldown)%Z ->
  exists g',
    Game.step Game.Tick g g' /\
    Game.reachable g' /\
    first_rally 0 g'.
Proof.
  intros Hreach (Hb0 & Hw0 & Hs0 & Hlp0 & Hball0 & Hem0) Hcd.
  destruct (reachable_tick g no_keys left_draw (IZR cooldown)
              Hreach ltac:(rewrite Hem0; lia) left_draw_valid
              ltac:(apply IZR_le; lia))
    as (fuel & g' & Hup & Hstep & Hreach').
  exists g'. split; [exact Hstep |]. split; [exact Hreach' |].
  destruct (serving_tick_inv _ _ _ _ _ _ _ Hup Hw0
              ltac:(rewrite Hball0; cbn; lia))
    as (Hb & Hw & Hs & Hlp & Hball & Hem).
  unfold first_rally. rewrite Hb, Hw, Hs, Hlp, Hball, Hem, Hb0, Hs0, Hem0.
  repeat split.
  - rewrite idle_paddle_keeps_rect; rewrite Hlp0; [reflexivity | |];
      unfold Rect.top, Rect.bottom; cbn; lia.
  - rewrite Hball0; cbn [Ball.rect Ball.velocity Ball.speed Ball.serve_cooldown].
    rewrite int_IZR. f_equal. lia.
Qed.

Lemma sqrt_3_bounds : 1 <= sqrt 3 <= 2.
Proof.
  split.
  - rewrite <- sqrt_1 at 1. apply sqrt_le_1_alt. lra.
  - apply Rle_trans with (sqrt (2 * 2)).
    + apply sqrt_le_1_alt. lra.
    + rewrite sqrt_square; lra.
Qed.

(** The velocity after the first hit: up at 30 degrees, still leftward. *)
Lemma first_hit_velocity :
  let v := Vector2.scale (Vector2.rotate (-30) (Vector2.mk (-1) 0)) 5.25 in
  Vector2.y v = 2.625 /\ -5.25 <= Vector2.x v <= -2.625.
Proof.
  cbv zeta. unfold Vector2.scale, Vector2.rotate; cbn [Vector2.x Vector2.y].
  replace (Vector2.radians (-30)) with (- (PI / 6))
    by (unfold Vector2.radians; field).
  rewrite cos_neg, sin_neg, cos_PI6, sin_PI6.
  pose proof sqrt_3_bounds. lra.
Qed.

(** The move of frame 3: 1181 ms carry the ball 354.3 pixels to the left,
    which [int] truncates to 354 (355 if the product were rounded down a
    whole pixel: either way the ball ends on the left paddle). *)
Lemma first_rally_moved_ball :
  exists dx : Z,
    (-355 <= dx <= -354)%Z /\
    moved_ball 1181 (Bounds.mk 800 600)
      (Ball.mk (Rect.mk 393 293 14 14) (Vector2.mk (-5) 0) 5 0)
    = (Rect.mk (393 + dx) 293 14 14, Vector2.mk (-5) 0).
Proof.
  exists (int (-5 * (1181 / (1000 / IZR FPS)))).
  split.
  - pose proof (int_within_one (-5 * (1181 / (1000 / IZR FPS)))) as Hdx.
    set (dx := int (-5 * (1181 / (1000 / IZR FPS)))) in *. clearbody dx.
    unfold FPS in Hdx.
    assert (H1 : IZR (-356) < IZR dx) by lra.
    assert (H2 : IZR dx < IZR (-353)) by lra.
    apply lt_IZR in H1, H2. lia.
  - unfold moved_ball, Vector2.scale;
      cbn [Ball.rect Ball.velocity Vector2.x Vector2.y].
    rewrite Rmult_0_l. change 0 with (IZR 0) at 1. rewrite int_IZR.
    reflexivity.
Qed.

(** The bounce angle of frame 3: the ball centre (300) is 25 pixels above
    the centre of the moved paddle (325). *)
Lemma first_hit_angle : spec_bounce_angle 300 325 100 = -30.
Proof.
  unfold spec_bounce_angle, normalized_hit_offset, clamp.
  change (300 - 325)%Z with (-25)%Z.
  unfold Rmax, Rmin.
  destruct (Rle_dec 1 (-25 / (100 / 2))) as [H | H]; [lra |].
  destruct (Rle_dec (-1) (-25 / (100 / 2))) as [H' | H']; lra.
Qed.

(** Frame 3: 1181 ms after the countdown the ball overlaps the left
    paddle and bounces off it; the speed goes from 5 to 5.25. *)
Lemma first_rally_hit (g : Game.t) :
  Game.reachable g ->
  first_rally 0 g ->
  exists g',
    Game.step Game.Tick g g' /\
    Game.reachable g' /\
    after_first_hit g' /\
    exists paddles,
      Ball.update 1181 (Game.bounds g) paddles (Game.ball g)
        = Ok (Game.ball g', None).
Proof.
  intros Hreach (Hb0 & Hw0 & Hs0 & Hlp0 & Hball0 & Hem0).
  destruct (reachable_tick g no_keys left_draw 1181
              Hreach ltac:(rewrite Hem0; lia) left_draw_valid ltac:(lra))
    as (fuel & g' & Hup & Hstep & Hreach').
  exists g'. split; [exact Hstep |]. split; [exact Hreach' |].
  destruct (game_update_inv _ _ _ _ _ _ _ Hup)
    as [[Hw' _] | (_ & rp & b1 & scored & Hai & Hball & Hb & Hlp & Hrp & Hrest)];
    [now elim Hw' |].
  cbv zeta in Hball, Hlp.
  set (lp := Paddle.update (Game.dt_px 1181) (Game.bounds g)
               (Game.handle_input no_keys (Game.left_paddle g))) in *.
  assert (Hlp_rect : Paddle.rect lp = Rect.mk 30 275 12 100).
  { unfold lp. rewrite idle_paddle_keeps_rect; rewrite Hlp0, ?Hb0;
      [reflexivity | |]; unfold Rect.top, Rect.bottom; cbn; lia. }
  destruct first_rally_moved_ball as (dx & Hdx & Hmoved).
  assert (Hcd : (Ball.serve_cooldown (Game.ball g) <= 0)%Z)
    by (rewrite Hball0; cbn; lia).
  pose proof (update_hits_after_move 1181 (Game.bounds g) (lp, AIPaddle.base rp)
                (Game.ball g) Hcd) as Hhit.
  cbv zeta in Hhit. rewrite Hb0, Hball0, Hmoved in Hhit.
  cbn [fst snd Ball.speed Ball.serve_cooldown Vector2.x] in Hhit.
  destruct Hhit as [Hleft _].
  { unfold Rect.right; cbn [Rect.x Rect.w]. lia. }
  { unfold Rect.left; cbn [Rect.x Bounds.width]. lia. }
  rewrite Hb0, Hball0 in Hball. rewrite Hleft in Hball.
  2:{ split; [| lra]. rewrite Hlp_rect.
      assert (Hcases : dx = (-355)%Z \/ dx = (-354)%Z) by lia.
      destruct Hcases as [-> | ->]; reflexivity. }
  destruct (bounce_spec lp
              (Ball.mk (Rect.mk (393 + dx) 293 14 14) (Vector2.mk (-5) 0) 5 0))
    as (b' & Hbounce & Hspeed & Hcd' & _ & Hvel & Hrect).
  { rewrite Hlp_rect. discriminate. }
  rewrite Hbounce in Hball. cbn [bind] in Hball. injection Hball as <- <-.
  destruct Hrest as (Hball' & Hscore & Hwin).
  cbn [Ball.rect Ball.velocity Ball.speed Ball.serve_cooldown Vector2.x]
    in Hspeed, Hcd', Hvel, Hrect.
  rewrite Hlp_rect in Hvel, Hrect.
  rewrite (Rltb_false 0 (-5)) in Hvel by lra.
  rewrite (Rltb_true (-5) 0) in Hrect by lra.
  change (Rect.centery (Rect.mk (393 + dx) 293 14 14)) with 300%Z in Hvel.
  change (Rect.centery (Rect.mk 30 275 12 100)) with 325%Z in Hvel.
  change (Rect.height (Rect.mk 30 275 12 100)) with 100%Z in Hvel.
  rewrite first_hit_angle in Hvel.
  assert (Hspeed' : Ball.speed b' = 5.25).
  { rewrite Hspeed. unfold BALL_SPEED_MAX, BALL_SPEED_INCREMENT, Rmin.
    destruct (Rle_dec 12 (5 + 0.25)); lra. }
  split.
  - unfold after_first_hit. rewrite Hb, Hb0, Hwin, Hscore, Hs0, Hball', Hrp.
    rewrite Hrect, Hvel, Hspeed', Hcd'.
    destruct (update_ai_inv _ _ _ _ _ _ _ _ Hai) as [_ Hmargin].
    rewrite Hmargin, Hem0.
    repeat split.
  - exists (lp, AIPaddle.base rp). rewrite Hb0, Hball0, Hball'.
    rewrite Hleft.
    + rewrite Hbounce. reflexivity.
    + split; [| lra]. rewrite Hlp_rect.
      assert (Hcases : dx = (-355)%Z \/ dx = (-354)%Z) by lia.
      destruct Hcases as [-> | ->]; reflexivity.
Qed.

(** ** Points of the right side *)

(** The frame in which the move carries the ball past the left boundary:
    the right side gets the point, the winner is decided, and the ball is
    re-served to the left with the raised speed. *)
Lemma scoring_tick_inv (fuel : nat) (k : Game.keys) (jitter : R)
    (d : Ball.serve_draw) (dt_ms : R) (g g' : Game.t) :
  Game.update fuel k jitter d dt_ms g = Ok g' ->
  Game.winner g = None ->
  (Ball.serve_cooldown (Game.ball g) <= 0)%Z ->
  let r := fst (moved_ball dt_ms (Game.bounds g) (Game.ball g)) in
  let v := snd (moved_ball dt_ms (Game.bounds g) (Game.ball g)) in
  (Rect.right r < 0)%Z ->
  Game.bounds g' = Game.bounds g /\
  Game.score g' = Game.add_point 1 (Game.score g) /\
  Game.winner g' =
    (if (nth 1 (Game.add_point 1 (Game.score g)) 0%Z >=? SCORE_TO_WIN)%Z
     then Some 1%nat else None) /\
  Ball.reset (Bounds.center (Game.bounds g)) (Some true) d
    (Ball.mk r v (sped_up (Ball.speed (Game.ball g)))
       (Ball.serve_cooldown (Game.ball g)))
    = Ok (Game.ball g') /\
  AIPaddle.error_margin (Game.right_paddle g')
    = AIPaddle.error_margin (Game.right_paddle g).
Proof.
  intros Hup Hw Hcd r v Hout. unfold Game.update in Hup. rewrite Hw in Hup.
  destruct (AIPaddle.update_ai _ _ _ _ _ _ _) as [rp | e |] eqn:Hai;
    cbn [bind] in Hup; try discriminate.
  rewrite (update_scores_after_move dt_ms (Game.bounds g) _ (Game.ball g) Hcd
             (or_introl Hout)) in Hup.
  fold r v in Hup.
  assert (Hlt : (Rect.right r <? 0)%Z = true) by (apply Z.ltb_lt; exact Hout).
  rewrite Hlt in Hup. cbn [bind Nat.eqb] in Hup.
  destruct (Ball.reset _ _ _ _) as [b2 | e |] eqn:Hreset;
    cbn [bind] in Hup; try discriminate.
  injection Hup as <-.
  cbn [Game.bounds Game.score Game.winner Game.ball Game.right_paddle].
  destruct (update_ai_inv _ _ _ _ _ _ _ _ Hai) as [_ Hmargin].
  repeat split; assumption.
Qed.

(** After a serve to the left the active ball is carried out of the field
    by a frame of 2000 ms: the right side scores its next point and the
    next serve, again to the left, is 0.25 faster. *)
Lemma left_exit_tick (n : nat) (g : Game.t) :
  Game.reachable g ->
  Game.bounds g = Bounds.mk 800 600 ->
  Game.winner g = None ->
  Game.score g = [0%Z; Z.of_nat n] ->
  (n < 11)%nat ->
  Ball.serve_cooldown (Game.ball g) = 0%Z ->
  Rect.w (Ball.rect (Game.ball g)) = 14%Z ->
  Rect.h (Ball.rect (Game.ball g)) = 14%Z ->
  IZR (Rect.x (Ball.rect (Game.ball g)) + 14)
    + Vector2.x (Ball.velocity (Game.ball g)) * 120 <= -1 ->
  Ball.speed (Game.ball g) = 5.25 + INR n * 0.25 ->
  AIPaddle.error_margin (Game.right_paddle g) = 18%Z ->
  exists g',
    Game.step Game.Tick g g' /\
    Game.reachable g' /\
    left_run (S n) g'.
Proof.
  intros Hreach Hb0 Hw0 Hs0 Hn Hcd0 Hw14 Hh14 Hfar Hspeed0 Hem0.
  destruct (reachable_tick g no_keys left_draw 2000
              Hreach ltac:(rewrite Hem0; lia) left_draw_valid ltac:(lra))
    as (fuel & g' & Hup & Hstep & Hreach').
  exists g'. split; [exact Hstep |]. split; [exact Hreach' |].
  destruct (moved_ball_x 2000 (Game.bounds g) (Game.ball g)) as (Hx & Hw & Hh).
  assert (Hout : (Rect.right (fst (moved_ball 2000 (Game.bounds g) (Game.ball g)))
                  < 0)%Z).
  { unfold Rect.right. rewrite Hx, Hw, Hw14.
    pose proof (int_within_one
                  (Vector2.x (Ball.velocity (Game.ball g))
                   * (2000 / (1000 / IZR FPS)))) as Hdx.
    replace (2000 / (1000 / IZR FPS)) with 120 in * by (unfold FPS; lra).
    apply lt_IZR. rewrite !plus_IZR. rewrite plus_IZR in Hfar. lra. }
  destruct (scoring_tick_inv _ _ _ _ _ _ _ Hup Hw0
              ltac:(rewrite Hcd0; lia) Hout)
    as (Hb & Hscore & Hwin & Hreset & Hem).
  match type of Hreset with
  | Ball.reset ?c ?t ?d ?b = _ =>
      destruct (reset_spec c t d b) as (b2 & Hreset' & Hrect & Hs & Hcd & Hvx & Hvy & _)
  end.
  rewrite Hreset in Hreset'. injection Hreset' as <-.
  cbn [Ball.rect Ball.speed] in Hrect, Hs, Hvx, Hvy.
  assert (Hangle : Vector2.radians (Ball.chosen_angle left_draw) = PI)
    by exact radians_180.
  rewrite Hangle in Hvx, Hvy. rewrite cos_PI in Hvx. rewrite sin_PI in Hvy.
  replace (Rabs (-1)) with 1 in Hvx
    by (unfold Rabs; destruct (Rcase_abs (-1)); lra).
  assert (Hle : INR n <= 10).
  { replace 10 with (INR 10) by (simpl; lra). apply le_INR. lia. }
  assert (Hge : 0 <= INR n) by apply pos_INR.
  assert (Hsped : sped_up (Ball.speed (Game.ball g)) = 5.25 + INR (S n) * 0.25).
  { rewrite Hspeed0, S_INR.
    unfold sped_up, BALL_SPEED_MAX, BALL_SPEED_INCREMENT, Rmin.
    destruct (Rle_dec 12 (5.25 + INR n * 0.25 + 0.25)); lra. }
  unfold left_run.
  rewrite Hb, Hb0, Hwin, Hscore, Hs0, Hrect, Hvx, Hvy, Hs, Hcd, Hem, Hem0, Hsped.
  rewrite Hb0. cbn [Game.add_point nth].
  rewrite Nat2Z.inj_succ. unfold Z.succ.
  repeat split; try lra.
  cbn [Bounds.center Vector2.x Vector2.y Bounds.width Bounds.height].
  replace (800 / 2) with (IZR 400) by lra.
  replace (600 / 2) with (IZR 300) by lra.
  rewrite !int_IZR. unfold Rect.set_center.
  rewrite Hb0 in Hw, Hh. rewrite Hw, Hh, Hw14, Hh14.
  reflexivity.
Qed.

(** Frame 4: the bounced ball still moves left (the direction after a
    bounce is that of the incoming ball) and leaves the field; the right
    side scores its first point. *)
Lemma first_point (g : Game.t) :
  Game.reachable g ->
  after_first_hit g ->
  exists g',
    Game.step Game.Tick g g' /\
    Game.reachable g' /\
    left_run 1 g'.
Proof.
  intros Hreach (Hb & Hw & Hs & Hrect & Hvel & Hspeed & Hcd & Hem).
  destruct first_hit_velocity as [_ [_ Hvx]].
  apply (left_exit_tick 0 g); try assumption.
  - lia.
  - now rewrite Hrect.
  - now rewrite Hrect.
  - rewrite Hrect, Hvel. cbn [Rect.x]. rewrite plus_IZR. lra.
  - rewrite Hspeed. cbn [INR]. lra.
Qed.

(** A serve of the run, counted down in one frame of 1200 ms and carried
    out of the field by the next frame, gives the next serve of the run. *)
Lemma left_run_next (n : nat) (g : Game.t) :
  Game.reachable g ->
  left_run n g ->
  (n < 11)%nat ->
  exists g1 g2,
    Game.step Game.Tick g g1 /\
    Game.step Game.Tick g1 g2 /\
    Game.reachable g2 /\
    left_run (S n) g2.
Proof.
  intros Hreach (Hb0 & Hw0 & Hs0 & Hrect0 & Hvx0 & Hvy0 & Hspeed0 & Hcd0 & Hem0) Hn.
  assert (Hnone : Game.winner g = None).
  { rewrite Hw0. unfold SCORE_TO_WIN.
    assert (H : (Z.of_nat n >=? 11)%Z = false)
      by (rewrite Z.geb_leb; apply Z.leb_gt; lia).
    now rewrite H. }
  destruct (reachable_tick g no_keys left_draw 1200
              Hreach ltac:(rewrite Hem0; lia) left_draw_valid ltac:(lra))
    as (fuel & g1 & Hup & Hstep & Hreach1).
  destruct (serving_tick_inv _ _ _ _ _ _ _ Hup Hnone
              ltac:(rewrite Hcd0; unfold COUNTDOWN_TIME; lia))
    as (Hb & Hw & Hs & _ & Hball & Hem).
  assert (Hpos : 0 <= INR n) by apply pos_INR.
  destruct (left_exit_tick n g1) as (g2 & Hstep2 & Hreach2 & Hrun);
    try assumption.
  - now rewrite Hb.
  - now rewrite Hs.
  - rewrite Hball; cbn [Ball.serve_cooldown]. rewrite Hcd0.
    unfold COUNTDOWN_TIME. change 1200 with (IZR 1200). rewrite int_IZR. lia.
  - rewrite Hball; cbn [Ball.rect]. now rewrite Hrect0.
  - rewrite Hball; cbn [Ball.rect]. now rewrite Hrect0.
  - rewrite Hball; cbn [Ball.rect Ball.velocity]. rewrite Hrect0, Hvx0, Hspeed0.
    cbn [Rect.x]. rewrite plus_IZR. lra.
  - rewrite Hball; cbn [Ball.speed]. exact Hspeed0.
  - now rewrite Hem.
  - exists g1, g2.
    split; [exact Hstep |]. split; [exact Hstep2 |]. split; assumption.
Qed.

(** The state after frame 2 of the first rally: the ball is active. *)
Lemma first_rally_active :
  exists g2, Game.reachable g2 /\ first_rally 0 g2.
Proof.
  destruct first_rally_starts as (g1 & _ & Hreach1 & Hrally1).
  destruct (first_rally_counts_down 1130 g1 Hreach1 Hrally1 ltac:(lia))
    as (g2 & _ & Hreach2 & Hrally2).
  exists g2. split; assumption.
Qed.

(** The run reaches every score up to the winning one. *)
Lemma left_run_reached (n : nat) :
  (n < 11)%nat ->
  exists g, Game.reachable g /\ left_run (S n) g.
Proof.
  induction n as [| n IH]; intros Hn.
  - destruct first_rally_active as (g2 & Hreach2 & Hrally2).
    destruct (first_rally_hit g2 Hreach2 Hrally2) as (g3 & _ & Hreach3 & Hhit & _).
    destruct (first_point g3 Hreach3 Hhit) as (g4 & _ & Hreach4 & Hrun).
    exists g4. split; assumption.
  - destruct (IH ltac:(lia)) as (g & Hreach & Hrun).
    destruct (left_run_next (S n) g Hreach Hrun Hn) as (g1 & g2 & _ & _ & Hreach2 & Hrun2).
    exists g2. split; assumption.
Qed.

(** ** A wall reflection of the bounced ball *)

(** The ball of [after_first_hit], put into a field whose bottom wall is
    one pixel below it, with both paddles at the top of the field: a
    frame of 16 ms reflects it at that wall. *)
Lemma bounced_ball_reflects (b : Ball.t) :
  Ball.rect b = Rect.mk 42 293 14 14 ->
  Ball.velocity b = Vector2.scale (Vector2.rotate (-30) (Vector2.mk (-1) 0)) 5.25 ->
  Ball.serve_cooldown b = 0%Z ->
  exists b',
    Ball.update 16 (Bounds.mk 800 308)
      (Paddle.init 30 0 12 100 PADDLE_SPEED, Paddle.init 758 0 12 100 PADDLE_SPEED) b
      = Ok (b', None) /\
    Rect.bottom (Ball.rect b') = 308%Z /\
    Ball.velocity b' =
      Vector2.mk (Vector2.x (Ball.velocity b)) (- Vector2.y (Ball.velocity b)) /\
    Vector2.y (Ball.velocity b') = -2.625.
Proof.
  intros Hrect Hvel Hcd.
  destruct first_hit_velocity as [Hvy [Hvx1 Hvx2]].
  destruct (update_reflects_at_bottom_aux 16 (Bounds.mk 800 308)
              (Paddle.init 30 0 12 100 PADDLE_SPEED,
               Paddle.init 758 0 12 100 PADDLE_SPEED) b)
    as (b' & Hup & Hbottom & Hvel' & _).
  - rewrite Hcd. lia.
  - rewrite Hrect. cbn. lia.
  - rewrite Hvel, Hvy. unfold FPS. lra.
  - rewrite Hrect, Hvel, Hvy. cbn [Rect.y Rect.h Bounds.height].
    unfold FPS. rewrite plus_IZR. lra.
  - rewrite Hrect, Hvel. cbn [Rect.x Rect.w]. unfold FPS. rewrite plus_IZR. lra.
  - rewrite Hrect, Hvel. cbn [Rect.x Bounds.width]. unfold FPS. lra.
  - intros x. rewrite Hrect. cbn [fst snd Paddle.init Paddle.rect Rect.w Rect.h
                                 Bounds.height].
    unfold Rect.colliderect; cbn [Rect.x Rect.y Rect.w Rect.h].
    change ((14 =? 0)%Z) with false. change ((12 =? 0)%Z) with false.
    change ((100 =? 0)%Z) with false. cbn [orb].
    change (Z.min (308 - 14) (308 - 14 + 14) <? Z.max 0 (0 + 100))%Z with false.
    rewrite !Bool.andb_false_r. split; reflexivity.
  - exists b'. split; [exact Hup |]. split; [exact Hbottom |].
    split; [exact Hvel' |]. rewrite Hvel'. cbn [Vector2.y]. rewrite Hvel, Hvy. lra.
Qed.

(** ** C3 and C4 on the match *)

(** C3 on the first rally: the active ball before the paddle hit, the
    ball after the hit (speed 5.25, velocity 5.25 * (-cos 30, sin 30)),
    the hit itself as a non-scoring update, and a wall reflection of the
    bounced ball. *)
Lemma velocity_length_is_speed_witness :
  exists g2 g3 : Game.t,
    Game.reachable g2 /\
    first_rally 0 g2 /\
    Game.step Game.Tick g2 g3 /\
    after_first_hit g3 /\
    (exists paddles,
       Ball.update 1181 (Game.bounds g2) paddles (Game.ball g2)
         = Ok (Game.ball g3, None)) /\
    (exists b',
       Ball.update 16 (Bounds.mk 800 308)
         (Paddle.init 30 0 12 100 PADDLE_SPEED,
          Paddle.init 758 0 12 100 PADDLE_SPEED) (Game.ball g3)
         = Ok (b', None) /\
       Rect.bottom (Ball.rect b') = 308%Z /\
       Vector2.y (Ball.velocity (Game.ball g3)) = 2.625 /\
       Vector2.y (Ball.velocity b') = -2.625 /\
       Vector2.length (Ball.velocity b') = Ball.speed b') /\
    (Vector2.length (Ball.velocity (Game.ball g2)) = Ball.speed (Game.ball g2) /\
     (forall center to_left d b',
        Ball.reset center to_left d (Game.ball g2) = Ok b' ->
        Vector2.length (Ball.velocity b') = Ball.speed b') /\
     (forall dt_ms bounds paddles b',
        Ball.update dt_ms bounds paddles (Game.ball g2) = Ok (b', None) ->
        Vector2.length (Ball.velocity b') = Ball.speed b')) /\
    (Vector2.length (Ball.velocity (Game.ball g3)) = Ball.speed (Game.ball g3) /\
     (forall center to_left d b',
        Ball.reset center to_left d (Game.ball g3) = Ok b' ->
        Vector2.length (Ball.velocity b') = Ball.speed b') /\
     (forall dt_ms bounds paddles b',
        Ball.update dt_ms bounds paddles (Game.ball g3) = Ok (b', None) ->
        Vector2.length (Ball.velocity b') = Ball.speed b')).
Proof.
  destruct first_rally_active as (g2 & Hreach2 & Hrally2).
  destruct (first_rally_hit g2 Hreach2 Hrally2)
    as (g3 & Hstep & Hreach3 & Hhit & Hupdate).
  pose proof Hhit as (_ & _ & _ & Hrect & Hvel & _ & Hcd & _).
  destruct (bounced_ball_reflects (Game.ball g3) Hrect Hvel Hcd)
    as (b' & Hwall & Hbottom & _ & Hvy').
  pose proof (velocity_length_is_speed g2 Hreach2) as T2.
  pose proof (velocity_length_is_speed g3 Hreach3) as T3.
  exists g2, g3.
  split; [exact Hreach2 |]. split; [exact Hrally2 |].
  split; [exact Hstep |]. split; [exact Hhit |].
  split; [exact Hupdate |].
  split; [| split; [exact T2 | exact T3]].
  exists b'. split; [exact Hwall |]. split; [exact Hbottom |].
  split; [rewrite Hvel; exact (proj1 first_hit_velocity) |].
  split; [exact Hvy' |].
  exact (proj2 (proj2 T3) _ _ _ _ Hwall).
Defined.

(** C4 on the match: the frame of the paddle hit (speed 5 to 5.25, score
    unchanged), the frame of the first point (score [0, 1], speed 5.25 to
    5.5), and the restart after the eleventh point (speed 8 back to
    5). *)
Lemma ball_speed_monotone_and_capped_witness :
  exists g2 g3 g4 gw gr : Game.t,
    (Game.reachable g2 /\ first_rally 0 g2 /\
     Game.step Game.Tick g2 g3 /\ after_first_hit g3 /\
     Game.step Game.Tick g3 g4 /\ left_run 1 g4 /\
     Game.reachable gw /\ left_run 11 gw /\
     Game.step Game.Restart gw gr) /\
    (Ball.speed (Game.ball g2) = 5 /\
     Ball.speed (Game.ball g3) = 5.25 /\
     Game.score g3 = Game.score g2 /\
     Ball.speed (Game.ball g4) = 5.5 /\
     Game.score g4 <> Game.score g3 /\
     Game.winner gw = Some 1%nat /\
     Ball.speed (Game.ball gw) = 8 /\
     Ball.speed (Game.ball gr) = 5) /\
    (BALL_SPEED_START <= Ball.speed (Game.ball g3) <= BALL_SPEED_MAX /\
     (Ball.speed (Game.ball g2) <= Ball.speed (Game.ball g3) /\
      (Ball.speed (Game.ball g3) = Ball.speed (Game.ball g2) \/
       Ball.speed (Game.ball g3) =
         Rmin BALL_SPEED_MAX (Ball.speed (Game.ball g2) + BALL_SPEED_INCREMENT)) /\
      (Game.score g3 <> Game.score g2 ->
       Ball.speed (Game.ball g3) =
         Rmin BALL_SPEED_MAX (Ball.speed (Game.ball g2) + BALL_SPEED_INCREMENT))) /\
     (forall paddle b b',
        Ball.bounce_off_paddle paddle b = Ok b' ->
        Ball.speed b' = Rmin BALL_SPEED_MAX (Ball.speed b + BALL_SPEED_INCREMENT)) /\
     (forall dt_ms bounds paddles b b' side,
        Ball.update dt_ms bounds paddles b = Ok (b', Some side) ->
        Ball.speed b' = Rmin BALL_SPEED_MAX (Ball.speed b + BALL_SPEED_INCREMENT)) /\
     (forall dt_ms bounds paddles b,
        (Ball.serve_cooldown b <= 0)%Z ->
        (Rect.right (fst (moved_ball dt_ms bounds b)) < 0 \/
         Bounds.width bounds < Rect.left (fst (moved_ball dt_ms bounds b)))%Z ->
        exists b' side,
          Ball.update dt_ms bounds paddles b = Ok (b', Some side) /\
          Ball.speed b' = Rmin BALL_SPEED_MAX (Ball.speed b + BALL_SPEED_INCREMENT)) /\
     (forall dt_ms bounds paddles b,
        (Ball.serve_cooldown b <= 0)%Z ->
        (0 <= Rect.right (fst (moved_ball dt_ms bounds b)))%Z ->
        (Rect.left (fst (moved_ball dt_ms bounds b)) <= Bounds.width bounds)%Z ->
        (Rect.colliderect (fst (moved_ball dt_ms bounds b))
           (Paddle.rect (fst paddles)) = true /\
         Vector2.x (snd (moved_ball dt_ms bounds b)) < 0 /\
         Rect.height (Paddle.rect (fst paddles)) <> 0%Z) \/
        (Rect.colliderect (fst (moved_ball dt_ms bounds b))
           (Paddle.rect (snd paddles)) = true /\
         0 < Vector2.x (snd (moved_ball dt_ms bounds b)) /\
         Rect.height (Paddle.rect (snd paddles)) <> 0%Z) ->
        exists b',
          Ball.update dt_ms bounds paddles b = Ok (b', None) /\
          Ball.speed b' = Rmin BALL_SPEED_MAX (Ball.speed b + BALL_SPEED_INCREMENT)) /\
     (forall dt_ms,
        Game.winner g2 = None ->
        (Ball.serve_cooldown (Game.ball g2) <= 0)%Z ->
        (Rect.right (fst (moved_ball dt_ms (Game.bounds g2) (Game.ball g2))) < 0 \/
         Bounds.width (Game.bounds g2)
           < Rect.left (fst (moved_ball dt_ms (Game.bounds g2) (Game.ball g2))))%Z ->
        exists fuel0 : nat,
          forall (fuel : nat) (k : Game.keys) (jitter : R) (d : Ball.serve_draw),
            (fuel0 <= fuel)%nat ->
            exists g1,
              Game.update fuel k jitter d dt_ms g2 = Ok g1 /\
              Game.score g1 =
                Game.add_point
                  (if (Rect.right
                         (fst (moved_ball dt_ms (Game.bounds g2) (Game.ball g2)))
                       <? 0)%Z then 1%nat else 0%nat)
                  (Game.score g2) /\
              Ball.speed (Game.ball g1) =
                Rmin BALL_SPEED_MAX
                  (Ball.speed (Game.ball g2) + BALL_SPEED_INCREMENT))) /\
    (BALL_SPEED_START <= Ball.speed (Game.ball g4) <= BALL_SPEED_MAX /\
     Ball.speed (Game.ball g3) <= Ball.speed (Game.ball g4) /\
     (Ball.speed (Game.ball g4) = Ball.speed (Game.ball g3) \/
      Ball.speed (Game.ball g4) =
        Rmin BALL_SPEED_MAX (Ball.speed (Game.ball g3) + BALL_SPEED_INCREMENT)) /\
     (Game.score g4 <> Game.score g3 ->
      Ball.speed (Game.ball g4) =
        Rmin BALL_SPEED_MAX (Ball.speed (Game.ball g3) + BALL_SPEED_INCREMENT))) /\
    (BALL_SPEED_START <= Ball.speed (Game.ball gr) <= BALL_SPEED_MAX /\
     Ball.speed (Game.ball gr) = BALL_SPEED_START).
Proof.
  destruct first_rally_active as (g2 & Hreach2 & Hrally2).
  destruct (first_rally_hit g2 Hreach2 Hrally2)
    as (g3 & Hstep23 & Hreach3 & Hhit & _).
  destruct (first_point g3 Hreach3 Hhit) as (g4 & Hstep34 & Hreach4 & Hrun1).
  destruct (left_run_reached 10 ltac:(lia)) as (gw & Hreachw & Hrunw).
  destruct (restart_total left_draw gw) as [gr Hrestart].
  assert (Hwon : Game.winner gw = Some 1%nat).
  { destruct Hrunw as (_ & Hw & _). exact Hw. }
  assert (Hstepr : Game.step Game.Restart gw gr).
  { apply (Game.step_restart left_draw); [| exact left_draw_valid | exact Hrestart].
    rewrite Hwon. discriminate. }
  pose proof (ball_speed_monotone_and_capped Game.Tick g2 g3 Hreach2 Hstep23) as T23.
  pose proof (ball_speed_monotone_and_capped Game.Tick g3 g4 Hreach3 Hstep34) as T34.
  pose proof (ball_speed_monotone_and_capped Game.Restart gw gr Hreachw Hstepr) as Tr.
  exists g2, g3, g4, gw, gr.
  split; [repeat (split; [assumption |]); assumption |].
  split.
  - destruct Hrally2 as (_ & _ & Hs2 & _ & Hball2 & _).
    destruct Hhit as (_ & _ & Hs3 & _ & _ & Hspeed3 & _).
    destruct Hrun1 as (_ & _ & Hs4 & _ & _ & _ & Hspeed4 & _).
    destruct Hrunw as (_ & _ & _ & _ & _ & _ & Hspeedw & _).
    split; [rewrite Hball2; reflexivity |].
    split; [exact Hspeed3 |].
    split; [rewrite Hs3, Hs2; reflexivity |].
    split; [rewrite Hspeed4; cbn [INR]; lra |].
    split; [rewrite Hs4, Hs3; discriminate |].
    split; [exact Hwon |].
    split; [rewrite Hspeedw; replace (INR 11) with 11 by (simpl; lra); lra |].
    exact (proj1 (proj2 Tr)).
  - split; [exact T23 |].
    split.
    + destruct T34 as (H1 & (H2 & H3 & H4) & _).
      split; [exact H1 |]. split; [exact H2 |]. split; [exact H3 | exact H4].
    + split; [exact (proj1 Tr) | exact (proj1 (proj2 Tr))].
Defined.
